(** * Loom Git Sync: the change-to-commit coordination core

    A shallow embedding of the TypeScript sources of the plugin
    (utils.ts, git-service.ts, status-bar.ts, file-watcher.ts,
    sync-manager.ts, main.ts) and the properties of the specification
    checked against it.

    Conventions of the embedding.
    - A JavaScript string is a [string] (a sequence of code units below 256).
    - An [async] method is run to completion: its continuation is not
      interleaved with other entry points.
    - A method that can throw returns a [Completion]; the mutable fields of
      an object are a record that is passed in and returned.
    - Everything the manager does to the outside world (Gateway calls, timer
      sleeps, subscriber calls, notices, console output) is appended to a
      trace, in the order in which it happens.
    - A subscriber of the status observes: its callback does not call back
      into the manager. *)

From Stdlib Require Import List String Ascii Bool Arith NArith ZArith Lia.
From Stdlib Require Import DecimalString.
Import ListNotations.
Open Scope string_scope.
Open Scope list_scope.

(* ================================================================== *)
(** * Completions *)
(* ================================================================== *)

(** How a call ends: it returns a value, it throws an [Error] (of which the
    code only ever reads the message), or the model's loop bound ran out
    ([OutOfFuel], shown below never to happen). *)
Inductive Completion (A : Type) : Type :=
| Normal (a : A)
| Throw (message : string)
| OutOfFuel.
Arguments Normal {A} a.
Arguments Throw {A} message.
Arguments OutOfFuel {A}.

(* ================================================================== *)
(** * utils.ts *)
(* ================================================================== *)

Module Utils.

(** The double quote character (code unit 34). *)
Definition dquote : ascii := ascii_of_nat 34.

(** The character class of [sanitizeFilename]: less-than, greater-than,
    colon, double quote, bar, question mark and star. *)
Definition unsafe_chars : list ascii :=
  ["<"; ">"; ":"; dquote; "|"; "?"; "*"]%char.

Definition is_unsafe_char (c : ascii) : bool :=
  existsb (Ascii.eqb c) unsafe_chars.

Fixpoint map_chars (f : ascii -> ascii) (s : string) : string :=
  match s with
  | EmptyString => EmptyString
  | String c s' => String (f c) (map_chars f s')
  end.

(** A global regex replacement of each character of the class by an
    underscore. *)
Definition sanitizeFilename (filename : string) : string :=
  map_chars (fun c => if is_unsafe_char c then "_"%char else c) filename.

(** ** [String.prototype.replace] with a string pattern

    Only the first occurrence of the pattern is replaced, and the
    replacement text is expanded by GetSubstitution: [$$] is a dollar,
    [$&] the matched text, [$`] the text before the match and [$'] the
    text after it.  A string pattern has no captures, so [$1] and the
    like stay as they are. *)

Definition backtick : ascii := ascii_of_nat 96.
Definition quote : ascii := ascii_of_nat 39.

Fixpoint GetSubstitution (matched before after replacement : string)
  : string :=
  match replacement with
  | EmptyString => EmptyString
  | String c r =>
      if Ascii.eqb c "$" then
        match r with
        | EmptyString => String c EmptyString
        | String d r' =>
            if Ascii.eqb d "$" then
              String "$" (GetSubstitution matched before after r')
            else if Ascii.eqb d "&" then
              (matched ++ GetSubstitution matched before after r')%string
            else if Ascii.eqb d backtick then
              (before ++ GetSubstitution matched before after r')%string
            else if Ascii.eqb d quote then
              (after ++ GetSubstitution matched before after r')%string
            else String c (GetSubstitution matched before after r)
        end
      else String c (GetSubstitution matched before after r)
  end.

(** [drop n s] is [s.slice(n)]. *)
Fixpoint drop (n : nat) (s : string) : string :=
  match n, s with
  | O, _ => s
  | S n', String _ s' => drop n' s'
  | S _, EmptyString => EmptyString
  end.

(** [take n s] is [s.slice(0, n)]. *)
Fixpoint take (n : nat) (s : string) : string :=
  match n, s with
  | O, _ => EmptyString
  | S n', String c s' => String c (take n' s')
  | S _, EmptyString => EmptyString
  end.

(** [find pat s]: the position of the first occurrence of [pat] in [s]. *)
Fixpoint find (pat s : string) : option nat :=
  if String.prefix pat s then Some 0
  else match s with
       | EmptyString => None
       | String _ s' => option_map S (find pat s')
       end.

Definition replace (s pat replacement : string) : string :=
  match find pat s with
  | None => s
  | Some i =>
      let before := take i s in
      let after := drop (i + String.length pat) s in
      (before ++ GetSubstitution pat before after replacement ++ after)%string
  end.

(** [toUpperCase] on one code unit; on the ASCII letters, the only ones the
    callers pass. *)
Definition toUpperCase (c : ascii) : ascii :=
  let n := nat_of_ascii c in
  if Nat.leb 97 n && Nat.leb n 122 then ascii_of_nat (n - 32) else c.

(** ** [debounce]

    The closure state of a debounced function is its one timer: the time
    at which it is due and the arguments captured by the arrow function
    passed to [setTimeout].  A timer that has fired stays recorded in
    [timeoutId], where [clearTimeout] does nothing to it; [fired] tells
    the two apart. *)
Record Timer (Args : Type) : Type := mkTimer {
  due : N;
  args : Args;
  fired : bool
}.
Arguments mkTimer {Args} due args fired.
Arguments due {Args} t.
Arguments args {Args} t.
Arguments fired {Args} t.

Definition Debounced (Args : Type) : Type := option (Timer Args).

(** A call of the debounced function at time [now]: the pending timer, if
    any, is cleared and a new one is set [delay] milliseconds ahead. *)
Definition debounce_call {Args : Type} (delay now : N) (a : Args)
  (timeoutId : Debounced Args) : Debounced Args :=
  Some (mkTimer (now + delay)%N a false).

(** The host's timer queue at time [now]: a timer that is due and has not
    fired yet fires; its arguments are handed to [func]. *)
Definition debounce_tick {Args : Type} (now : N)
  (timeoutId : Debounced Args) : option Args * Debounced Args :=
  match timeoutId with
  | Some t =>
      if negb (fired t) && N.leb (due t) now
      then (Some (args t), Some (mkTimer (due t) (args t) true))
      else (None, timeoutId)
  | None => (None, None)
  end.

Definition due_of {Args : Type} (timeoutId : Debounced Args) : N :=
  match timeoutId with Some t => due t | None => 0%N end.

(** ** [RetryHelper.retry]

    [remaining] is [maxRetries - attempt].  The operation runs; when it
    throws and [attempt === maxRetries] the loop breaks and the last error
    is thrown; otherwise the helper sleeps [baseDelay * 2^attempt] and
    goes round again. *)
Section Retry.
Context {W A : Type}.
Variable sleep : N -> W -> W.

Fixpoint retry_from (operation : W -> Completion A * W)
  (remaining attempt : nat) (baseDelay : N) (w : W) : Completion A * W :=
  match operation w with
  | (Throw lastError, w') =>
      match remaining with
      | O => (Throw lastError, w')
      | S remaining' =>
          retry_from operation remaining' (S attempt) baseDelay
            (sleep (baseDelay * 2 ^ N.of_nat attempt)%N w')
      end
  | done => done
  end.

Definition retry (operation : W -> Completion A * W)
  (maxRetries : nat) (baseDelay : N) : W -> Completion A * W :=
  retry_from operation maxRetries 0 baseDelay.
End Retry.

(** ** [throttle]

    The closure state of a throttled function is [lastExecution], which
    starts at 0.  A call at time [now] (the value of [Date.now()]) tells
    whether [func] runs, and gives the new state. *)
Definition throttle_call (delay now lastExecution : Z) : bool * Z :=
  if (now - lastExecution >=? delay)%Z then (true, now)
  else (false, lastExecution).

(** ** [formatTimeAgo]

    A [Date] holds a time value in milliseconds, or none when it is
    invalid ([getTime()] is then [NaN], and every comparison with it is
    false).  [Math.floor] of a quotient by a positive number is [Z.div].
    A template literal prints an integer in decimal. *)
Definition decimal (n : Z) : string := NilZero.string_of_int (Z.to_int n).

Section TimeAgo.
Variable toLocaleDateString : option Z -> string.

Definition formatTimeAgo (now : Z) (date : option Z) : string :=
  match date with
  | None => toLocaleDateString date
  | Some time =>
      let diffMs := (now - time)%Z in
      let diffSeconds := (diffMs / 1000)%Z in
      let diffMinutes := (diffSeconds / 60)%Z in
      let diffHours := (diffMinutes / 60)%Z in
      let diffDays := (diffHours / 24)%Z in
      if (diffSeconds <? 60)%Z then "just now"
      else if (diffMinutes <? 60)%Z then decimal diffMinutes ++ " minutes ago"
      else if (diffHours <? 24)%Z then decimal diffHours ++ " hours ago"
      else if (diffDays <? 30)%Z then decimal diffDays ++ " days ago"
      else toLocaleDateString date
  end.
End TimeAgo.

(** ** [isValidGitUrl]

    Each of the eight expressions is, between the two anchors, a sequence
    of literal texts and of runs [[\w.-]+]: one or more word characters
    (letters, digits, underscore), dots and hyphens. *)
Inductive Piece : Type :=
| Text (text : string)
| Run.

Definition is_word_char (c : ascii) : bool :=
  let n := nat_of_ascii c in
  (Nat.leb 48 n && Nat.leb n 57) || (Nat.leb 65 n && Nat.leb n 90)
  || (Nat.leb 97 n && Nat.leb n 122) || Nat.eqb n 95.

Definition in_class (c : ascii) : bool :=
  is_word_char c || Ascii.eqb c "." || Ascii.eqb c "-".

(** [s] without its prefix [text], if it begins with it. *)
Fixpoint strip (text s : string) : option string :=
  match text, s with
  | EmptyString, _ => Some s
  | String c text', String d s' =>
      if Ascii.eqb c d then strip text' s' else None
  | String _ _, EmptyString => None
  end.

(** [pattern.test(url)]: the whole of [url] is matched. *)
Fixpoint test (pattern : list Piece) : string -> bool :=
  match pattern with
  | [] => fun s => match s with EmptyString => true | String _ _ => false end
  | Text text :: pattern' =>
      fun s =>
        match strip text s with
        | Some s' => test pattern' s'
        | None => false
        end
  | Run :: pattern' =>
      let rest := test pattern' in
      let more :=
        fix more (s : string) : bool :=
          rest s ||
          match s with
          | String c s' => in_class c && more s'
          | EmptyString => false
          end in
      fun s =>
        match s with
        | String c s' => in_class c && more s'
        | EmptyString => false
        end
  end.

Definition gitUrlPatterns : list (list Piece) :=
  [ [Text "https://github.com/"; Run; Text "/"; Run; Text ".git"];
    [Text "git@github.com:"; Run; Text "/"; Run; Text ".git"];
    [Text "https://gitlab.com/"; Run; Text "/"; Run; Text ".git"];
    [Text "git@gitlab.com:"; Run; Text "/"; Run; Text ".git"];
    [Text "https://bitbucket.org/"; Run; Text "/"; Run; Text ".git"];
    [Text "git@bitbucket.org:"; Run; Text "/"; Run; Text ".git"];
    [Text "https://"; Run; Text "/"; Run; Text "/"; Run; Text ".git"];
    [Text "git@"; Run; Text ":"; Run; Text "/"; Run; Text ".git"] ].

Definition isValidGitUrl (url : string) : bool :=
  existsb (fun pattern => test pattern url) gitUrlPatterns.

(** ** [extractRepoName]

    The expression is a slash, a group of one or more characters other
    than a slash, taken as short as can be, an optional [.git], and the end
    of the input.  [group s] is the group when the match begins at the slash
    before [s]: the shortest prefix of [s], not empty and without a slash,
    after which [s] ends or goes on with [.git] and ends. *)
Fixpoint group (s : string) : option string :=
  match s with
  | EmptyString => None
  | String c s' =>
      if Ascii.eqb c "/" then None
      else if String.eqb s' ".git" || String.eqb s' "" then
        Some (String c EmptyString)
      else option_map (String c) (group s')
  end.

(** [url.match(...)]: the match begins at the first slash at which the
    rest of the expression matches; the result is its group. *)
Fixpoint match_ (url : string) : option string :=
  match url with
  | EmptyString => None
  | String c url' =>
      if Ascii.eqb c "/" then
        match group url' with
        | Some g => Some g
        | None => match_ url'
        end
      else match_ url'
  end.

Definition extractRepoName (url : string) : string :=
  match match_ url with
  | Some g => g
  | None => "repository"
  end.

End Utils.

(* ================================================================== *)
(** * settings.ts *)
(* ================================================================== *)

Inductive AuthMethod : Type := ssh | https.

Record LoomSettings : Type := mkSettings {
  remoteUrl : string;
  branch : string;
  authMethod : AuthMethod;
  autoSync : bool;
  commitMessageTemplate : string;
  debounceDelay : N;
  excludePatterns : list string;
  gitUserName : string;
  gitUserEmail : string;
  autoPush : bool;
  showNotifications : bool;
  lastSync : N;
  repositoryInitialized : bool
}.

Definition DEFAULT_SETTINGS : LoomSettings := {|
  remoteUrl := "";
  branch := "main";
  authMethod := https;
  autoSync := true;
  commitMessageTemplate := "{action}: {filename}";
  debounceDelay := 500%N;
  excludePatterns :=
    [".obsidian/workspace.json"; ".obsidian/workspace-mobile.json";
     ".obsidian/cache"; "*.tmp"; "*~"; ".DS_Store"; "Thumbs.db"];
  gitUserName := "";
  gitUserEmail := "";
  autoPush := false;
  showNotifications := true;
  lastSync := 0%N;
  repositoryInitialized := false
|}.

(** The object [Object.assign({}, s, { field: value })]. *)
Definition with_remoteUrl (url : string) (s : LoomSettings) : LoomSettings :=
  mkSettings url (branch s) (authMethod s) (autoSync s)
    (commitMessageTemplate s) (debounceDelay s) (excludePatterns s)
    (gitUserName s) (gitUserEmail s) (autoPush s) (showNotifications s)
    (lastSync s) (repositoryInitialized s).

Definition with_debounceDelay (delay : N) (s : LoomSettings)
  : LoomSettings :=
  mkSettings (remoteUrl s) (branch s) (authMethod s) (autoSync s)
    (commitMessageTemplate s) delay (excludePatterns s)
    (gitUserName s) (gitUserEmail s) (autoPush s) (showNotifications s)
    (lastSync s) (repositoryInitialized s).

Definition with_excludePatterns (patterns : list string) (s : LoomSettings)
  : LoomSettings :=
  mkSettings (remoteUrl s) (branch s) (authMethod s) (autoSync s)
    (commitMessageTemplate s) (debounceDelay s) patterns
    (gitUserName s) (gitUserEmail s) (autoPush s) (showNotifications s)
    (lastSync s) (repositoryInitialized s).

Definition with_autoSync (enabled : bool) (s : LoomSettings) : LoomSettings :=
  mkSettings (remoteUrl s) (branch s) (authMethod s) enabled
    (commitMessageTemplate s) (debounceDelay s) (excludePatterns s)
    (gitUserName s) (gitUserEmail s) (autoPush s) (showNotifications s)
    (lastSync s) (repositoryInitialized s).

(** JavaScript truthiness of a string: the empty string is falsy. *)
Definition truthy (s : string) : bool :=
  match s with EmptyString => false | String _ _ => true end.

(** The host's file handle, as far as the core reads it. *)
Record TFile : Type := mkFile {
  path : string;
  name : string;
  extension : string
}.

Inductive FileChangeAction : Type := create | modify | delete | rename.

Inductive SyncStatus : Type := idle | syncing | error | offline.

(* ================================================================== *)
(** * The outside world *)
(* ================================================================== *)

(** What the core does to the outside, in the order in which it happens.
    A Gateway call records what it threw ([None]: it resolved); a subscriber
    call records, next to its two arguments, the status that [getStatus()]
    would return to the subscriber at that moment. *)
Inductive Event : Type :=
| CallCommit (message : string) (filePaths : option (list string))
    (thrown : option string)
| CallPush (thrown : option string)
| CallPull (thrown : option string)
| CallGetStatus (result : string + bool)
| CallListRemote (url : string) (resolved : bool)
| Slept (ms : N)
| Notified (callback : nat) (status : SyncStatus) (message : string)
    (current : SyncStatus)
| Noticed (text : string)
| Logged (text : string).

(** The version-control tool behind [GitService], with the repository and
    the network: an external collaborator.  Each method that runs the tool
    answers from the history so far.  [commit], [push] and [pull] give the
    message of the error they throw, or [None]; [getStatus] gives the
    [clean] flag or the message of the error; [listRemote] tells whether the
    remote answered.  [isRepository] tells whether the vault holds a
    repository at all. *)
Module Gateway.
Record t : Type := mk {
  commit : list Event -> string -> option (list string) -> option string;
  push : list Event -> option string;
  pull : list Event -> option string;
  getStatus : list Event -> string + bool;
  listRemote : list Event -> string -> bool;
  isRepository : bool
}.
End Gateway.

(** The library simple-git, as far as [commit], [push] and [pull] of the
    [GitService] call it.  Each method answers from the calls made so far:
    the message of the error it throws, or none; [status] gives the paths
    that are staged.  [add] is handed one path or an array of paths;
    [pushWith] is [push] handed an array of arguments. *)
Module SimpleGit.

Inductive Call : Type :=
| Add (files : string + list string) (thrown : option string)
| Status (result : string + list string)
| Commit (message : string) (thrown : option string)
| Push (remote branch : string) (thrown : option string)
| PushWith (args : list string) (thrown : option string)
| Pull (remote branch : string) (thrown : option string).

Record t : Type := mk {
  add : list Call -> string + list string -> option string;
  status : list Call -> string + list string;
  commit : list Call -> string -> option string;
  push : list Call -> string -> string -> option string;
  pushWith : list Call -> list string -> option string;
  pull : list Call -> string -> string -> option string
}.

End SimpleGit.

(* ================================================================== *)
(** * git-service.ts *)
(* ================================================================== *)

Module GitService.

Record t : Type := mk {
  vaultPath : string;
  settings : LoomSettings
}.

Definition updateSettings (s : LoomSettings) (g : t) : t :=
  {| vaultPath := vaultPath g; settings := s |}.

(** The body of the [try] is [return true]: nothing in it can throw, and
    nothing in it looks at the repository. *)
Definition isRepositoryInitialized (g : t) : bool := true.

(** [testConnection] never throws: a missing remote URL and a failing
    [listRemote] both give [false]. *)
Definition testConnection (w : Gateway.t) (g : t) (tr : list Event)
  : bool * list Event :=
  if negb (truthy (remoteUrl (settings g))) then (false, tr)
  else
    let ok := Gateway.listRemote w tr (remoteUrl (settings g)) in
    (ok, tr ++ [CallListRemote (remoteUrl (settings g)) ok]).

Definition capitalizeFirst (str : string) : string :=
  match str with
  | EmptyString => EmptyString
  | String c rest => String (Utils.toUpperCase c) rest
  end.

Definition generateCommitMessage (g : t) (action filename : string)
  : string :=
  Utils.replace
    (Utils.replace (commitMessageTemplate (settings g)) "{action}"
       (capitalizeFirst action))
    "{filename}" filename.

(** ** [commit], [push] and [pull] over the library

    A method takes the calls made so far and gives them back with its
    own. *)
Section WithSimpleGit.
Variable git : SimpleGit.t.

Definition G (A : Type) : Type :=
  list SimpleGit.Call -> Completion A * list SimpleGit.Call.

(** [filePaths] is absent, or an array: an empty array stages everything,
    as an absent one does. *)
Definition commit (g : t) (message : string)
  (filePaths : option (list string)) : G unit := fun calls =>
  let files :=
    match filePaths with
    | Some (p :: ps) => inr (p :: ps)
    | _ => inl "."
    end in
  let added := SimpleGit.add git calls files in
  let calls := calls ++ [SimpleGit.Add files added] in
  match added with
  | Some e => (Throw ("Failed to commit: " ++ e)%string, calls)
  | None =>
      let status := SimpleGit.status git calls in
      let calls := calls ++ [SimpleGit.Status status] in
      match status with
      | inl e => (Throw ("Failed to commit: " ++ e)%string, calls)
      | inr staged =>
          if Nat.eqb (List.length staged) 0 then (Normal tt, calls)
          else
            let committed := SimpleGit.commit git calls message in
            let calls := calls ++ [SimpleGit.Commit message committed] in
            match committed with
            | Some e => (Throw ("Failed to commit: " ++ e)%string, calls)
            | None => (Normal tt, calls)
            end
      end
  end.

(** [branch || this.settings.branch]. *)
Definition targetBranch (g : t) (given : option string) : string :=
  match given with
  | Some b => if truthy b then b else branch (settings g)
  | None => branch (settings g)
  end.

(** [remote] with its default. *)
Definition remoteName (given : option string) : string :=
  match given with
  | Some r => r
  | None => "origin"
  end.

(** [text.includes(search)]. *)
Definition includes (text search : string) : bool :=
  match Utils.find search text with
  | Some _ => true
  | None => false
  end.

Definition push (g : t) (remote onBranch : option string) : G unit :=
  fun calls =>
  let pushed :=
    SimpleGit.push git calls (remoteName remote) (targetBranch g onBranch) in
  let calls :=
    calls
    ++ [SimpleGit.Push (remoteName remote) (targetBranch g onBranch) pushed] in
  match pushed with
  | None => (Normal tt, calls)
  | Some e =>
      if includes e "upstream" then
        let args := ["-u"; remoteName remote; targetBranch g onBranch] in
        let again := SimpleGit.pushWith git calls args in
        let calls := calls ++ [SimpleGit.PushWith args again] in
        match again with
        | None => (Normal tt, calls)
        | Some e' => (Throw e', calls)
        end
      else (Throw ("Failed to push: " ++ e)%string, calls)
  end.

Definition pull (g : t) (remote onBranch : option string) : G unit :=
  fun calls =>
  let pulled :=
    SimpleGit.pull git calls (remoteName remote) (targetBranch g onBranch) in
  let calls :=
    calls
    ++ [SimpleGit.Pull (remoteName remote) (targetBranch g onBranch) pulled] in
  match pulled with
  | None => (Normal tt, calls)
  | Some e => (Throw ("Failed to pull: " ++ e)%string, calls)
  end.

End WithSimpleGit.

End GitService.

(* ================================================================== *)
(** * file-watcher.ts *)
(* ================================================================== *)

Module FileWatcher.

(** ** The regular expressions that [matchesPattern] builds

    [new RegExp] is the host's.  Its syntax is modelled for the fragment
    below, which holds every expression that a pattern made of ordinary
    characters, dots, stars and question marks is turned into: a sequence
    of atoms (any character, or one given character), each taken once,
    or repeated with a star or a plus, between the two anchors.  [compile]
    gives [None] for a source outside the fragment (groups, classes,
    alternatives, braces, other escapes, a source that does not compile). *)
Inductive Atom : Type := AnyChar | Lit (c : ascii).
Inductive Quantifier : Type := Once | Star | Plus.
Definition Regex : Type := list (Atom * Quantifier).

(** The syntax characters of a pattern. *)
Definition syntax_chars : list ascii :=
  ["^"; "$"; "\"; "."; "*"; "+"; "?"; "("; ")"; "["; "]"; "{"; "}"; "|";
   "/"]%char.

Definition is_syntax_char (c : ascii) : bool :=
  existsb (Ascii.eqb c) syntax_chars.

(** The characters that are not an atom by themselves. *)
Definition is_meta_char (c : ascii) : bool :=
  is_syntax_char c && negb (Ascii.eqb c "/") && negb (Ascii.eqb c ".").

(** The body and the closing anchor.  After an atom, a star or a plus is
    its quantifier. *)
Fixpoint parse (s : string) : option Regex :=
  match s with
  | EmptyString => None
  | String c rest =>
      if Ascii.eqb c "$" then
        match rest with EmptyString => Some [] | String _ _ => None end
      else if Ascii.eqb c "\" then
        match rest with
        | EmptyString => None
        | String e rest' =>
            if is_syntax_char e then
              match rest' with
              | String q rest'' =>
                  if Ascii.eqb q "*" then
                    option_map (cons (Lit e, Star)) (parse rest'')
                  else if Ascii.eqb q "+" then
                    option_map (cons (Lit e, Plus)) (parse rest'')
                  else option_map (cons (Lit e, Once)) (parse rest')
              | EmptyString => option_map (cons (Lit e, Once)) (parse rest')
              end
            else None
        end
      else if is_meta_char c then None
      else
        let a := if Ascii.eqb c "." then AnyChar else Lit c in
        match rest with
        | String q rest' =>
            if Ascii.eqb q "*" then
              option_map (cons (a, Star)) (parse rest')
            else if Ascii.eqb q "+" then
              option_map (cons (a, Plus)) (parse rest')
            else option_map (cons (a, Once)) (parse rest)
        | EmptyString => option_map (cons (a, Once)) (parse rest)
        end
  end.

Definition compile (source : string) : option Regex :=
  match source with
  | String c body => if Ascii.eqb c "^" then parse body else None
  | EmptyString => None
  end.

(** Without the [s] flag the dot matches no line terminator. *)
Definition is_line_terminator (c : ascii) : bool :=
  Nat.eqb (nat_of_ascii c) 10 || Nat.eqb (nat_of_ascii c) 13.

Definition atom_ok (a : Atom) (c : ascii) : bool :=
  match a with
  | AnyChar => negb (is_line_terminator c)
  | Lit d => Ascii.eqb d c
  end.

(** [regex.test(s)] for an expression between the two anchors: the whole
    of [s] is matched. *)
Fixpoint test (r : Regex) : string -> bool :=
  match r with
  | [] => fun s => match s with EmptyString => true | _ => false end
  | (a, q) :: r' =>
      let rest := test r' in
      let star :=
        fix star (s : string) : bool :=
          rest s ||
          match s with
          | String c s' => atom_ok a c && star s'
          | EmptyString => false
          end in
      match q with
      | Once => fun s =>
          match s with
          | String c s' => atom_ok a c && rest s'
          | EmptyString => false
          end
      | Star => star
      | Plus => fun s =>
          match s with
          | String c s' => atom_ok a c && star s'
          | EmptyString => false
          end
      end
  end.

(** [s.replace(/c/g, by)] for a replacement without dollar signs. *)
Fixpoint replace_all (c : ascii) (by_ : string) (s : string) : string :=
  match s with
  | EmptyString => EmptyString
  | String d s' =>
      if Ascii.eqb d c then (by_ ++ replace_all c by_ s')%string
      else String d (replace_all c by_ s')
  end.

Definition regexPattern (pattern : string) : string :=
  replace_all "?" "." (replace_all "*" ".*" (replace_all "." "\." pattern)).

(** [None]: the expression is outside the modelled fragment. *)
Definition matchesPattern (filePath pattern : string) : option bool :=
  option_map (fun regex => test regex filePath)
    (compile ("^" ++ regexPattern pattern ++ "$")%string).

(** ** The fixed rules *)

Fixpoint endsWith (suffix s : string) : bool :=
  String.eqb suffix s ||
  match s with
  | EmptyString => false
  | String _ s' => endsWith suffix s'
  end.

(** The six literals of [tempPatterns]: five are anchored at the end only,
    the one for [Thumbs.db] at both ends. *)
Inductive TempPattern : Type :=
| AtEnd (suffix : string)
| Whole (text : string).

Definition tempPatterns : list TempPattern :=
  [AtEnd ".tmp"; AtEnd "~"; AtEnd ".DS_Store"; Whole "Thumbs.db";
   AtEnd ".swp"; AtEnd ".swo"].

Definition temp_test (p : TempPattern) (filePath : string) : bool :=
  match p with
  | AtEnd suffix => endsWith suffix filePath
  | Whole text => String.eqb text filePath
  end.

(** The first loop of [shouldIgnoreFile]. *)
Fixpoint excluded (filePath : string) (patterns : list string)
  : option bool :=
  match patterns with
  | [] => Some false
  | pattern :: rest =>
      match matchesPattern filePath pattern with
      | Some true => Some true
      | Some false => excluded filePath rest
      | None => None
      end
  end.

Definition shouldIgnoreFile (settings : LoomSettings) (file : TFile)
  : option bool :=
  let filePath := path file in
  match excluded filePath (excludePatterns settings) with
  | Some false =>
      Some (String.prefix ".git/" filePath
            || existsb (fun p => temp_test p filePath) tempPatterns)
  | other => other
  end.

(** ** The watcher *)

(** A call of the callback handed to [start]: when, which callback, and
    its two arguments. *)
Record Delivery : Type := mkDelivery {
  at_time : N;
  to : nat;
  file : TFile;
  action : FileChangeAction
}.

Record t : Type := mk {
  settings : LoomSettings;
  isActive : bool;
  callback : option nat;
  eventRefs : list FileChangeAction;
  handleFileChange : Utils.Debounced (TFile * FileChangeAction);
  delivered : list Delivery
}.

Definition constructor (settings : LoomSettings) : t :=
  mk settings false None [] None [].

Definition updateSettings (s : LoomSettings) (fw : t) : t :=
  mk s (isActive fw) (callback fw) (eventRefs fw) (handleFileChange fw)
    (delivered fw).

Definition stop (fw : t) : t :=
  if negb (isActive fw) then fw
  else mk (settings fw) false None [] (handleFileChange fw) (delivered fw).

Definition setupFileEvents (fw : t) : t :=
  mk (settings fw) (isActive fw) (callback fw)
    (eventRefs fw ++ [create; modify; delete; rename])
    (handleFileChange fw) (delivered fw).

Definition start (cb : nat) (fw : t) : t :=
  let fw := if isActive fw then stop fw else fw in
  setupFileEvents
    (mk (settings fw) true (Some cb) (eventRefs fw) (handleFileChange fw)
       (delivered fw)).

(** The fixed delay handed to [debounce]. *)
Definition fixed_delay : N := 500%N.

(** The function that is debounced, run by the timer at time [time].
    When the filter is [None] (an exclusion pattern whose expression is
    outside the modelled fragment: the host would evaluate it, or throw
    from the constructor) the embedding does not tell what the code does;
    the watcher is left as it is there, and every statement about what is
    delivered is made for settings whose filter is [Some]. *)
Definition on_timer (time : N) (file : TFile) (action : FileChangeAction)
  (fw : t) : t :=
  match isActive fw, callback fw, shouldIgnoreFile (settings fw) file with
  | true, Some cb, Some false =>
      mk (settings fw) (isActive fw) (callback fw) (eventRefs fw)
        (handleFileChange fw)
        (delivered fw ++ [mkDelivery time cb file action])
  | _, _, _ => fw
  end.

(** What the vault hands to a listener. *)
Inductive TAbstractFile : Type :=
| IsFile (f : TFile)
| IsFolder (folderPath : string).

Definition action_eqb (a b : FileChangeAction) : bool :=
  match a, b with
  | create, create | modify, modify | delete, delete | rename, rename => true
  | _, _ => false
  end.

(** The vault raises the event [kind] for [f] at time [time]: each
    listener registered for the kind runs. *)
Definition vault_event (time : N) (kind : FileChangeAction)
  (f : TAbstractFile) (fw : t) : t :=
  fold_left
    (fun fw ref =>
       if action_eqb ref kind then
         match f with
         | IsFile file =>
             mk (settings fw) (isActive fw) (callback fw) (eventRefs fw)
               (Utils.debounce_call fixed_delay time (file, kind)
                  (handleFileChange fw))
               (delivered fw)
         | IsFolder _ => fw
         end
       else fw)
    (eventRefs fw) fw.

(** The host's timers at time [time]. *)
Definition tick (time : N) (fw : t) : t :=
  match Utils.debounce_tick time (handleFileChange fw) with
  | (Some (file, action), timeoutId) =>
      on_timer (Utils.due_of timeoutId) file action
        (mk (settings fw) (isActive fw) (callback fw) (eventRefs fw)
           timeoutId (delivered fw))
  | (None, _) => fw
  end.

(** What happens to a watcher, with the time at which it happens. *)
Inductive Input : Type :=
| Vault (kind : FileChangeAction) (f : TAbstractFile)
| Settings (s : LoomSettings)
| Start (cb : nat)
| Stop.

Definition step (fw : t) (i : N * Input) : t :=
  let fw := tick (fst i) fw in
  match snd i with
  | Vault kind f => vault_event (fst i) kind f fw
  | Settings s => updateSettings s fw
  | Start cb => start cb fw
  | Stop => stop fw
  end.

Definition run (inputs : list (N * Input)) (fw : t) : t :=
  fold_left step inputs fw.

(** ** [isWatchingFile] *)

(** [toLowerCase] on one code unit below 256: the capital letters of ASCII
    and of Latin-1 move up by 32. *)
Definition toLowerCase_char (c : ascii) : ascii :=
  let n := nat_of_ascii c in
  if (Nat.leb 65 n && Nat.leb n 90)
     || (Nat.leb 192 n && Nat.leb n 222 && negb (Nat.eqb n 215))
  then ascii_of_nat (n + 32) else c.

Definition toLowerCase (s : string) : string :=
  Utils.map_chars toLowerCase_char s.

Definition getWatchedFileTypes : list string :=
  ["md"; "canvas"; "excalidraw"; "png"; "jpg"; "jpeg"; "gif"; "svg"; "webp";
   "pdf"; "txt"; "json"; "css"; "js"; "ts"].

(** [includes] on an array of strings. *)
Definition includes (l : list string) (x : string) : bool :=
  existsb (String.eqb x) l.

Definition isWatchingFile (settings : LoomSettings) (file : TFile)
  : option bool :=
  match shouldIgnoreFile settings file with
  | Some true => Some false
  | Some false =>
      Some (includes getWatchedFileTypes (toLowerCase (extension file)))
  | None => None
  end.

End FileWatcher.

(* ================================================================== *)
(** * sync-manager.ts *)
(* ================================================================== *)

Module SyncManager.

Record SyncOperation : Type := mkOp {
  file : TFile;
  action : FileChangeAction;
  timestamp : N;
  retries : nat
}.

(** The fields of a [SyncManager], the host's clock [now] (read by
    [new Date()], advanced by [sleep]) and the trace.  A subscriber is
    known by a number. *)
Record t : Type := mk {
  gitService : GitService.t;
  settings : LoomSettings;
  status : SyncStatus;
  lastSyncTime : option N;
  syncQueue : list SyncOperation;
  isProcessingQueue : bool;
  statusCallbacks : list nat;
  now : N;
  trace : list Event
}.

Definition M (A : Type) : Type := t -> Completion A * t.

Definition set_settings (s : LoomSettings) (m : t) : t :=
  mk (gitService m) s (status m) (lastSyncTime m) (syncQueue m)
    (isProcessingQueue m) (statusCallbacks m) (now m) (trace m).
Definition set_status (s : SyncStatus) (m : t) : t :=
  mk (gitService m) (settings m) s (lastSyncTime m) (syncQueue m)
    (isProcessingQueue m) (statusCallbacks m) (now m) (trace m).
Definition set_lastSyncTime (d : option N) (m : t) : t :=
  mk (gitService m) (settings m) (status m) d (syncQueue m)
    (isProcessingQueue m) (statusCallbacks m) (now m) (trace m).
Definition set_syncQueue (q : list SyncOperation) (m : t) : t :=
  mk (gitService m) (settings m) (status m) (lastSyncTime m) q
    (isProcessingQueue m) (statusCallbacks m) (now m) (trace m).
Definition set_isProcessingQueue (b : bool) (m : t) : t :=
  mk (gitService m) (settings m) (status m) (lastSyncTime m) (syncQueue m)
    b (statusCallbacks m) (now m) (trace m).
Definition set_statusCallbacks (l : list nat) (m : t) : t :=
  mk (gitService m) (settings m) (status m) (lastSyncTime m) (syncQueue m)
    (isProcessingQueue m) l (now m) (trace m).
Definition set_trace (tr : list Event) (m : t) : t :=
  mk (gitService m) (settings m) (status m) (lastSyncTime m) (syncQueue m)
    (isProcessingQueue m) (statusCallbacks m) (now m) tr.

Definition emit (e : Event) (m : t) : t := set_trace (trace m ++ [e]) m.

(** [sleep(ms)] from utils.ts: the clock moves on. *)
Definition sleep (ms : N) (m : t) : t :=
  emit (Slept ms)
    (mk (gitService m) (settings m) (status m) (lastSyncTime m)
       (syncQueue m) (isProcessingQueue m) (statusCallbacks m)
       (now m + ms)%N (trace m)).

(** [new Notice(text)] under [if (this.settings.showNotifications)]. *)
Definition notice (text : string) (m : t) : t :=
  if showNotifications (settings m) then emit (Noticed text) m else m.

Definition constructor (gitService : GitService.t) (settings : LoomSettings)
  : t :=
  mk gitService settings idle None [] false [] 0%N [].

Definition updateSettings (s : LoomSettings) (m : t) : t := set_settings s m.

(** The status is assigned first; then [forEach] calls the subscribers in
    the order of the array. *)
Definition updateStatus (s : SyncStatus) (message : string) (m : t) : t :=
  fold_left (fun acc callback =>
               emit (Notified callback s message (status acc)) acc)
    (statusCallbacks m) (set_status s m).

Definition onStatusChange (callback : nat) (m : t) : t :=
  set_statusCallbacks (statusCallbacks m ++ [callback]) m.

(** [indexOf] and [splice(index, 1)]: the first occurrence goes. *)
Fixpoint remove_first (callback : nat) (l : list nat) : list nat :=
  match l with
  | [] => []
  | c :: l' => if Nat.eqb c callback then l' else c :: remove_first callback l'
  end.

Definition removeStatusCallback (callback : nat) (m : t) : t :=
  set_statusCallbacks (remove_first callback (statusCallbacks m)) m.

Definition getStatus (m : t) : SyncStatus := status m.
Definition getLastSyncTime (m : t) : option N := lastSyncTime m.
Definition getQueueLength (m : t) : nat := List.length (syncQueue m).


Definition getActionDisplayName (a : FileChangeAction) : string :=
  match a with
  | create => "Created"
  | modify => "Updated"
  | delete => "Deleted"
  | rename => "Renamed"
  end.

Definition generateCommitMessage (m : t) (operation : SyncOperation)
  : string :=
  let filename := Utils.sanitizeFilename (name (file operation)) in
  let action := getActionDisplayName (action operation) in
  GitService.generateCommitMessage (gitService m) action filename.

(** ** Calls of the Gateway *)
Section WithGateway.
Variable w : Gateway.t.

Definition gitCommit (message : string) (filePaths : option (list string))
  : M unit := fun m =>
  let r := Gateway.commit w (trace m) message filePaths in
  let m' := emit (CallCommit message filePaths r) m in
  match r with
  | None => (Normal tt, m')
  | Some e => (Throw e, m')
  end.

Definition gitPush : M unit := fun m =>
  let r := Gateway.push w (trace m) in
  let m' := emit (CallPush r) m in
  match r with
  | None => (Normal tt, m')
  | Some e => (Throw e, m')
  end.

Definition gitPull : M unit := fun m =>
  let r := Gateway.pull w (trace m) in
  let m' := emit (CallPull r) m in
  match r with
  | None => (Normal tt, m')
  | Some e => (Throw e, m')
  end.

Definition gitGetStatus : M bool := fun m =>
  let r := Gateway.getStatus w (trace m) in
  let m' := emit (CallGetStatus r) m in
  match r with
  | inr clean => (Normal clean, m')
  | inl e => (Throw e, m')
  end.

Definition gitTestConnection (m : t) : bool * t :=
  let (ok, tr) := GitService.testConnection w (gitService m) (trace m) in
  (ok, set_trace tr m).

(** ** [initialize] *)
Definition initialize (m : t) : t :=
  if negb (GitService.isRepositoryInitialized (gitService m)) then
    updateStatus offline "Git repository not initialized" m
  else
    let ready (m : t) :=
      let m := updateStatus idle "Ready to sync" m in
      set_lastSyncTime (Some (now m)) m in
    if truthy (remoteUrl (settings m)) then
      let (connectionOk, m1) := gitTestConnection m in
      if negb connectionOk then
        updateStatus offline "Cannot connect to remote repository" m1
      else ready m1
    else ready m.

(** ** [processSyncOperation] *)
Definition attempt (operation : SyncOperation) : M unit := fun m =>
  let commitMessage := generateCommitMessage m operation in
  match action operation with
  | delete => gitCommit commitMessage None m
  | _ => gitCommit commitMessage (Some [path (file operation)]) m
  end.

Definition processSyncOperation (operation : SyncOperation) : M unit :=
  fun m =>
  match Utils.retry sleep (attempt operation) 2 1000%N m with
  | (Throw e, m1) =>
      let operation' :=
        mkOp (file operation) (action operation) (timestamp operation)
          (S (retries operation)) in
      let m2 :=
        if Nat.ltb (retries operation') 3
        then set_syncQueue (operation' :: syncQueue m1) m1
        else emit (Logged ("Failed to sync " ++ path (file operation)
                           ++ " after 3 retries: " ++ e)%string) m1 in
      (Throw e, m2)
  | done => done
  end.

(** ** [processQueue]

    The [while] loop; [fuel] bounds the number of its iterations. *)
Fixpoint drain (fuel : nat) : M unit := fun m =>
  match syncQueue m with
  | [] => (Normal tt, m)
  | operation :: rest =>
      match fuel with
      | O => (OutOfFuel, m)
      | S fuel' =>
          match processSyncOperation operation (set_syncQueue rest m) with
          | (Normal _, m') => drain fuel' m'
          | stop => stop
          end
      end
  end.

Definition processQueue : M unit := fun m =>
  if isProcessingQueue m || Nat.eqb (List.length (syncQueue m)) 0 then
    (Normal tt, m)
  else
    let m := set_isProcessingQueue true m in
    let m := updateStatus syncing "Processing file changes" m in
    match drain (List.length (syncQueue m)) m with
    | (Normal _, m) =>
        let m :=
          if autoPush (settings m) && truthy (remoteUrl (settings m)) then
            match gitPush m with
            | (Throw e, m') =>
                emit (Logged ("Auto-push failed: " ++ e)%string) m'
            | (_, m') => m'
            end
          else m in
        let m := set_lastSyncTime (Some (now m)) m in
        let m := updateStatus idle "Sync completed" m in
        (Normal tt, set_isProcessingQueue false m)
    | (Throw e, m) =>
        let m := updateStatus error ("Sync failed: " ++ e)%string m in
        let m := notice ("Sync failed: " ++ e)%string m in
        (Normal tt, set_isProcessingQueue false m)
    | (OutOfFuel, m) => (OutOfFuel, m)
    end.

(** ** [handleFileChange] *)
Definition handleFileChange (file : TFile) (action : FileChangeAction)
  : M unit := fun m =>
  match status m with
  | error | offline => (Normal tt, m)
  | _ =>
      let operation := mkOp file action (now m) 0 in
      processQueue (set_syncQueue (syncQueue m ++ [operation]) m)
  end.

(** ** [performManualSync] *)
Definition performManualSync : M unit := fun m =>
  match status m with
  | syncing => (Normal tt, notice "Sync already in progress" m)
  | _ =>
      let failed (e : string) (m : t) :=
        let errorMessage := ("Manual sync failed: " ++ e)%string in
        let m := updateStatus error errorMessage m in
        (Normal tt, notice errorMessage m) in
      let m := updateStatus syncing "Manual sync started" m in
      match gitGetStatus m with
      | (Normal true, m) =>
          let m := notice "No changes to sync" m in
          (Normal tt, updateStatus idle "No changes to sync" m)
      | (Normal false, m) =>
          match gitCommit "Manual sync from Loom" None m with
          | (Normal _, m) =>
              let pushed :=
                if autoPush (settings m) && truthy (remoteUrl (settings m))
                then gitPush m else (Normal tt, m) in
              match pushed with
              | (Normal _, m) =>
                  let m := set_lastSyncTime (Some (now m)) m in
                  let m := notice "Manual sync completed" m in
                  (Normal tt, updateStatus idle "Manual sync completed" m)
              | (Throw e, m) => failed e m
              | (OutOfFuel, m) => (OutOfFuel, m)
              end
          | (Throw e, m) => failed e m
          | (OutOfFuel, m) => (OutOfFuel, m)
          end
      | (Throw e, m) => failed e m
      | (OutOfFuel, m) => (OutOfFuel, m)
      end
  end.

(** ** [pullFromRemote] and [pushToRemote] *)
Definition pullFromRemote : M unit := fun m =>
  if negb (truthy (remoteUrl (settings m))) then
    (Throw "No remote repository configured", m)
  else
    let m := updateStatus syncing "Pulling from remote" m in
    match gitPull m with
    | (Normal _, m) =>
        let m := set_lastSyncTime (Some (now m)) m in
        let m := updateStatus idle "Pull completed" m in
        (Normal tt, notice "Successfully pulled from remote" m)
    | (Throw e, m) =>
        (Throw e, updateStatus error ("Pull failed: " ++ e)%string m)
    | (OutOfFuel, m) => (OutOfFuel, m)
    end.

Definition pushToRemote : M unit := fun m =>
  if negb (truthy (remoteUrl (settings m))) then
    (Throw "No remote repository configured", m)
  else
    let m := updateStatus syncing "Pushing to remote" m in
    match gitPush m with
    | (Normal _, m) =>
        let m := set_lastSyncTime (Some (now m)) m in
        let m := updateStatus idle "Push completed" m in
        (Normal tt, notice "Successfully pushed to remote" m)
    | (Throw e, m) =>
        (Throw e, updateStatus error ("Push failed: " ++ e)%string m)
    | (OutOfFuel, m) => (OutOfFuel, m)
    end.

End WithGateway.

End SyncManager.

(* ================================================================== *)
(** * status-bar.ts *)
(* ================================================================== *)

Module StatusBarManager.

(** The icon of a status is an emoji, which the strings of the embedding
    do not hold: it is kept by name.  (The [default] branch of
    [getStatusDisplay] is out of reach of the four statuses.) *)
Inductive Icon : Type := check_mark | arrows | cross_mark | antenna.

(** The status bar item.  [innerHTML] is the icon, a blank and the text;
    it is empty before the first update. *)
Record HTMLElement : Type := mkElement {
  innerHTML : option (Icon * string);
  title : string;
  className : string
}.

Record t : Type := mk {
  statusBarItem : option HTMLElement;
  currentStatus : SyncStatus;
  currentMessage : string
}.

Definition constructor : t := mk None idle "".

(** [message || fallback]: an absent message and an empty one are falsy. *)
Definition or_else (message : option string) (fallback : string) : string :=
  match message with
  | Some text => if truthy text then text else fallback
  | None => fallback
  end.

(** The icon, the text and the title. *)
Definition getStatusDisplay (status : SyncStatus) (message : option string)
  : Icon * string * string :=
  match status with
  | idle =>
      (check_mark, "Synced",
       ("Loom Git Sync: " ++ or_else message "Everything is up to date")%string)
  | syncing =>
      (arrows, "Syncing...",
       ("Loom Git Sync: " ++ or_else message "Synchronizing changes")%string)
  | error =>
      (cross_mark, "Error",
       ("Loom Git Sync: " ++ or_else message "Sync error occurred")%string)
  | offline =>
      (antenna, "Offline",
       ("Loom Git Sync: "
        ++ or_else message "No remote configured or connection failed")%string)
  end.

(** The string that a status is. *)
Definition status_name (status : SyncStatus) : string :=
  match status with
  | idle => "idle"
  | syncing => "syncing"
  | error => "error"
  | offline => "offline"
  end.

(** [className.replace(/status-(idle|syncing|error|offline)/g, '')].  The
    text is read from left to right; where one of the four alternatives
    begins, it is left out and reading goes on after it.  [skip] counts the
    characters of a match that are still to be left out. *)
Definition alternatives : list string :=
  ["status-idle"; "status-syncing"; "status-error"; "status-offline"].

Fixpoint match_length (candidates : list string) (s : string) : option nat :=
  match candidates with
  | [] => None
  | candidate :: candidates' =>
      if String.prefix candidate s then Some (String.length candidate)
      else match_length candidates' s
  end.

Fixpoint remove_matches (skip : nat) (s : string) : string :=
  match s with
  | EmptyString => EmptyString
  | String c s' =>
      match skip with
      | S skip' => remove_matches skip' s'
      | O =>
          match match_length alternatives s with
          | Some (S skip') => remove_matches skip' s'
          | _ => String c (remove_matches 0 s')
          end
      end
  end.

Definition updateStatus (status : SyncStatus) (message : option string)
  (sb : t) : t :=
  match statusBarItem sb with
  | None => sb
  | Some item =>
      let '(icon, text, title) := getStatusDisplay status message in
      mk (Some (mkElement (Some (icon, text)) title
                  (remove_matches 0 (className item)
                   ++ " status-" ++ status_name status)%string))
        status (or_else message "")
  end.

Definition updateAutoSyncStatus (enabled : bool) (sb : t) : t :=
  if enabled
     && match currentStatus sb with idle => true | _ => false end then
    updateStatus idle (Some "Auto-sync enabled") sb
  else if negb enabled then
    updateStatus offline (Some "Auto-sync disabled") sb
  else sb.

(** The arrow function that [initialize] registers with the manager. *)
Definition subscriber : nat := 0.

(** [item] is the element that [addStatusBarItem()] gives, with the class
    [loom-status-bar] added; [m] is [this.plugin.syncManager]. *)
Definition initialize (item : HTMLElement) (m : option SyncManager.t)
  (sb : t) : t * option SyncManager.t :=
  let sb :=
    updateStatus idle (Some "Ready")
      (mk (Some item) (currentStatus sb) (currentMessage sb)) in
  (sb, option_map (SyncManager.onStatusChange subscriber) m).

Definition cleanup (sb : t) : t :=
  mk None (currentStatus sb) (currentMessage sb).

(** A subscriber call of the manager reaches the arrow function. *)
Definition on_status (e : Event) (sb : t) : t :=
  match e with
  | Notified callback status message _ =>
      if Nat.eqb callback subscriber then updateStatus status (Some message) sb
      else sb
  | _ => sb
  end.

Definition follow (events : list Event) (sb : t) : t :=
  fold_left (fun sb e => on_status e sb) events sb.

End StatusBarManager.

(* ================================================================== *)
(** * main.ts *)
(* ================================================================== *)

Module Plugin.

(** The settings object and the services that [onload] builds.  The
    manager holds the [GitService] of the plugin. *)
Record t : Type := mk {
  settings : LoomSettings;
  fileWatcher : FileWatcher.t;
  syncManager : SyncManager.t;
  statusBarManager : StatusBarManager.t
}.

Definition with_fileWatcher (fw : FileWatcher.t) (p : t) : t :=
  mk (settings p) fw (syncManager p) (statusBarManager p).

(** The manager has gone on from that of [p] to [m]: the subscriber calls
    that it made meanwhile have reached the status bar. *)
Definition with_manager (m : SyncManager.t) (p : t) : t :=
  mk (settings p) (fileWatcher p) m
    (StatusBarManager.follow
       (skipn (List.length (SyncManager.trace (syncManager p)))
          (SyncManager.trace m))
       (statusBarManager p)).

(** The arrow function that [startFileWatching] hands to [start]. *)
Definition on_change : nat := 0.

(** [new Notice(text)]. *)
Definition notice (text : string) (p : t) : t :=
  mk (settings p) (fileWatcher p)
    (SyncManager.emit (Noticed text) (syncManager p)) (statusBarManager p).

Definition startFileWatching (p : t) : t :=
  if negb (GitService.isRepositoryInitialized
             (SyncManager.gitService (syncManager p)))
  then notice "Please initialize Git repository first" p
  else with_fileWatcher (FileWatcher.start on_change (fileWatcher p)) p.

(** The three services are handed the settings object. *)
Definition saveSettings (p : t) : t :=
  let m := syncManager p in
  mk (settings p) (FileWatcher.updateSettings (settings p) (fileWatcher p))
    (SyncManager.updateSettings (settings p)
       (SyncManager.mk
          (GitService.updateSettings (settings p) (SyncManager.gitService m))
          (SyncManager.settings m) (SyncManager.status m)
          (SyncManager.lastSyncTime m) (SyncManager.syncQueue m)
          (SyncManager.isProcessingQueue m) (SyncManager.statusCallbacks m)
          (SyncManager.now m) (SyncManager.trace m)))
    (statusBarManager p).

Definition setupStatusBar (item : StatusBarManager.HTMLElement) (p : t) : t :=
  match StatusBarManager.initialize item (Some (syncManager p))
          (statusBarManager p) with
  | (sb, Some m) => mk (settings p) (fileWatcher p) m sb
  | (sb, None) => mk (settings p) (fileWatcher p) (syncManager p) sb
  end.

(** The host's clock has reached [time]. *)
Definition at_clock (time : N) (m : SyncManager.t) : SyncManager.t :=
  SyncManager.mk (SyncManager.gitService m) (SyncManager.settings m)
    (SyncManager.status m) (SyncManager.lastSyncTime m)
    (SyncManager.syncQueue m) (SyncManager.isProcessingQueue m)
    (SyncManager.statusCallbacks m) (N.max (SyncManager.now m) time)
    (SyncManager.trace m).

Definition with_statusBarManager (sb : StatusBarManager.t) (p : t) : t :=
  mk (settings p) (fileWatcher p) (syncManager p) sb.

(** A call of the [GitService] that does not go through the manager. *)
Definition directly (call : SyncManager.M unit) (p : t)
  : Completion unit * t :=
  let (r, m) := call (syncManager p) in
  (r, mk (settings p) (fileWatcher p) m (statusBarManager p)).

Section WithGateway.
Variable w : Gateway.t.

(** A call of the arrow function: [handleFileChange] of the manager, whose
    promise is dropped.  The call is taken to run to its end before the next
    timer of the host fires. *)
Definition call_back (d : FileWatcher.Delivery) (p : t) : t :=
  if Nat.eqb (FileWatcher.to d) on_change then
    with_manager
      (snd (SyncManager.handleFileChange w (FileWatcher.file d)
              (FileWatcher.action d)
              (at_clock (FileWatcher.at_time d) (syncManager p))))
      p
  else p.

(** The calls that the watcher has made since it was [before] reach the
    manager in their order. *)
Definition deliver (before : FileWatcher.t) (p : t) : t :=
  fold_left (fun p d => call_back d p)
    (skipn (List.length (FileWatcher.delivered before))
       (FileWatcher.delivered (fileWatcher p)))
    p.

Definition step (p : t) (i : N * FileWatcher.Input) : t :=
  deliver (fileWatcher p)
    (with_fileWatcher (FileWatcher.step (fileWatcher p) i) p).

Definition tick (time : N) (p : t) : t :=
  deliver (fileWatcher p)
    (with_fileWatcher (FileWatcher.tick time (fileWatcher p)) p).

Definition run (inputs : list (N * FileWatcher.Input)) (p : t) : t :=
  fold_left step inputs p.

(** ** The commands *)

(** Manual sync now. *)
Definition manual_sync (p : t) : t :=
  with_manager (snd (SyncManager.performManualSync w (syncManager p))) p.

(** Push to remote, and pull from remote: the command calls the
    [GitService] itself, with [directly], and writes to the status bar
    itself. *)
Definition push_to_remote (p : t) : t :=
  let p :=
    with_statusBarManager
      (StatusBarManager.updateStatus syncing (Some "Pushing to remote...")
         (statusBarManager p)) p in
  match directly (SyncManager.gitPush w) p with
  | (Throw e, p) =>
      let p := notice ("Failed to push: " ++ e)%string p in
      with_statusBarManager
        (StatusBarManager.updateStatus error (Some e) (statusBarManager p)) p
  | (_, p) =>
      let p := notice "Successfully pushed to remote" p in
      with_statusBarManager
        (StatusBarManager.updateStatus idle (Some "Pushed to remote")
           (statusBarManager p)) p
  end.

Definition pull_from_remote (p : t) : t :=
  let p :=
    with_statusBarManager
      (StatusBarManager.updateStatus syncing (Some "Pulling from remote...")
         (statusBarManager p)) p in
  match directly (SyncManager.gitPull w) p with
  | (Throw e, p) =>
      let p := notice ("Failed to pull: " ++ e)%string p in
      with_statusBarManager
        (StatusBarManager.updateStatus error (Some e) (statusBarManager p)) p
  | (_, p) =>
      let p := notice "Successfully pulled from remote" p in
      with_statusBarManager
        (StatusBarManager.updateStatus idle (Some "Pulled from remote")
           (statusBarManager p)) p
  end.

End WithGateway.

(** Toggle auto-sync. *)
Definition toggle_auto_sync (p : t) : t :=
  let p :=
    mk (with_autoSync (negb (autoSync (settings p))) (settings p))
      (fileWatcher p) (syncManager p) (statusBarManager p) in
  let p := saveSettings p in
  let p :=
    if autoSync (settings p) then
      notice "Auto-sync enabled" (startFileWatching p)
    else
      notice "Auto-sync disabled"
        (with_fileWatcher (FileWatcher.stop (fileWatcher p)) p) in
  with_statusBarManager
    (StatusBarManager.updateAutoSyncStatus (autoSync (settings p))
       (statusBarManager p)) p.

(** [onload] as the entry file that is kept with settings.ts has it, with
    the settings that [loadSettings] gives, the path that [getVaultPath]
    gives and the status bar item of the host.  The settings tab, the view
    and the commands are registered with the host; [initialize] throws
    nothing, so that the [catch] around it is never entered.  (In the other
    copy of the entry file the class overrides [addSettingTab] with a
    method that calls itself, and its [onload] does not get past that
    call.) *)
Definition onload (w : Gateway.t) (loaded : LoomSettings) (vaultPath : string)
  (item : StatusBarManager.HTMLElement) : t :=
  let gitService := GitService.mk vaultPath loaded in
  let p :=
    mk loaded (FileWatcher.constructor loaded)
      (SyncManager.constructor gitService loaded)
      StatusBarManager.constructor in
  let p :=
    mk (settings p) (fileWatcher p)
      (SyncManager.initialize w (syncManager p)) (statusBarManager p) in
  let p := setupStatusBar item p in
  if autoSync (settings p) then startFileWatching p else p.

End Plugin.

(* ================================================================== *)
(** * Properties *)
(* ================================================================== *)

Import SyncManager.

Arguments updateStatus : simpl never.

(** The subscriber calls of one announcement: one for each entry of the
    subscriber array, in its order, each made while the status already is
    the announced one. *)
Definition announce (s : SyncStatus) (message : string) (callbacks : list nat)
  : list Event :=
  map (fun callback => Notified callback s message s) callbacks.

(** The notice of [notice], or nothing. *)
Definition noticed (settings : LoomSettings) (text : string) : list Event :=
  if showNotifications settings then [Noticed text] else [].

(** The number of calls of the Gateway's [commit] in a trace. *)
Fixpoint commit_calls (tr : list Event) : nat :=
  match tr with
  | [] => 0
  | CallCommit _ _ _ :: tr' => S (commit_calls tr')
  | _ :: tr' => commit_calls tr'
  end.

(** What an operation hands to [commit] as [filePaths]: nothing for a
    deletion (the whole tree is staged), the path of its file otherwise. *)
Definition staged (operation : SyncOperation) : option (list string) :=
  match action operation with
  | delete => None
  | _ => Some [path (file operation)]
  end.

(** The operation as [processSyncOperation] leaves it after a failure. *)
Definition retried (operation : SyncOperation) : SyncOperation :=
  mkOp (file operation) (action operation) (timestamp operation)
    (S (retries operation)).

(** The Gateway refuses every commit with this message. *)
Definition refuses (w : Gateway.t) (message : string) : Prop :=
  forall tr filePaths, Gateway.commit w tr message filePaths <> None.

(** The Gateway refuses every commit. *)
Definition fails_persistently (w : Gateway.t) : Prop :=
  forall message, refuses w message.

(** The queue after a pass in which the head operation failed. *)
Definition requeued (operation : SyncOperation) (rest : list SyncOperation)
  : list SyncOperation :=
  if Nat.ltb (retries (retried operation)) 3
  then retried operation :: rest else rest.

(** The trace of a pass in which the three attempts on the head operation
    threw [e1], [e2] and [e3]. *)
Definition failed_pass_trace (m : t) (operation : SyncOperation)
  (e1 e2 e3 : string) : list Event :=
  let message := generateCommitMessage m operation in
  announce syncing "Processing file changes" (statusCallbacks m)
  ++ [CallCommit message (staged operation) (Some e1); Slept 1000%N;
      CallCommit message (staged operation) (Some e2); Slept 2000%N;
      CallCommit message (staged operation) (Some e3)]
  ++ (if Nat.ltb (retries (retried operation)) 3 then []
      else [Logged ("Failed to sync " ++ path (file operation)
                    ++ " after 3 retries: " ++ e3)%string])
  ++ announce error ("Sync failed: " ++ e3)%string (statusCallbacks m)
  ++ noticed (settings m) ("Sync failed: " ++ e3)%string.

(** The messages of the calls of the Gateway's [commit] in a trace. *)
Fixpoint commit_messages (tr : list Event) : list string :=
  match tr with
  | [] => []
  | CallCommit message _ _ :: tr' => message :: commit_messages tr'
  | _ :: tr' => commit_messages tr'
  end.

(** ** Sample worlds *)

Module Sample.

Definition note_a : TFile := mkFile "a.md" "a.md" "md".
Definition note_b : TFile := mkFile "b.md" "b.md" "md".
Definition note_c : TFile := mkFile "c.md" "c.md" "md".

Definition remote_settings : LoomSettings :=
  with_remoteUrl "https://example.org/vault.git" DEFAULT_SETTINGS.

(** Every call of the tool succeeds; the tree is dirty. *)
Definition healthy : Gateway.t :=
  Gateway.mk (fun _ _ _ => None) (fun _ => None) (fun _ => None)
    (fun _ => inr false) (fun _ _ => true) true.

(** Every commit is refused; the remote is fine. *)
Definition stubborn : Gateway.t :=
  Gateway.mk (fun _ _ _ => Some "Failed to commit: rejected")
    (fun _ => None) (fun _ => None) (fun _ => inr false)
    (fun _ _ => true) true.

(** The commits with one message are refused, the others succeed. *)
Definition picky (refused : string) : Gateway.t :=
  Gateway.mk
    (fun _ message _ =>
       if String.eqb message refused
       then Some "Failed to commit: rejected" else None)
    (fun _ => None) (fun _ => None) (fun _ => inr false)
    (fun _ _ => true) true.

(** The remote does not answer. *)
Definition unreachable : Gateway.t :=
  Gateway.mk (fun _ _ _ => None)
    (fun _ => Some "Failed to push: no route to host")
    (fun _ => Some "Failed to pull: no route to host")
    (fun _ => inr false) (fun _ _ => false) true.

(** The vault holds no repository. *)
Definition no_repository : Gateway.t :=
  Gateway.mk (fun _ _ _ => Some "Failed to commit: not a git repository")
    (fun _ => Some "Failed to push: not a git repository")
    (fun _ => Some "Failed to pull: not a git repository")
    (fun _ => inl "Failed to get status: not a git repository")
    (fun _ _ => true) false.

(** A manager just built, with the two subscribers 1 and 2. *)
Definition manager (s : LoomSettings) : t :=
  onStatusChange 2
    (onStatusChange 1 (constructor (GitService.mk "/vault" s) s)).

Definition in_status (s : SyncStatus) (m : t) : t := set_status s m.

(** The operation that [handleFileChange] builds at time 0. *)
Definition operation_a : SyncOperation := mkOp note_a create 0%N 0.

(** A burst on [a.md], a push by hand, a change of [b.md], another push
    by hand and a change of [c.md]. *)
Definition after_first_pass (w : Gateway.t) : t :=
  snd (handleFileChange w note_a create (manager remote_settings)).
Definition after_second_pass (w : Gateway.t) : t :=
  snd (handleFileChange w note_b modify
         (snd (pushToRemote w (after_first_pass w)))).
Definition after_third_pass (w : Gateway.t) : t :=
  snd (handleFileChange w note_c modify
         (snd (pushToRemote w (after_second_pass w)))).

(** A watcher started with callback 7. *)
Definition watcher (s : LoomSettings) : FileWatcher.t :=
  FileWatcher.start 7 (FileWatcher.constructor s).

Definition slow_settings : LoomSettings :=
  with_debounceDelay 2000%N DEFAULT_SETTINGS.

(** The one pattern [a+b.md]. *)
Definition plus_settings : LoomSettings :=
  with_excludePatterns ["a+b.md"] DEFAULT_SETTINGS.

(** Files with a plus and with dollar signs in their names. *)
Definition plus_file : TFile := mkFile "a+b.md" "a+b.md" "md".
Definition aab_file : TFile := mkFile "aab.md" "aab.md" "md".
Definition dollars_file : TFile := mkFile "a$$b.md" "a$$b.md" "md".
Definition backtick_file : TFile :=
  mkFile (String "$" (String Utils.backtick "x.md"))
    (String "$" (String Utils.backtick "x.md")) "md".

End Sample.

(** The statuses that subscriber [callback] was told, in order. *)
Fixpoint told (callback : nat) (tr : list Event) : list SyncStatus :=
  match tr with
  | [] => []
  | Notified cb s _ _ :: tr' =>
      if Nat.eqb cb callback then s :: told callback tr'
      else told callback tr'
  | _ :: tr' => told callback tr'
  end.

Definition status_eqb (a b : SyncStatus) : bool :=
  match a, b with
  | idle, idle | syncing, syncing | error, error | offline, offline => true
  | _, _ => false
  end.

(** A subscriber call is fresh when the status the subscriber can read
    during the call is the one it is being told. *)
Definition fresh (e : Event) : bool :=
  match e with
  | Notified _ s _ current => status_eqb s current
  | _ => true
  end.

(** [announced m m']: going from [m] to [m'] the manager kept its
    subscribers, every subscriber call it made was fresh, and the last
    status it told each subscriber is the status it ends in (it told
    nothing only if the status is what it was). *)
Definition announced (m m' : t) : Prop :=
  statusCallbacks m' = statusCallbacks m
  /\ exists new,
       trace m' = trace m ++ new
       /\ forallb fresh new = true
       /\ forall callback, In callback (statusCallbacks m) ->
            last (told callback new) (status m) = status m'.

(** ** The filter, in the words of the specification *)

(** A glob pattern matches the whole of a path: a star stands for any run
    of characters, a question mark for any one character, and every other
    character, the dot among them, for itself. *)
Fixpoint glob_match (pattern : string) : string -> bool :=
  match pattern with
  | EmptyString =>
      fun s => match s with EmptyString => true | String _ _ => false end
  | String c pattern' =>
      let rest := glob_match pattern' in
      if Ascii.eqb c "*" then
        fix star (s : string) : bool :=
          rest s ||
          match s with
          | String _ s' => star s'
          | EmptyString => false
          end
      else if Ascii.eqb c "?" then
        fun s => match s with String _ s' => rest s' | EmptyString => false end
      else
        fun s =>
          match s with
          | String d s' => Ascii.eqb c d && rest s'
          | EmptyString => false
          end
  end.

(** The rules that do not depend on the settings: the metadata directory
    of the version-control tool and the transient files. *)
Definition fixed_rule (filePath : string) : bool :=
  String.prefix ".git/" filePath
  || existsb (fun p => FileWatcher.temp_test p filePath)
       FileWatcher.tempPatterns.

(** The path is rejected when a pattern matches it or a fixed rule does. *)
Definition rejected (patterns : list string) (filePath : string) : bool :=
  existsb (fun pattern => glob_match pattern filePath) patterns
  || fixed_rule filePath.

(** The characters that mean something to a regular expression and nothing
    to a glob pattern. *)
Definition regex_only_chars : list ascii :=
  ["^"; "$"; "\"; "+"; "("; ")"; "["; "]"; "{"; "}"; "|"]%char.

Definition regex_only (c : ascii) : bool :=
  existsb (Ascii.eqb c) regex_only_chars.

Fixpoint all_chars (ok : ascii -> bool) (s : string) : bool :=
  match s with
  | EmptyString => true
  | String c s' => ok c && all_chars ok s'
  end.

(** A pattern without such characters, and a path on one line. *)
Definition plain_glob (pattern : string) : bool :=
  all_chars (fun c => negb (regex_only c)) pattern.

Definition one_line (filePath : string) : bool :=
  all_chars (fun c => negb (FileWatcher.is_line_terminator c)) filePath.

(** The expression that a plain glob pattern stands for. *)
Fixpoint glob_regex (pattern : string) : FileWatcher.Regex :=
  match pattern with
  | EmptyString => []
  | String c pattern' =>
      (if Ascii.eqb c "*" then (FileWatcher.AnyChar, FileWatcher.Star)
       else if Ascii.eqb c "?" then (FileWatcher.AnyChar, FileWatcher.Once)
       else (FileWatcher.Lit c, FileWatcher.Once))
      :: glob_regex pattern'
  end.

(** ** The commit message, in the words of the specification *)

(** The template with the first occurrence of a placeholder replaced by a
    text, the text being taken as it is. *)
Definition fill (template placeholder text : string) : string :=
  match Utils.find placeholder template with
  | None => template
  | Some i =>
      (Utils.take i template ++ text
       ++ Utils.drop (i + String.length placeholder) template)%string
  end.

Definition expected_message (template : string) (operation : SyncOperation)
  : string :=
  fill (fill template "{action}" (getActionDisplayName (action operation)))
    "{filename}" (Utils.sanitizeFilename (name (file operation))).

Definition no_dollar (s : string) : bool :=
  all_chars (fun c => negb (Ascii.eqb c "$")) s.

(** ** Bursts of vault events *)

(** A vault event on a file: when it arrives, its kind and the file. *)
Definition Arrival : Type := (N * (FileChangeAction * TFile))%type.

Definition arrival_time (e : Arrival) : N := fst e.
Definition arrival_kind (e : Arrival) : FileChangeAction := fst (snd e).
Definition arrival_file (e : Arrival) : TFile := snd (snd e).




(** The watcher has been started with callback [cb]. *)
Definition watching (cb : nat) (fw : FileWatcher.t) : Prop :=
  FileWatcher.isActive fw = true
  /\ FileWatcher.callback fw = Some cb
  /\ FileWatcher.eventRefs fw = [create; modify; delete; rename].

(** No timer of the watcher is waiting to fire. *)
Definition at_rest (fw : FileWatcher.t) : Prop :=
  match FileWatcher.handleFileChange fw with
  | Some timer => Utils.fired timer = true
  | None => True
  end.

(** The timer of a watcher does not fire at [time]. *)
Definition not_due (time : N) (fw : FileWatcher.t) : Prop :=
  match FileWatcher.handleFileChange fw with
  | Some timer => Utils.fired timer = true \/ (time < Utils.due timer)%N
  | None => True
  end.

(** The watcher with another timer. *)
Definition with_timer
  (timer : Utils.Debounced (TFile * FileChangeAction)) (fw : FileWatcher.t)
  : FileWatcher.t :=
  FileWatcher.mk (FileWatcher.settings fw) (FileWatcher.isActive fw)
    (FileWatcher.callback fw) (FileWatcher.eventRefs fw) timer
    (FileWatcher.delivered fw).




(** ** Passes of the queue that succeed *)

(** The Gateway accepts every commit. *)
Definition accepts (w : Gateway.t) : Prop :=
  forall tr message filePaths, Gateway.commit w tr message filePaths = None.

(** The calls of [commit] of a pass in which every operation of the queue
    goes through at its first attempt. *)
Definition commit_events (m : t) (queue : list SyncOperation) : list Event :=
  map (fun operation =>
         CallCommit (generateCommitMessage m operation) (staged operation) None)
    queue.

(** The push at the end of a pass, and the console warning when it fails. *)
Definition trailing_push (w : Gateway.t) (s : LoomSettings)
  (before : list Event) : list Event :=
  if autoPush s && truthy (remoteUrl s) then
    match Gateway.push w before with
    | None => [CallPush None]
    | Some e => [CallPush (Some e); Logged ("Auto-push failed: " ++ e)%string]
    end
  else [].

(** The number of calls of the Gateway's [push] in a trace. *)
Fixpoint push_calls (tr : list Event) : nat :=
  match tr with
  | [] => 0
  | CallPush _ :: tr' => S (push_calls tr')
  | _ :: tr' => push_calls tr'
  end.

(** A Gateway that refuses a commit as long as fewer than [k] commits have
    been asked of it, and accepts every commit after that. *)
Definition flaky (k : nat) : Gateway.t :=
  Gateway.mk
    (fun tr _ _ =>
       if Nat.ltb (commit_calls tr) k
       then Some "Failed to commit: try again" else None)
    (fun _ => None) (fun _ => None) (fun _ => inr false)
    (fun _ _ => true) true.

(** The calls and sleeps of [RetryHelper.retry] around an operation whose
    commit is refused [failures] times and then accepted; [attempt] is the
    number of the first of these attempts. *)
Fixpoint backoff_trace (message : string) (filePaths : option (list string))
  (attempt failures : nat) : list Event :=
  match failures with
  | O => [CallCommit message filePaths None]
  | S failures' =>
      CallCommit message filePaths (Some "Failed to commit: try again")
      :: Slept (1000 * 2 ^ N.of_nat attempt)%N
      :: backoff_trace message filePaths (S attempt) failures'
  end.

(** The time slept meanwhile. *)
Fixpoint backoff_time (attempt failures : nat) : N :=
  match failures with
  | O => 0%N
  | S failures' =>
      (1000 * 2 ^ N.of_nat attempt + backoff_time (S attempt) failures')%N
  end.

(** Going from [m] to [m'] the queue and the guard were left alone. *)
Definition same_queue (m m' : t) : Prop :=
  syncQueue m' = syncQueue m /\ isProcessingQueue m' = isProcessingQueue m.

(** ** States of the watcher *)

(** The flag, the callback and the listeners of a watcher go together. *)
Definition consistent (fw : FileWatcher.t) : Prop :=
  (FileWatcher.isActive fw = true
   /\ (exists cb, FileWatcher.callback fw = Some cb)
   /\ FileWatcher.eventRefs fw = [create; modify; delete; rename])
  \/ (FileWatcher.isActive fw = false
      /\ FileWatcher.callback fw = None
      /\ FileWatcher.eventRefs fw = []).

(** ** From the vault to the repository *)


(** ** Patterns without wildcards *)

(** A plain glob pattern without a star and without a question mark. *)
Definition literal (pattern : string) : bool :=
  plain_glob pattern
  && all_chars (fun c => negb (Ascii.eqb c "*" || Ascii.eqb c "?")) pattern.

(** ** A run of file changes *)

(** The callback of the watcher is called for each change in turn. *)
Definition handle_all (w : Gateway.t) (changes : list (TFile * FileChangeAction))
  (m : t) : t :=
  fold_left (fun m change => snd (handleFileChange w (fst change) (snd change) m))
    changes m.

(** ** Throttled calls *)

(** The calls of a throttled function at the times [calls], in their
    order: the times at which [func] ran. *)
Fixpoint throttle_run (delay : Z) (calls : list Z) (lastExecution : Z)
  : list Z :=
  match calls with
  | [] => []
  | now :: calls' =>
      match Utils.throttle_call delay now lastExecution with
      | (true, lastExecution') =>
          now :: throttle_run delay calls' lastExecution'
      | (false, lastExecution') => throttle_run delay calls' lastExecution'
      end
  end.

(** Each time is at least [delay] after the one before it. *)
Fixpoint spaced (delay previous : Z) (times : list Z) : Prop :=
  match times with
  | [] => True
  | time :: times' =>
      (time - previous >= delay)%Z /\ spaced delay time times'
  end.

(** ** The shape of a repository address *)

(** A run: one or more word characters, dots and hyphens. *)
Definition is_run (w : string) : bool :=
  match w with
  | EmptyString => false
  | String _ _ => all_chars Utils.in_class w
  end.

(** What a sequence of pieces matches. *)
Fixpoint matches (pattern : list Utils.Piece) (s : string) : Prop :=
  match pattern with
  | [] => s = ""
  | Utils.Text text :: pattern' =>
      exists s', s = (text ++ s')%string /\ matches pattern' s'
  | Utils.Run :: pattern' =>
      exists w s',
        is_run w = true /\ s = (w ++ s')%string /\ matches pattern' s'
  end.

Definition no_slash (s : string) : bool :=
  all_chars (fun c => negb (Ascii.eqb c "/")) s.

(** The two shapes that the two generic expressions accept. *)
Definition https_address (host owner repo : string) : string :=
  "https://" ++ host ++ "/" ++ owner ++ "/" ++ repo ++ ".git".

Definition ssh_address (host owner repo : string) : string :=
  "git@" ++ host ++ ":" ++ owner ++ "/" ++ repo ++ ".git".

(** ** The status bar and the manager *)

(** The icon and the text that the status bar shows for a status. *)
Definition shown (status : SyncStatus)
  : option (StatusBarManager.Icon * string) :=
  Some (fst (StatusBarManager.getStatusDisplay status None)).

(** The status bar has its item and shows status [s]. *)
Definition shows (s : SyncStatus) (sb : StatusBarManager.t) : Prop :=
  StatusBarManager.currentStatus sb = s
  /\ exists item,
       StatusBarManager.statusBarItem sb = Some item
       /\ StatusBarManager.innerHTML item = shown s.

(** The status bar is in step with the manager: it is subscribed to it and
    shows its status. *)
Definition in_step (p : Plugin.t) : Prop :=
  In StatusBarManager.subscriber (statusCallbacks (Plugin.syncManager p))
  /\ shows (status (Plugin.syncManager p)) (Plugin.statusBarManager p).

(** What happens to the plugin: the command for a manual sync, the host's
    timers at some time, and what happens to the watcher. *)
Inductive Happening : Type :=
| ManualSync
| Timers (time : N)
| Watcher (i : N * FileWatcher.Input).

Definition happen (w : Gateway.t) (p : Plugin.t) (h : Happening) : Plugin.t :=
  match h with
  | ManualSync => Plugin.manual_sync w p
  | Timers time => Plugin.tick w time p
  | Watcher i => Plugin.step w p i
  end.

(** What happens is not a command. *)
Definition unattended (h : Happening) : bool :=
  match h with
  | ManualSync => false
  | _ => true
  end.

(** The manager is in status [s], its trace is [tr], and the status bar
    is [sb]. *)
Definition out_of_step (s : SyncStatus) (tr : list Event)
  (sb : StatusBarManager.t) (p : Plugin.t) : Prop :=
  status (Plugin.syncManager p) = s
  /\ trace (Plugin.syncManager p) = tr
  /\ Plugin.statusBarManager p = sb.

(** ** The class of the status bar item *)

Fixpoint blanks (n : nat) : string :=
  match n with
  | O => EmptyString
  | S n' => String " " (blanks n')
  end.

(** None of the four status classes begins anywhere in the text. *)
Fixpoint no_class_in (s : string) : bool :=
  match s with
  | EmptyString => true
  | String _ s' =>
      match StatusBarManager.match_length StatusBarManager.alternatives s with
      | None => no_class_in s'
      | Some _ => false
      end
  end.

(** What follows the classes of the host in the class of the item after
    [n] updates, the last of them to status [s]. *)
Definition class_suffix (n : nat) (s : SyncStatus) : string :=
  match n with
  | O => EmptyString
  | S _ => blanks n ++ "status-" ++ StatusBarManager.status_name s
  end.

(** One call of [updateStatus] after the other. *)
Definition update_all (updates : list (SyncStatus * option string))
  (sb : StatusBarManager.t) : StatusBarManager.t :=
  fold_left (fun sb u => StatusBarManager.updateStatus (fst u) (snd u) sb)
    updates sb.

(** ** A scripted operation under [RetryHelper.retry] *)

(** What the helper does: it runs the operation, and it sleeps. *)
Inductive Attempted : Type :=
| Tried
| Waited (ms : N).


Fixpoint waited (log : list Attempted) : N :=
  match log with
  | [] => 0%N
  | Tried :: log' => waited log'
  | Waited ms :: log' => (ms + waited log')%N
  end.




(** ** The rounds of subscriber calls *)





(** ** The status broadcaster *)

Section Broadcaster.

Lemma fold_emit_notified (s : SyncStatus) (message : string)
  (callbacks : list nat) (m : t) :
  status m = s ->
  fold_left (fun acc callback =>
               emit (Notified callback s message (status acc)) acc)
    callbacks m
  = set_trace (trace m ++ announce s message callbacks) m.
Proof.
  revert m.
  induction callbacks as [|callback callbacks IH]; intros m Hs.
  - cbn. rewrite app_nil_r. now destruct m.
  - cbn [fold_left announce map]. rewrite IH by exact Hs.
    rewrite Hs. unfold emit, set_trace. cbn.
    now rewrite <- app_assoc.
Qed.

Lemma updateStatus_eq (s : SyncStatus) (message : string) (m : t) :
  updateStatus s message m
  = set_trace (trace m ++ announce s message (statusCallbacks m))
      (set_status s m).
Proof.
  unfold updateStatus. now rewrite fold_emit_notified.
Qed.

End Broadcaster.

(** Runs a manager symbolically: announcements are rewritten into their
    trace, the rest is computed. *)
Ltac run_manager :=
  repeat first [rewrite !updateStatus_eq | progress cbn].

(** C9. While the status is [error] or [offline], [handleFileChange] returns
    at once: no operation is enqueued, the queue and its length are what
    they were, and so are the status and everything else. *)
Theorem C9_handleFileChange_dropped_when_sticky
  (w : Gateway.t) (m : t) (file : TFile) (action : FileChangeAction) :
  status m = error \/ status m = offline ->
  handleFileChange w file action m = (Normal tt, m)
  /\ syncQueue (snd (handleFileChange w file action m)) = syncQueue m
  /\ getQueueLength (snd (handleFileChange w file action m))
     = getQueueLength m
  /\ getStatus (snd (handleFileChange w file action m)) = getStatus m.
Proof.
  intros Hsticky.
  assert (Hdrop : handleFileChange w file action m = (Normal tt, m)).
  { unfold handleFileChange. destruct Hsticky as [-> | ->]; reflexivity. }
  rewrite Hdrop. repeat split.
Qed.

Lemma C9_handleFileChange_dropped_when_sticky_witness :
  let m := Sample.in_status error (Sample.manager DEFAULT_SETTINGS) in
  status m = error
  /\ handleFileChange Sample.healthy Sample.note_a modify m = (Normal tt, m).
Proof.
  split; [reflexivity|].
  exact (proj1 (C9_handleFileChange_dropped_when_sticky Sample.healthy
                  (Sample.in_status error (Sample.manager DEFAULT_SETTINGS))
                  Sample.note_a modify (or_introl eq_refl))).
Defined.

(** C5. Without a remote, [pullFromRemote] and [pushToRemote] throw the
    configuration error and leave the manager as it was: the status is not
    touched and no subscriber is called.  With a remote, each announces
    [syncing], calls the Gateway, and then either announces [idle] and
    returns, or announces [error] and throws the Gateway's error again. *)
Theorem C5_pull_push_need_a_remote (w : Gateway.t) (m : t) :
  (truthy (remoteUrl (settings m)) = false ->
   pullFromRemote w m = (Throw "No remote repository configured", m)
   /\ pushToRemote w m = (Throw "No remote repository configured", m))
  /\
  (truthy (remoteUrl (settings m)) = true ->
   let callbacks := statusCallbacks m in
   (forall started,
      started = trace m ++ announce syncing "Pulling from remote" callbacks ->
      match Gateway.pull w started with
      | None =>
          fst (pullFromRemote w m) = Normal tt
          /\ status (snd (pullFromRemote w m)) = idle
          /\ trace (snd (pullFromRemote w m))
             = started ++ [CallPull None]
               ++ announce idle "Pull completed" callbacks
               ++ noticed (settings m) "Successfully pulled from remote"
      | Some e =>
          fst (pullFromRemote w m) = Throw e
          /\ status (snd (pullFromRemote w m)) = error
          /\ trace (snd (pullFromRemote w m))
             = started ++ [CallPull (Some e)]
               ++ announce error ("Pull failed: " ++ e)%string callbacks
      end)
   /\
   (forall started,
      started = trace m ++ announce syncing "Pushing to remote" callbacks ->
      match Gateway.push w started with
      | None =>
          fst (pushToRemote w m) = Normal tt
          /\ status (snd (pushToRemote w m)) = idle
          /\ trace (snd (pushToRemote w m))
             = started ++ [CallPush None]
               ++ announce idle "Push completed" callbacks
               ++ noticed (settings m) "Successfully pushed to remote"
      | Some e =>
          fst (pushToRemote w m) = Throw e
          /\ status (snd (pushToRemote w m)) = error
          /\ trace (snd (pushToRemote w m))
             = started ++ [CallPush (Some e)]
               ++ announce error ("Push failed: " ++ e)%string callbacks
      end)).
Proof.
  split.
  - intros Hno. unfold pullFromRemote, pushToRemote. rewrite Hno. now split.
  - intros Hyes callbacks. subst callbacks.
    split; intros started ->.
    + unfold pullFromRemote, gitPull. rewrite Hyes. run_manager.
      destruct (Gateway.pull w _) as [e|]; run_manager.
      * repeat split. now rewrite <- !app_assoc.
      * unfold notice, noticed. cbn.
        destruct (showNotifications (settings m)); cbn;
          repeat split; now rewrite <- ?app_assoc, ?app_nil_r.
    + unfold pushToRemote, gitPush. rewrite Hyes. run_manager.
      destruct (Gateway.push w _) as [e|]; run_manager.
      * repeat split. now rewrite <- !app_assoc.
      * unfold notice, noticed. cbn.
        destruct (showNotifications (settings m)); cbn;
          repeat split; now rewrite <- ?app_assoc, ?app_nil_r.
Qed.

Lemma C5_pull_push_need_a_remote_witness :
  (let m := Sample.manager DEFAULT_SETTINGS in
   truthy (remoteUrl (settings m)) = false
   /\ pullFromRemote Sample.healthy m
      = (Throw "No remote repository configured", m)
   /\ pushToRemote Sample.healthy m
      = (Throw "No remote repository configured", m))
  /\
  (let m := Sample.manager Sample.remote_settings in
   truthy (remoteUrl (settings m)) = true
   /\ fst (pullFromRemote Sample.healthy m) = Normal tt
   /\ status (snd (pullFromRemote Sample.healthy m)) = idle
   /\ fst (pushToRemote Sample.unreachable m)
      = Throw "Failed to push: no route to host"
   /\ status (snd (pushToRemote Sample.unreachable m)) = error).
Proof.
  split; cbv zeta.
  - split; [reflexivity|].
    exact (proj1 (C5_pull_push_need_a_remote Sample.healthy
                    (Sample.manager DEFAULT_SETTINGS)) eq_refl).
  - split; [reflexivity|].
    pose proof (proj2 (C5_pull_push_need_a_remote Sample.healthy
                         (Sample.manager Sample.remote_settings)) eq_refl)
      as [Hpull _].
    pose proof (proj2 (C5_pull_push_need_a_remote Sample.unreachable
                         (Sample.manager Sample.remote_settings)) eq_refl)
      as [_ Hpush].
    specialize (Hpull _ eq_refl). specialize (Hpush _ eq_refl).
    cbn in Hpull, Hpush.
    destruct Hpull as [Hp1 [Hp2 _]]. destruct Hpush as [Hq1 [Hq2 _]].
    repeat split; assumption.
Defined.

(** ** Every transition is announced *)

Section Announced.

Lemma last_cons_default {A : Type} (a : A) (l : list A) (d d' : A) :
  last (a :: l) d = last (a :: l) d'.
Proof.
  revert a. induction l as [|b l IH]; intros a; [reflexivity|].
  change (last (b :: l) d = last (b :: l) d'). apply IH.
Qed.

Lemma last_app_default {A : Type} (l1 l2 : list A) (d : A) :
  last (l1 ++ l2) d = last l2 (last l1 d).
Proof.
  induction l1 as [|a l1 IH]; [reflexivity|].
  destruct l1 as [|b l1].
  - destruct l2 as [|c l2]; [reflexivity|].
    change (last (c :: l2) d = last (c :: l2) a). apply last_cons_default.
  - change (last ((b :: l1) ++ l2) d = last l2 (last (b :: l1) d)).
    exact IH.
Qed.

Lemma told_app (callback : nat) (tr1 tr2 : list Event) :
  told callback (tr1 ++ tr2) = told callback tr1 ++ told callback tr2.
Proof.
  induction tr1 as [|e tr1 IH]; [reflexivity|].
  destruct e; cbn; try exact IH.
  destruct (Nat.eqb callback0 callback); cbn; now rewrite ?IH.
Qed.

Lemma status_eqb_refl (s : SyncStatus) : status_eqb s s = true.
Proof. now destruct s. Qed.

Lemma fresh_announce (s : SyncStatus) (message : string)
  (callbacks : list nat) :
  forallb fresh (announce s message callbacks) = true.
Proof.
  induction callbacks as [|c callbacks IH]; [reflexivity|].
  cbn. now rewrite status_eqb_refl.
Qed.

Lemma told_announce (s : SyncStatus) (message : string)
  (callbacks : list nat) (callback : nat) (d : SyncStatus) :
  In callback callbacks ->
  last (told callback (announce s message callbacks)) d = s.
Proof.
  intros Hin.
  assert (Hall : forall x, In x (told callback (announce s message callbacks))
                           -> x = s).
  { clear Hin. induction callbacks as [|c callbacks IH]; cbn; [easy|].
    destruct (Nat.eqb c callback); cbn; [|exact IH].
    intros x [<- | Hx]; [reflexivity | now apply IH]. }
  assert (Hne : told callback (announce s message callbacks) <> []).
  { induction callbacks as [|c callbacks IH]; [easy|].
    cbn. destruct (Nat.eqb c callback) eqn:E; [easy|].
    apply IH.
    - destruct Hin as [-> | Hin]; [|exact Hin].
      now rewrite Nat.eqb_refl in E.
    - intros x Hx. apply Hall. cbn. now rewrite E. }
  apply Hall.
  destruct (exists_last Hne) as [l [a ->]].
  rewrite last_last. apply in_or_app. right. now left.
Qed.

Lemma told_announce_count (s : SyncStatus) (message : string)
  (callback : nat) (l : list nat) :
  told callback (announce s message l)
  = repeat s (count_occ Nat.eq_dec l callback).
Proof.
  induction l as [|c l IH]; [reflexivity|].
  cbn [announce map told count_occ].
  destruct (Nat.eq_dec c callback) as [->|Hne].
  - rewrite Nat.eqb_refl. cbn. f_equal. exact IH.
  - apply Nat.eqb_neq in Hne. rewrite Hne. exact IH.
Qed.

Lemma announced_refl (m : t) : announced m m.
Proof.
  split; [reflexivity|]. exists []. rewrite app_nil_r. now repeat split.
Qed.

Lemma announced_trans (m1 m2 m3 : t) :
  announced m1 m2 -> announced m2 m3 -> announced m1 m3.
Proof.
  intros [Hc1 [n1 [Ht1 [Hf1 Hl1]]]] [Hc2 [n2 [Ht2 [Hf2 Hl2]]]].
  split; [congruence|].
  exists (n1 ++ n2). repeat split.
  - now rewrite Ht2, Ht1, app_assoc.
  - rewrite forallb_app. now rewrite Hf1, Hf2.
  - intros callback Hin. rewrite told_app, last_app_default.
    rewrite Hl1 by exact Hin. apply Hl2. now rewrite Hc1.
Qed.

(** A step that leaves status and subscribers alone and adds events that
    are not subscriber calls. *)
Lemma announced_quiet (m m' : t) (new : list Event) :
  statusCallbacks m' = statusCallbacks m ->
  status m' = status m ->
  trace m' = trace m ++ new ->
  (forall callback, told callback new = []) ->
  forallb fresh new = true ->
  announced m m'.
Proof.
  intros Hc Hs Ht Htold Hf. split; [exact Hc|].
  exists new. repeat split; try assumption.
  intros callback _. now rewrite Htold.
Qed.

Lemma announced_updateStatus (s : SyncStatus) (message : string) (m : t) :
  announced m (updateStatus s message m).
Proof.
  rewrite updateStatus_eq. split; [reflexivity|].
  exists (announce s message (statusCallbacks m)). repeat split.
  - apply fresh_announce.
  - intros callback Hin. cbn. now apply told_announce.
Qed.

Lemma announced_emit (e : Event) (m : t) :
  (forall c s msg cur, e <> Notified c s msg cur) ->
  announced m (emit e m).
Proof.
  intros Hne. apply announced_quiet with (new := [e]); try reflexivity.
  - intros callback.
    destruct e as [? ? ?|?|?|?|? ?|?|c s msg cur|?|?]; try reflexivity.
    now elim (Hne c s msg cur).
  - destruct e as [? ? ?|?|?|?|? ?|?|c s msg cur|?|?]; try reflexivity.
    now elim (Hne c s msg cur).
Qed.

End Announced.

Section AnnouncedSteps.

Variable w : Gateway.t.

Lemma announced_set_lastSyncTime (d : option N) (m : t) :
  announced m (set_lastSyncTime d m).
Proof. apply announced_quiet with (new := []); cbn; now rewrite ?app_nil_r. Qed.

Lemma announced_set_syncQueue (q : list SyncOperation) (m : t) :
  announced m (set_syncQueue q m).
Proof. apply announced_quiet with (new := []); cbn; now rewrite ?app_nil_r. Qed.

Lemma announced_set_isProcessingQueue (b : bool) (m : t) :
  announced m (set_isProcessingQueue b m).
Proof. apply announced_quiet with (new := []); cbn; now rewrite ?app_nil_r. Qed.

Lemma announced_sleep (ms : N) (m : t) : announced m (sleep ms m).
Proof. now apply announced_quiet with (new := [Slept ms]). Qed.

Lemma announced_notice (text : string) (m : t) : announced m (notice text m).
Proof.
  unfold notice. destruct (showNotifications (settings m)).
  - now apply announced_emit.
  - apply announced_refl.
Qed.

Lemma announced_gitCommit (message : string) (paths : option (list string))
  (m : t) : announced m (snd (gitCommit w message paths m)).
Proof.
  unfold gitCommit. destruct (Gateway.commit w _ _ _);
    now apply announced_emit.
Qed.

Lemma announced_gitPush (m : t) : announced m (snd (gitPush w m)).
Proof.
  unfold gitPush. destruct (Gateway.push w _); now apply announced_emit.
Qed.


Lemma announced_gitGetStatus (m : t) : announced m (snd (gitGetStatus w m)).
Proof.
  unfold gitGetStatus. destruct (Gateway.getStatus w _);
    now apply announced_emit.
Qed.


Lemma announced_attempt (operation : SyncOperation) (m : t) :
  announced m (snd (attempt w operation m)).
Proof.
  unfold attempt. destruct (action operation); apply announced_gitCommit.
Qed.

Lemma announced_retry_from (operation : SyncOperation)
  (remaining n : nat) (baseDelay : N) (m : t) :
  announced m
    (snd (Utils.retry_from sleep (attempt w operation) remaining n
            baseDelay m)).
Proof.
  revert n m. induction remaining as [|remaining IH]; intros n m; cbn;
    pose proof (announced_attempt operation m) as Ha;
    destruct (attempt w operation m) as [[u|e|] m1]; cbn in *;
    try exact Ha.
  eapply announced_trans; [exact Ha|].
  eapply announced_trans; [apply announced_sleep | apply IH].
Qed.

Lemma announced_processSyncOperation (operation : SyncOperation) (m : t) :
  announced m (snd (processSyncOperation w operation m)).
Proof.
  unfold processSyncOperation, Utils.retry.
  pose proof (announced_retry_from operation 2 0 1000%N m) as Hr.
  destruct (Utils.retry_from _ _ _ _ _ m) as [[u|e|] m1]; cbn in *;
    try exact Hr.
  eapply announced_trans; [exact Hr|].
  match goal with |- context [if ?b then _ else _] => destruct b end.
  - apply announced_set_syncQueue.
  - now apply announced_emit.
Qed.

Lemma announced_drain (fuel : nat) (m : t) :
  announced m (snd (drain w fuel m)).
Proof.
  revert m. induction fuel as [|fuel IH]; intros m; cbn;
    destruct (syncQueue m) as [|operation rest]; cbn;
    try apply announced_refl.
  pose proof (announced_processSyncOperation operation
                (set_syncQueue rest m)) as Hp.
  destruct (processSyncOperation w operation _) as [[u|e|] m1]; cbn in *.
  - eapply announced_trans; [apply announced_set_syncQueue|].
    eapply announced_trans; [exact Hp | apply IH].
  - eapply announced_trans; [apply announced_set_syncQueue | exact Hp].
  - eapply announced_trans; [apply announced_set_syncQueue | exact Hp].
Qed.

End AnnouncedSteps.

(** Chains the lemmas above along a composition of steps. *)
Ltac announced_chain :=
  lazymatch goal with
  | H : announced ?m ?x |- announced ?m ?x => exact H
  | |- announced ?m ?m => apply announced_refl
  | |- announced ?m (updateStatus ?s ?msg ?x) =>
      apply announced_trans with x;
      [announced_chain | apply announced_updateStatus]
  | |- announced ?m (set_lastSyncTime ?d ?x) =>
      apply announced_trans with x;
      [announced_chain | apply announced_set_lastSyncTime]
  | |- announced ?m (set_syncQueue ?q ?x) =>
      apply announced_trans with x;
      [announced_chain | apply announced_set_syncQueue]
  | |- announced ?m (set_isProcessingQueue ?b ?x) =>
      apply announced_trans with x;
      [announced_chain | apply announced_set_isProcessingQueue]
  | |- announced ?m (notice ?text ?x) =>
      apply announced_trans with x;
      [announced_chain | apply announced_notice]
  | |- announced ?m (emit (Logged ?text) ?x) =>
      apply announced_trans with x;
      [announced_chain | now apply announced_emit]
  end.

Section AnnouncedEntryPoints.

Variable w : Gateway.t.

Lemma announced_processQueue (m : t) :
  announced m (snd (processQueue w m)).
Proof.
  unfold processQueue.
  destruct (isProcessingQueue m || _); [apply announced_refl|].
  set (m0 := updateStatus syncing _ _).
  assert (H0 : announced m m0) by (subst m0; announced_chain).
  pose proof (announced_drain w (List.length (syncQueue m0)) m0) as Hd.
  destruct (drain w _ m0) as [[u|e|] m1]; cbn [fst snd] in *.
  - assert (H1 : announced m m1) by (eapply announced_trans; eassumption).
    destruct (autoPush (settings m1) && truthy (remoteUrl (settings m1))).
    + pose proof (announced_gitPush w m1) as Hp.
      destruct (gitPush w m1) as [[u'|e|] m2]; cbn [fst snd] in *;
        assert (H2 : announced m m2)
          by (eapply announced_trans; eassumption);
        announced_chain.
    + announced_chain.
  - assert (H1 : announced m m1) by (eapply announced_trans; eassumption).
    announced_chain.
  - eapply announced_trans; eassumption.
Qed.

Lemma announced_handleFileChange (file : TFile) (action : FileChangeAction)
  (m : t) : announced m (snd (handleFileChange w file action m)).
Proof.
  unfold handleFileChange.
  destruct (status m); try apply announced_refl;
    (eapply announced_trans;
     [apply announced_set_syncQueue | apply announced_processQueue]).
Qed.




Lemma announced_performManualSync (m : t) :
  announced m (snd (performManualSync w m)).
Proof.
  unfold performManualSync.
  assert (Hgo : forall m0, m0 = updateStatus syncing "Manual sync started" m ->
            announced m (snd
              match gitGetStatus w m0 with
              | (Normal true, m) =>
                  let m := notice "No changes to sync" m in
                  (Normal tt, updateStatus idle "No changes to sync" m)
              | (Normal false, m) =>
                  match gitCommit w "Manual sync from Loom" None m with
                  | (Normal _, m) =>
                      match
                        (if autoPush (settings m)
                            && truthy (remoteUrl (settings m))
                         then gitPush w m else (Normal tt, m))
                      with
                      | (Normal _, m) =>
                          let m := set_lastSyncTime (Some (now m)) m in
                          let m := notice "Manual sync completed" m in
                          (Normal tt,
                           updateStatus idle "Manual sync completed" m)
                      | (Throw e, m) =>
                          (Normal tt,
                           notice ("Manual sync failed: " ++ e)%string
                             (updateStatus error
                                ("Manual sync failed: " ++ e)%string m))
                      | (OutOfFuel, m) => (OutOfFuel, m)
                      end
                  | (Throw e, m) =>
                      (Normal tt,
                       notice ("Manual sync failed: " ++ e)%string
                         (updateStatus error
                            ("Manual sync failed: " ++ e)%string m))
                  | (OutOfFuel, m) => (OutOfFuel, m)
                  end
              | (Throw e, m) =>
                  (Normal tt,
                   notice ("Manual sync failed: " ++ e)%string
                     (updateStatus error
                        ("Manual sync failed: " ++ e)%string m))
              | (OutOfFuel, m) => (OutOfFuel, m)
              end)).
  { intros m0 Hm0.
    assert (H0 : announced m m0) by (subst m0; announced_chain).
    clear Hm0.
    pose proof (announced_gitGetStatus w m0) as Hs.
    destruct (gitGetStatus w m0) as [[[|]|e|] m1]; cbn [fst snd] in *;
      assert (H1 : announced m m1) by (eapply announced_trans; eassumption);
      try (cbn [snd]; announced_chain).
    pose proof (announced_gitCommit w "Manual sync from Loom" None m1) as Hc.
    destruct (gitCommit w _ None m1) as [[u|e|] m2]; cbn [fst snd] in *;
      assert (H2 : announced m m2) by (eapply announced_trans; eassumption);
      try (cbn [snd]; announced_chain).
    destruct (autoPush (settings m2) && truthy (remoteUrl (settings m2))).
    - pose proof (announced_gitPush w m2) as Hp.
      destruct (gitPush w m2) as [[u'|e|] m3]; cbn [fst snd] in *;
        assert (H3 : announced m m3)
          by (eapply announced_trans; eassumption);
        cbn [snd]; announced_chain.
    - cbn [snd]; announced_chain. }
  destruct (status m); cbn [snd]; try (apply Hgo; reflexivity).
  announced_chain.
Qed.

End AnnouncedEntryPoints.

(** ** A pass of the queue in which the head operation fails *)

Section FailedPass.

Variable w : Gateway.t.

Lemma attempt_refused (operation : SyncOperation) (m : t) :
  refuses w (generateCommitMessage m operation) ->
  exists e,
    attempt w operation m
    = (Throw e,
       emit (CallCommit (generateCommitMessage m operation)
               (staged operation) (Some e)) m).
Proof.
  intros Hrefuse.
  assert (Hcommit : forall paths, exists e,
            gitCommit w (generateCommitMessage m operation) paths m
            = (Throw e,
               emit (CallCommit (generateCommitMessage m operation) paths
                       (Some e)) m)).
  { intros paths. unfold gitCommit.
    destruct (Gateway.commit w (trace m) _ paths) as [e|] eqn:E.
    - now exists e.
    - now elim (Hrefuse (trace m) paths). }
  unfold attempt, staged. destruct (action operation); apply Hcommit.
Qed.

Lemma retry_refused (operation : SyncOperation) (m : t) :
  refuses w (generateCommitMessage m operation) ->
  exists e1 e2 e3,
    Utils.retry sleep (attempt w operation) 2 1000%N m
    = (Throw e3,
       mk (gitService m) (settings m) (status m) (lastSyncTime m)
         (syncQueue m) (isProcessingQueue m) (statusCallbacks m)
         (now m + 1000 + 2000)%N
         (trace m
          ++ [CallCommit (generateCommitMessage m operation)
                (staged operation) (Some e1); Slept 1000%N;
              CallCommit (generateCommitMessage m operation)
                (staged operation) (Some e2); Slept 2000%N;
              CallCommit (generateCommitMessage m operation)
                (staged operation) (Some e3)])).
Proof.
  intros Hrefuse. unfold Utils.retry.
  destruct m as [gs se st ls q pq cbs nw tr].
  set (message := generateCommitMessage (mk gs se st ls q pq cbs nw tr)
                    operation) in *.
  assert (Hstep : forall nw' tr', exists e,
            attempt w operation (mk gs se st ls q pq cbs nw' tr')
            = (Throw e,
               mk gs se st ls q pq cbs nw'
                 (tr' ++ [CallCommit message (staged operation) (Some e)]))).
  { intros nw' tr'.
    destruct (attempt_refused operation (mk gs se st ls q pq cbs nw' tr')
                Hrefuse) as [e E].
    exists e. exact E. }
  destruct (Hstep nw tr) as [e1 E1].
  destruct (Hstep (nw + 1000)%N
              ((tr ++ [CallCommit message (staged operation) (Some e1)])
               ++ [Slept 1000%N])) as [e2 E2].
  destruct (Hstep (nw + 1000 + 2000)%N
              ((((tr ++ [CallCommit message (staged operation) (Some e1)])
                 ++ [Slept 1000%N])
                ++ [CallCommit message (staged operation) (Some e2)])
               ++ [Slept 2000%N])) as [e3 E3].
  exists e1, e2, e3.
  cbn [Utils.retry_from]. rewrite E1.
  change (sleep (1000 * 2 ^ N.of_nat 0)%N
            (mk gs se st ls q pq cbs nw
               (tr ++ [CallCommit message (staged operation) (Some e1)])))
    with (mk gs se st ls q pq cbs (nw + 1000)%N
            ((tr ++ [CallCommit message (staged operation) (Some e1)])
             ++ [Slept 1000%N])).
  rewrite E2.
  change (sleep (1000 * 2 ^ N.of_nat 1)%N
            (mk gs se st ls q pq cbs (nw + 1000)%N
               (((tr ++ [CallCommit message (staged operation) (Some e1)])
                 ++ [Slept 1000%N])
                ++ [CallCommit message (staged operation) (Some e2)])))
    with (mk gs se st ls q pq cbs (nw + 1000 + 2000)%N
            ((((tr ++ [CallCommit message (staged operation) (Some e1)])
               ++ [Slept 1000%N])
              ++ [CallCommit message (staged operation) (Some e2)])
             ++ [Slept 2000%N])).
  rewrite E3.
  cbn [gitService settings status lastSyncTime syncQueue isProcessingQueue
       statusCallbacks now trace].
  rewrite <- !app_assoc. reflexivity.
Qed.

Lemma failed_pass (operation : SyncOperation) (rest : list SyncOperation)
  (m : t) :
  refuses w (generateCommitMessage m operation) ->
  isProcessingQueue m = false ->
  syncQueue m = operation :: rest ->
  exists e1 e2 e3,
    processQueue w m
    = (Normal tt,
       mk (gitService m) (settings m) error (lastSyncTime m)
         (requeued operation rest) false (statusCallbacks m)
         (now m + 1000 + 2000)%N
         (trace m ++ failed_pass_trace m operation e1 e2 e3)).
Proof.
  intros Hrefuse Hproc Hq.
  destruct m as [gs se st ls q pq cbs nw tr].
  cbn [isProcessingQueue syncQueue] in Hproc, Hq. subst pq q.
  unfold processQueue.
  cbn [isProcessingQueue syncQueue List.length Nat.eqb orb
       set_isProcessingQueue gitService settings status lastSyncTime
       statusCallbacks now trace].
  rewrite updateStatus_eq.
  cbn [isProcessingQueue syncQueue List.length set_status set_trace
       set_isProcessingQueue gitService settings status lastSyncTime
       statusCallbacks now trace drain set_syncQueue].
  unfold processSyncOperation.
  match goal with
  | |- context [Utils.retry sleep (attempt w operation) 2 1000%N ?x] =>
      destruct (retry_refused operation x Hrefuse) as [e1 [e2 [e3 E]]];
      rewrite E
  end.
  exists e1, e2, e3.
  cbn [isProcessingQueue syncQueue set_status set_trace
       set_isProcessingQueue gitService settings status lastSyncTime
       statusCallbacks now trace set_syncQueue retries].
  unfold requeued, failed_pass_trace, retried, noticed, announce,
    generateCommitMessage.
  cbn [isProcessingQueue syncQueue gitService settings status lastSyncTime
       statusCallbacks now trace retries file action].
  destruct (Nat.ltb (S (retries operation)) 3);
    rewrite updateStatus_eq; unfold notice, emit, announce;
    cbn [isProcessingQueue syncQueue set_status set_trace
         set_isProcessingQueue gitService settings status lastSyncTime
         statusCallbacks now trace set_syncQueue];
    destruct (showNotifications se);
    cbn [isProcessingQueue syncQueue set_status set_trace
         set_isProcessingQueue gitService settings status lastSyncTime
         statusCallbacks now trace set_syncQueue];
    do 2 f_equal; rewrite <- ?app_assoc, ?app_nil_r; reflexivity.
Qed.

End FailedPass.

(** ** The loop bound is never reached *)

Section Termination.

Variable w : Gateway.t.

Lemma gitCommit_keeps_queue (message : string)
  (paths : option (list string)) (m : t) :
  syncQueue (snd (gitCommit w message paths m)) = syncQueue m
  /\ fst (gitCommit w message paths m) <> OutOfFuel.
Proof.
  unfold gitCommit. destruct (Gateway.commit w _ _ _); now split.
Qed.

Lemma attempt_keeps_queue (operation : SyncOperation) (m : t) :
  syncQueue (snd (attempt w operation m)) = syncQueue m
  /\ fst (attempt w operation m) <> OutOfFuel.
Proof.
  unfold attempt. destruct (action operation); apply gitCommit_keeps_queue.
Qed.

Lemma retry_from_keeps_queue (operation : SyncOperation)
  (remaining n : nat) (baseDelay : N) (m : t) :
  syncQueue (snd (Utils.retry_from sleep (attempt w operation) remaining n
                    baseDelay m)) = syncQueue m
  /\ fst (Utils.retry_from sleep (attempt w operation) remaining n
            baseDelay m) <> OutOfFuel.
Proof.
  revert n m. induction remaining as [|remaining IH]; intros n m; cbn;
    destruct (attempt_keeps_queue operation m) as [Hq Hf];
    destruct (attempt w operation m) as [[u|e|] m1]; cbn in *;
    try (now split).
  destruct (IH (S n) (sleep (baseDelay * 2 ^ N.of_nat n)%N m1)) as [Hq' Hf'].
  split; [|exact Hf']. rewrite Hq'. exact Hq.
Qed.

Lemma processSyncOperation_keeps_queue (operation : SyncOperation) (m : t) :
  fst (processSyncOperation w operation m) <> OutOfFuel
  /\ (forall u, fst (processSyncOperation w operation m) = Normal u ->
      syncQueue (snd (processSyncOperation w operation m)) = syncQueue m).
Proof.
  unfold processSyncOperation, Utils.retry.
  destruct (retry_from_keeps_queue operation 2 0 1000%N m) as [Hq Hf].
  destruct (Utils.retry_from _ _ _ _ _ m) as [[u|e|] m1]; cbn in *.
  - split; [easy|]. intros _ _. exact Hq.
  - split; [easy|]. intros u Hu. discriminate Hu.
  - now elim Hf.
Qed.

Lemma drain_has_fuel (fuel : nat) (m : t) :
  List.length (syncQueue m) <= fuel ->
  fst (drain w fuel m) <> OutOfFuel.
Proof.
  revert m. induction fuel as [|fuel IH]; intros m Hlen; cbn;
    destruct (syncQueue m) as [|operation rest] eqn:Hq; cbn in *;
    try easy; try lia.
  destruct (processSyncOperation_keeps_queue operation
              (set_syncQueue rest m)) as [Hf Hn].
  destruct (processSyncOperation w operation _) as [[u|e|] m1]; cbn in *;
    try easy.
  apply IH. rewrite (Hn u eq_refl). lia.
Qed.

Lemma processQueue_returns (m : t) : fst (processQueue w m) = Normal tt.
Proof.
  unfold processQueue.
  destruct (isProcessingQueue m || _); [reflexivity|].
  set (m0 := updateStatus syncing _ _).
  pose proof (drain_has_fuel (List.length (syncQueue m0)) m0 (le_n _)) as Hd.
  destruct (drain w _ m0) as [[u|e|] m1]; cbn in *; try reflexivity.
  now elim Hd.
Qed.

Lemma handleFileChange_returns (file : TFile) (action : FileChangeAction)
  (m : t) : fst (handleFileChange w file action m) = Normal tt.
Proof.
  unfold handleFileChange.
  destruct (status m); try reflexivity; apply processQueue_returns.
Qed.

Lemma performManualSync_returns (m : t) :
  fst (performManualSync w m) = Normal tt.
Proof.
  unfold performManualSync, gitGetStatus, gitCommit, gitPush.
  destruct (status m); try reflexivity;
    (destruct (Gateway.getStatus w _) as [e|[|]]; try reflexivity;
     destruct (Gateway.commit w _ _ _); try reflexivity;
     cbn [settings emit set_trace];
     destruct (autoPush _ && truthy _); try reflexivity;
     destruct (Gateway.push w _); reflexivity).
Qed.

Lemma pull_push_return (m : t) :
  fst (pullFromRemote w m) <> OutOfFuel
  /\ fst (pushToRemote w m) <> OutOfFuel.
Proof.
  unfold pullFromRemote, pushToRemote, gitPull, gitPush.
  destruct (negb _); [now split|].
  destruct (Gateway.pull w _), (Gateway.push w _); now split.
Qed.

End Termination.

(** ** The rounds of every entry point *)

Section Rounds.















End Rounds.


Section RoundsOfSteps.

Variable w : Gateway.t.














End RoundsOfSteps.



(** ** What a failed pass leaves behind *)

Section FailedPassSummary.

Variable w : Gateway.t.

Lemma commit_calls_app (tr1 tr2 : list Event) :
  commit_calls (tr1 ++ tr2) = commit_calls tr1 + commit_calls tr2.
Proof.
  induction tr1 as [|e tr1 IH]; [reflexivity|].
  destruct e; cbn; now rewrite ?IH.
Qed.

Lemma commit_calls_announce (s : SyncStatus) (message : string)
  (callbacks : list nat) : commit_calls (announce s message callbacks) = 0.
Proof. induction callbacks; [reflexivity | exact IHcallbacks]. Qed.

Lemma commit_calls_failed_pass (m : t) (operation : SyncOperation)
  (e1 e2 e3 : string) :
  commit_calls (failed_pass_trace m operation e1 e2 e3) = 3.
Proof.
  unfold failed_pass_trace, noticed.
  rewrite !commit_calls_app, !commit_calls_announce.
  destruct (Nat.ltb _ 3), (showNotifications _); reflexivity.
Qed.

Lemma commits_of_failed_pass (m : t) (operation : SyncOperation)
  (e1 e2 e3 message : string) (paths : option (list string))
  (thrown : option string) :
  In (CallCommit message paths thrown)
    (failed_pass_trace m operation e1 e2 e3) ->
  message = generateCommitMessage m operation /\ paths = staged operation.
Proof.
  unfold failed_pass_trace, noticed, announce. intros Hin.
  repeat (apply in_app_or in Hin; destruct Hin as [Hin | Hin]).
  - apply in_map_iff in Hin. now destruct Hin as [c [Hc _]].
  - cbn in Hin.
    repeat (destruct Hin as [Hin | Hin];
            [inversion Hin; now subst | ]); try easy.
  - destruct (Nat.ltb _ 3); cbn in Hin; [easy|].
    now destruct Hin as [Hin | []].
  - apply in_map_iff in Hin. now destruct Hin as [c [Hc _]].
  - destruct (showNotifications _); cbn in Hin; [|easy].
    now destruct Hin as [Hin | []].
Qed.

End FailedPassSummary.

(** C2, as the code has it. Against a Gateway that refuses every commit, a
    pass over a queue with the operation at its head makes three calls of
    the Gateway for it (one and two retries, 1000 and 2000 milliseconds
    apart), puts the operation back at the front of the queue while it has
    failed fewer than three passes, and ends in status [error]: every failed
    pass does, the first one too.  An operation that starts with no retries
    is back at the front after the first and the second pass and gone after
    the third, nine calls of the Gateway in all. *)
Theorem C2_retry_budget (w : Gateway.t) (m : t) (operation : SyncOperation)
  (rest : list SyncOperation) :
  fails_persistently w ->
  isProcessingQueue m = false ->
  syncQueue m = operation :: rest ->
  (let m1 := snd (processQueue w m) in
   commit_calls (trace m1) = commit_calls (trace m) + 3
   /\ (exists e1 e2 e3,
         trace m1 = trace m ++ failed_pass_trace m operation e1 e2 e3)
   /\ syncQueue m1
      = (if Nat.ltb (S (retries operation)) 3
         then retried operation :: rest else rest)
   /\ status m1 = error
   /\ isProcessingQueue m1 = false)
  /\
  (retries operation = 0 ->
   let m1 := snd (processQueue w m) in
   let m2 := snd (processQueue w m1) in
   let m3 := snd (processQueue w m2) in
   syncQueue m1 = retried operation :: rest
   /\ syncQueue m2 = retried (retried operation) :: rest
   /\ syncQueue m3 = rest
   /\ commit_calls (trace m2) = commit_calls (trace m) + 6
   /\ commit_calls (trace m3) = commit_calls (trace m) + 9
   /\ status m1 = error /\ status m2 = error /\ status m3 = error).
Proof.
  intros Hfail Hproc Hq.
  assert (Hpass : forall m operation rest,
            isProcessingQueue m = false ->
            syncQueue m = operation :: rest ->
            let m1 := snd (processQueue w m) in
            commit_calls (trace m1) = commit_calls (trace m) + 3
            /\ (exists e1 e2 e3,
                  trace m1 = trace m ++ failed_pass_trace m operation e1 e2 e3)
            /\ syncQueue m1 = requeued operation rest
            /\ status m1 = error
            /\ isProcessingQueue m1 = false).
  { clear m operation rest Hproc Hq. intros m operation rest Hproc Hq.
    destruct (failed_pass w operation rest m (Hfail _) Hproc Hq)
      as [e1 [e2 [e3 E]]].
    rewrite E. cbn. repeat split.
    - now rewrite commit_calls_app, commit_calls_failed_pass.
    - now exists e1, e2, e3. }
  split.
  - exact (Hpass m operation rest Hproc Hq).
  - intros Hzero m1 m2 m3.
    destruct (Hpass m operation rest Hproc Hq) as [Hc1 [_ [Hq1 [Hs1 Hp1]]]].
    fold m1 in Hc1, Hq1, Hs1, Hp1.
    unfold requeued, retried in Hq1. rewrite Hzero in Hq1. cbn in Hq1.
    destruct (Hpass m1 _ rest Hp1 Hq1) as [Hc2 [_ [Hq2 [Hs2 Hp2]]]].
    fold m2 in Hc2, Hq2, Hs2, Hp2. unfold requeued, retried in Hq2.
    cbn in Hq2.
    destruct (Hpass m2 _ rest Hp2 Hq2) as [Hc3 [_ [Hq3 [Hs3 Hp3]]]].
    fold m3 in Hc3, Hq3, Hs3, Hp3. unfold requeued, retried in Hq3.
    cbn in Hq3.
    unfold retried. rewrite Hzero.
    repeat split; try assumption; lia.
Qed.

Lemma C2_retry_budget_witness :
  fails_persistently Sample.stubborn
  /\ (let m := set_syncQueue [Sample.operation_a]
                 (Sample.manager DEFAULT_SETTINGS) in
      let m3 := snd (processQueue Sample.stubborn
                       (snd (processQueue Sample.stubborn
                               (snd (processQueue Sample.stubborn m))))) in
      syncQueue m3 = [] /\ commit_calls (trace m3) = 9 /\ status m3 = error).
Proof.
  assert (H : fails_persistently Sample.stubborn)
    by (intros message tr paths; discriminate).
  split; [exact H|].
  pose proof (proj2 (C2_retry_budget Sample.stubborn
                       (set_syncQueue [Sample.operation_a]
                          (Sample.manager DEFAULT_SETTINGS))
                       Sample.operation_a [] H eq_refl eq_refl) eq_refl)
    as [_ [_ [Hq [_ [Hc [_ [_ Hs]]]]]]].
  cbv zeta. repeat split; assumption.
Defined.

(** C2, as the specification has it, fails: with the sample Gateway that
    refuses every commit, the first pass over a burst on [a.md] ends in
    status [error] after three calls of the Gateway, while the operation is
    back in the queue with one retry; after six calls it is still queued,
    and it is dropped after nine. *)
Lemma C2_counterexample :
  let m1 := Sample.after_first_pass Sample.stubborn in
  let m2 := Sample.after_second_pass Sample.stubborn in
  let m3 := Sample.after_third_pass Sample.stubborn in
  (status m1 = error
   /\ commit_calls (trace m1) = 3
   /\ syncQueue m1 = [mkOp Sample.note_a create 0%N  1])
  /\ (commit_calls (trace m2) = 6
      /\ syncQueue m2 = [mkOp Sample.note_a create 0%N  2;
                         mkOp Sample.note_b modify 3000%N 0])
  /\ (commit_calls (trace m3) = 9
      /\ syncQueue m3 = [mkOp Sample.note_b modify 3000%N 0;
                         mkOp Sample.note_c modify 6000%N 0])
  /\ ~ ((status m1 = error -> ~ In (mkOp Sample.note_a create 0%N  1)
                                   (syncQueue m1))
        /\ (forall n, ~ In (mkOp Sample.note_a create 0%N  n) (syncQueue m3) ->
            commit_calls (trace m3) = 6)).
Proof.
  cbv zeta.
  assert (H1 : status (Sample.after_first_pass Sample.stubborn) = error
               /\ commit_calls (trace (Sample.after_first_pass
                                         Sample.stubborn)) = 3
               /\ syncQueue (Sample.after_first_pass Sample.stubborn)
                  = [mkOp Sample.note_a create 0%N  1])
    by (vm_compute; repeat split).
  assert (H2 : commit_calls (trace (Sample.after_second_pass
                                      Sample.stubborn)) = 6
               /\ syncQueue (Sample.after_second_pass Sample.stubborn)
                  = [mkOp Sample.note_a create 0%N  2;
                     mkOp Sample.note_b modify 3000%N 0])
    by (vm_compute; repeat split).
  assert (H3 : commit_calls (trace (Sample.after_third_pass
                                      Sample.stubborn)) = 9
               /\ syncQueue (Sample.after_third_pass Sample.stubborn)
                  = [mkOp Sample.note_b modify 3000%N 0;
                     mkOp Sample.note_c modify 6000%N 0])
    by (vm_compute; repeat split).
  repeat split; try apply H1; try apply H2; try apply H3.
  intros [Hclaim _]. apply Hclaim; [apply H1|].
  destruct H1 as [_ [_ ->]]. now left.
Qed.

(** C3, as the code has it. When the Gateway refuses the commits of the
    operation at the head of the queue, [processSyncOperation] catches the
    failure only to count it and to put the operation back, and throws it
    again: the loop of [processQueue] is left at once.  The pass returns
    normally, in status [error] and with the guard cleared; the operations
    that were behind the head are all still queued, and the Gateway was
    called for none of them: the three calls of the pass are for the head. *)
Theorem C3_failure_aborts_the_drain (w : Gateway.t) (m : t)
  (operation : SyncOperation) (rest : list SyncOperation) :
  refuses w (generateCommitMessage m operation) ->
  isProcessingQueue m = false ->
  syncQueue m = operation :: rest ->
  fst (processQueue w m) = Normal tt
  /\ status (snd (processQueue w m)) = error
  /\ isProcessingQueue (snd (processQueue w m)) = false
  /\ (syncQueue (snd (processQueue w m)) = retried operation :: rest
      \/ syncQueue (snd (processQueue w m)) = rest)
  /\ exists new,
       trace (snd (processQueue w m)) = trace m ++ new
       /\ commit_calls new = 3
       /\ forall message paths thrown,
            In (CallCommit message paths thrown) new ->
            message = generateCommitMessage m operation
            /\ paths = staged operation.
Proof.
  intros Hrefuse Hproc Hq.
  destruct (failed_pass w operation rest m Hrefuse Hproc Hq)
    as [e1 [e2 [e3 E]]].
  rewrite E. cbn [fst snd status isProcessingQueue syncQueue trace].
  repeat split.
  - unfold requeued. destruct (Nat.ltb _ 3); [now left | now right].
  - exists (failed_pass_trace m operation e1 e2 e3).
    split; [reflexivity|]. split; [apply commit_calls_failed_pass|].
    intros message paths thrown Hin.
    exact (commits_of_failed_pass m operation e1 e2 e3 message paths thrown
             Hin).
Qed.

Lemma C3_failure_aborts_the_drain_witness :
  let w := Sample.picky "Created: a.md" in
  let m := set_syncQueue [Sample.operation_a; mkOp Sample.note_b modify 0%N 0]
             (Sample.manager DEFAULT_SETTINGS) in
  refuses w (generateCommitMessage m Sample.operation_a)
  /\ status (snd (processQueue w m)) = error
  /\ (syncQueue (snd (processQueue w m))
      = [retried Sample.operation_a; mkOp Sample.note_b modify 0%N 0]
      \/ syncQueue (snd (processQueue w m))
         = [mkOp Sample.note_b modify 0%N 0]).
Proof.
  cbv zeta.
  assert (H : refuses (Sample.picky "Created: a.md")
                (generateCommitMessage
                   (set_syncQueue
                      [Sample.operation_a; mkOp Sample.note_b modify 0%N 0]
                      (Sample.manager DEFAULT_SETTINGS))
                   Sample.operation_a))
    by (intros tr paths; discriminate).
  split; [exact H|].
  destruct (C3_failure_aborts_the_drain (Sample.picky "Created: a.md")
              (set_syncQueue
                 [Sample.operation_a; mkOp Sample.note_b modify 0%N 0]
                 (Sample.manager DEFAULT_SETTINGS))
              Sample.operation_a [mkOp Sample.note_b modify 0%N 0]
              H eq_refl eq_refl) as [_ [Hs [_ [Hq _]]]].
  split; assumption.
Defined.

(** C3, as the specification has it, fails: the sample Gateway refuses the
    commits for [a.md] only.  In the pass that starts with the operations
    for [a.md] and [b.md] queued, the one for [b.md] is neither popped nor
    processed: it is still queued afterwards and the Gateway was never
    called with its message. *)
Lemma C3_counterexample :
  let w := Sample.picky "Created: a.md" in
  let before := snd (pushToRemote w (Sample.after_first_pass w)) in
  let operation_b := mkOp Sample.note_b modify 3000%N 0 in
  let m := Sample.after_second_pass w in
  status before = idle
  /\ syncQueue before = [mkOp Sample.note_a create 0%N 1]
  /\ generateCommitMessage before operation_b = "Updated: b.md"
  /\ syncQueue m = [mkOp Sample.note_a create 0%N 2; operation_b]
  /\ status m = error
  /\ commit_messages (trace m) = repeat "Created: a.md" 6
  /\ ~ In "Updated: b.md" (commit_messages (trace m)).
Proof.
  cbv zeta.
  assert (Hcalls : commit_messages
                     (trace (Sample.after_second_pass
                               (Sample.picky "Created: a.md")))
                   = repeat "Created: a.md" 6)
    by (vm_compute; reflexivity).
  repeat split; try (vm_compute; reflexivity).
  rewrite Hcalls. intros Hin. apply repeat_spec in Hin. discriminate Hin.
Qed.

(** ** [initialize] *)

Lemma initialize_status (w : Gateway.t) (m : t) :
  status (initialize w m)
  = if truthy (remoteUrl (settings m)) && negb (fst (gitTestConnection w m))
    then offline else idle.
Proof.
  unfold initialize. cbn [GitService.isRepositoryInitialized negb].
  destruct (truthy (remoteUrl (settings m))); cbn [andb].
  - destruct (gitTestConnection w m) as [[|] m1]; cbn [fst negb];
      now rewrite updateStatus_eq.
  - now rewrite updateStatus_eq.
Qed.

(** C4. The code does not do what the claim says for a vault without a
    repository: [isRepositoryInitialized] answers [true] without looking,
    so [initialize] never takes the first [offline] branch.  When no remote
    is configured, it ends in [idle] whether the repository exists or not. *)
Theorem C4_initialize_overlooks_a_missing_repository (w : Gateway.t) (m : t) :
  Gateway.isRepository w = false ->
  truthy (remoteUrl (settings m)) = false ->
  status (initialize w m) = idle
  /\ trace (initialize w m)
     = trace m ++ announce idle "Ready to sync" (statusCallbacks m).
Proof.
  intros _ Hremote. split.
  - rewrite initialize_status. now rewrite Hremote.
  - unfold initialize. cbn [GitService.isRepositoryInitialized negb].
    rewrite Hremote. now rewrite updateStatus_eq.
Qed.

Lemma C4_initialize_overlooks_a_missing_repository_witness :
  Gateway.isRepository Sample.no_repository = false
  /\ status (initialize Sample.no_repository (Sample.manager DEFAULT_SETTINGS))
     = idle.
Proof.
  split; [reflexivity|].
  exact (proj1 (C4_initialize_overlooks_a_missing_repository
                  Sample.no_repository (Sample.manager DEFAULT_SETTINGS)
                  eq_refl eq_refl)).
Defined.


(** ** The debounced watcher *)

Section Debounce.

Import FileWatcher.

Variable cb : nat.



(** A vault event on a file of a started watcher sets the one timer anew. *)
Lemma vault_event_sets_timer (fw : FileWatcher.t) (time : N)
  (kind : FileChangeAction) (f : TFile) :
  watching cb fw ->
  vault_event time kind (IsFile f) fw
  = with_timer (Some (Utils.mkTimer (time + fixed_delay)%N (f, kind) false)) fw.
Proof.
  intros [Hactive [Hcb Hrefs]]. unfold vault_event. rewrite Hrefs.
  destruct fw as [se ac c refs h dl]. cbn in Hrefs. subst refs.
  destruct kind; reflexivity.
Qed.

Lemma tick_not_due (time : N) (fw : FileWatcher.t) :
  not_due time fw -> tick time fw = fw.
Proof.
  unfold not_due, tick, Utils.debounce_tick.
  destruct (handleFileChange fw) as [timer|]; [|reflexivity].
  intros [Hfired | Hlater].
  - now rewrite Hfired.
  - assert (Hleb : N.leb (Utils.due timer) time = false)
      by (apply N.leb_gt; exact Hlater).
    rewrite Hleb, andb_false_r. reflexivity.
Qed.

Lemma step_vault (fw : FileWatcher.t) (e : Arrival) :
  watching cb fw ->
  not_due (arrival_time e) fw ->
  step fw (arrival_time e, Vault (arrival_kind e) (IsFile (arrival_file e)))
  = with_timer
      (Some (Utils.mkTimer (arrival_time e + fixed_delay)%N
               (arrival_file e, arrival_kind e) false)) fw.
Proof.
  intros Hw Hnd. unfold step. cbn [fst snd].
  rewrite tick_not_due by exact Hnd.
  now apply vault_event_sets_timer.
Qed.


(** The timer set by an arrival fires [fixed_delay] after it and hands the
    arguments of that arrival to the callback, if the file passes the
    filter with the settings of the moment. *)
Lemma tick_fires (fw : FileWatcher.t) (time due : N) (f : TFile)
  (kind : FileChangeAction) :
  watching cb fw ->
  shouldIgnoreFile (settings fw) f = Some false ->
  (due <= time)%N ->
  delivered
    (tick time (with_timer (Some (Utils.mkTimer due (f, kind) false)) fw))
  = delivered fw ++ [mkDelivery due cb f kind].
Proof.
  intros [Hactive [Hcb Hrefs]] Hfilter Hdue.
  unfold tick, with_timer, Utils.debounce_tick.
  cbn [handleFileChange Utils.fired Utils.due Utils.args negb andb].
  assert (Hleb : N.leb due time = true) by (apply N.leb_le; exact Hdue).
  rewrite Hleb. unfold on_timer.
  cbn [isActive callback settings delivered eventRefs handleFileChange
       Utils.due_of Utils.due].
  now rewrite Hactive, Hcb, Hfilter.
Qed.


Lemma at_rest_not_due (fw : FileWatcher.t) (time : N) :
  at_rest fw -> not_due time fw.
Proof.
  unfold at_rest, not_due. destruct (handleFileChange fw); [|easy].
  intros H. now left.
Qed.

End Debounce.




(** C8. The code does not do what the claim says: the delay handed to
    [debounce] is the literal 500, and [updateSettings] only stores the
    settings.  Whatever debounce delay the new settings carry, the timer set
    by the next event is due 500 milliseconds after it, and the callback is
    called then. *)
Theorem C8_debounce_delay_is_fixed (cb : nat) (fw : FileWatcher.t)
  (s : LoomSettings) (changed arrived : N) (kind : FileChangeAction)
  (f : TFile) :
  watching cb fw ->
  at_rest fw ->
  FileWatcher.shouldIgnoreFile s f = Some false ->
  let after :=
    FileWatcher.run
      [(changed, FileWatcher.Settings s);
       (arrived, FileWatcher.Vault kind (FileWatcher.IsFile f))] fw in
  debounceDelay (FileWatcher.settings after) = debounceDelay s
  /\ forall time, (arrived + 500 <= time)%N ->
       FileWatcher.delivered (FileWatcher.tick time after)
       = FileWatcher.delivered fw
         ++ [FileWatcher.mkDelivery (arrived + 500) cb f kind].
Proof.
  intros Hw Hrest Hok after.
  assert (Hset : FileWatcher.step fw (changed, FileWatcher.Settings s)
                 = FileWatcher.updateSettings s fw).
  { unfold FileWatcher.step. cbn [fst snd].
    rewrite tick_not_due; [reflexivity | now apply at_rest_not_due]. }
  assert (Hrun : after
                 = with_timer
                     (Some (Utils.mkTimer (arrived + 500)%N (f, kind) false))
                     (FileWatcher.updateSettings s fw)).
  { subst after. unfold FileWatcher.run. cbn [fold_left]. rewrite Hset.
    apply (step_vault cb (FileWatcher.updateSettings s fw)
             (arrived, (kind, f))).
    - exact Hw.
    - apply at_rest_not_due. exact Hrest. }
  rewrite Hrun. split; [reflexivity|].
  intros time Hle.
  now apply (tick_fires cb (FileWatcher.updateSettings s fw)).
Qed.

Lemma C8_debounce_delay_is_fixed_witness :
  let after :=
    FileWatcher.run
      [(0%N, FileWatcher.Settings Sample.slow_settings);
       (10%N, FileWatcher.Vault modify (FileWatcher.IsFile Sample.note_a))]
      (Sample.watcher DEFAULT_SETTINGS) in
  debounceDelay (FileWatcher.settings after) = 2000%N
  /\ FileWatcher.delivered (FileWatcher.tick 510 after)
     = [FileWatcher.mkDelivery 510 7 Sample.note_a modify].
Proof.
  cbv zeta.
  assert (Hw : watching 7 (Sample.watcher DEFAULT_SETTINGS))
    by (repeat split).
  destruct (C8_debounce_delay_is_fixed 7 (Sample.watcher DEFAULT_SETTINGS)
              Sample.slow_settings 0%N 10%N modify Sample.note_a
              Hw I eq_refl) as [Hdelay Hfires].
  split; [exact Hdelay|].
  apply (Hfires 510%N). cbn. lia.
Defined.

(** ** The filter on plain glob patterns *)

Section PlainGlobs.

Import FileWatcher.

Lemma regexPattern_cons (c : ascii) (pattern : string) :
  regexPattern (String c pattern)
  = if Ascii.eqb c "." then String "\" (String "." (regexPattern pattern))
    else if Ascii.eqb c "*" then String "." (String "*" (regexPattern pattern))
    else if Ascii.eqb c "?" then String "." (regexPattern pattern)
    else String c (regexPattern pattern).
Proof.
  unfold regexPattern. cbn [replace_all].
  destruct (Ascii.eqb c ".") eqn:Edot.
  - reflexivity.
  - cbn [replace_all]. destruct (Ascii.eqb c "*") eqn:Estar.
    + reflexivity.
    + cbn [replace_all]. now destruct (Ascii.eqb c "?").
Qed.

(** What a character of a plain glob pattern is not. *)
Lemma plain_char (c : ascii) :
  regex_only c = false ->
  Ascii.eqb c "$" = false /\ Ascii.eqb c "\" = false
  /\ Ascii.eqb c "+" = false
  /\ (Ascii.eqb c "." = false -> Ascii.eqb c "*" = false ->
      Ascii.eqb c "?" = false -> is_meta_char c = false).
Proof.
  destruct c as [[] [] [] [] [] [] [] []]; intros H;
    try discriminate H; repeat split; intros; try reflexivity;
    discriminate.
Qed.

(** The source of a plain glob pattern never begins with a quantifier. *)
Lemma source_head (pattern : string) :
  plain_glob pattern = true ->
  exists q rest,
    (regexPattern pattern ++ "$")%string = String q rest
    /\ Ascii.eqb q "*" = false /\ Ascii.eqb q "+" = false.
Proof.
  destruct pattern as [|c pattern]; intros Hplain.
  - now exists "$"%char, EmptyString.
  - cbn in Hplain. apply andb_prop in Hplain. destruct Hplain as [Hc _].
    apply negb_true_iff in Hc.
    destruct (plain_char c Hc) as [_ [_ [Hplus _]]].
    rewrite regexPattern_cons.
    destruct (Ascii.eqb c ".") eqn:Edot;
      [now eexists; eexists|].
    destruct (Ascii.eqb c "*") eqn:Estar;
      [now eexists; eexists|].
    destruct (Ascii.eqb c "?") eqn:Eq;
      [now eexists; eexists|].
    exists c. eexists. now repeat split.
Qed.

Lemma parse_plain_glob (pattern : string) :
  plain_glob pattern = true ->
  parse (regexPattern pattern ++ "$")%string = Some (glob_regex pattern).
Proof.
  induction pattern as [|c pattern IH]; intros Hplain; [reflexivity|].
  cbn in Hplain. apply andb_prop in Hplain. destruct Hplain as [Hc Hplain].
  apply negb_true_iff in Hc.
  destruct (plain_char c Hc) as [Hdollar [Hback [Hplus Hmeta]]].
  specialize (IH Hplain).
  destruct (source_head pattern Hplain) as [q [rest [Hsrc [Hq1 Hq2]]]].
  rewrite regexPattern_cons. cbn [glob_regex].
  destruct (Ascii.eqb c ".") eqn:Edot.
  - apply Ascii.eqb_eq in Edot. subst c.
    cbn [append]. rewrite Hsrc in *. cbn [parse].
    cbn. rewrite Hq1, Hq2. cbn in IH. now rewrite IH.
  - destruct (Ascii.eqb c "*") eqn:Estar.
    + cbn [append]. cbn. now rewrite IH.
    + destruct (Ascii.eqb c "?") eqn:Eq.
      * cbn [append]. rewrite Hsrc in *. cbn.
        rewrite Hq1, Hq2. cbn in IH. now rewrite IH.
      * cbn [append]. rewrite Hsrc in *. cbn [parse].
        rewrite Hdollar, Hback, (Hmeta eq_refl eq_refl eq_refl), Edot, Hq1, Hq2.
        cbn [parse] in IH. now rewrite IH.
Qed.

Lemma star_agrees (rest_regex rest_glob : string -> bool) :
  (forall s, one_line s = true -> rest_regex s = rest_glob s) ->
  forall s, one_line s = true ->
    (fix star (s : string) : bool :=
       rest_regex s ||
       match s with
       | String c s' => atom_ok AnyChar c && star s'
       | EmptyString => false
       end) s
    = (fix star (s : string) : bool :=
         rest_glob s ||
         match s with
         | String _ s' => star s'
         | EmptyString => false
         end) s.
Proof.
  intros Hrest.
  set (star_regex := fix star (s : string) : bool :=
                       rest_regex s ||
                       match s with
                       | String c s' => atom_ok AnyChar c && star s'
                       | EmptyString => false
                       end).
  set (star_glob := fix star (s : string) : bool :=
                      rest_glob s ||
                      match s with
                      | String _ s' => star s'
                      | EmptyString => false
                      end).
  intros s. induction s as [|d s IHs]; intros Hline.
  - change (rest_regex EmptyString || false = rest_glob EmptyString || false).
    now rewrite Hrest.
  - change (rest_regex (String d s) || (atom_ok AnyChar d && star_regex s)
            = rest_glob (String d s) || star_glob s).
    rewrite (Hrest _ Hline).
    cbn in Hline. apply andb_prop in Hline. destruct Hline as [Hd Hline].
    assert (Hok : atom_ok AnyChar d = true) by exact Hd.
    rewrite Hok, (IHs Hline). reflexivity.
Qed.

Lemma test_plain_glob (pattern filePath : string) :
  one_line filePath = true ->
  test (glob_regex pattern) filePath = glob_match pattern filePath.
Proof.
  revert filePath.
  induction pattern as [|c pattern IH]; intros filePath Hline; [reflexivity|].
  cbn [glob_regex glob_match].
  destruct (Ascii.eqb c "*") eqn:Estar.
  - cbn [test]. now apply star_agrees.
  - destruct (Ascii.eqb c "?") eqn:Eq; cbn [test];
      destruct filePath as [|d filePath]; try reflexivity;
      cbn in Hline; apply andb_prop in Hline; destruct Hline as [Hd Hline];
      cbn [atom_ok]; rewrite ?Hd; cbn [andb]; now rewrite IH.
Qed.

(** On a plain glob pattern and a path on one line, [matchesPattern] is the
    glob matching of the specification. *)
Lemma matchesPattern_plain_glob (filePath pattern : string) :
  plain_glob pattern = true ->
  one_line filePath = true ->
  matchesPattern filePath pattern = Some (glob_match pattern filePath).
Proof.
  intros Hplain Hline. unfold matchesPattern, compile. cbn.
  rewrite (parse_plain_glob pattern Hplain). cbn.
  now rewrite test_plain_glob.
Qed.

Lemma shouldIgnoreFile_plain_globs (s : LoomSettings) (f : TFile) :
  forallb plain_glob (excludePatterns s) = true ->
  one_line (path f) = true ->
  shouldIgnoreFile s f = Some (rejected (excludePatterns s) (path f)).
Proof.
  intros Hplain Hline. unfold shouldIgnoreFile, rejected.
  assert (Hex : excluded (path f) (excludePatterns s)
                = Some (existsb (fun pattern => glob_match pattern (path f))
                          (excludePatterns s))).
  { induction (excludePatterns s) as [|pattern patterns IH]; [reflexivity|].
    cbn in Hplain. apply andb_prop in Hplain. destruct Hplain as [Hp Hps].
    cbn [excluded existsb].
    rewrite matchesPattern_plain_glob by assumption.
    destruct (glob_match pattern (path f)); [reflexivity|].
    now apply IH. }
  rewrite Hex.
  destruct (existsb _ (excludePatterns s)); reflexivity.
Qed.

End PlainGlobs.

(** C6. The code does not do what the claim says for a pattern that holds a
    character of the regular-expression syntax other than the three it
    rewrites.  With the one pattern [a+b.md], the path [a+b.md], which the
    pattern matches as a glob, is accepted, and the path [aab.md], which no
    pattern matches and no fixed rule catches, is rejected: the plus reached
    the expression as a quantifier. *)
Theorem C6_regex_syntax_is_not_escaped :
  glob_match "a+b.md" "a+b.md" = true
  /\ rejected (excludePatterns Sample.plus_settings) "a+b.md" = true
  /\ FileWatcher.shouldIgnoreFile Sample.plus_settings Sample.plus_file
     = Some false
  /\ glob_match "a+b.md" "aab.md" = false
  /\ fixed_rule "aab.md" = false
  /\ rejected (excludePatterns Sample.plus_settings) "aab.md" = false
  /\ FileWatcher.shouldIgnoreFile Sample.plus_settings Sample.aab_file
     = Some true.
Proof. repeat split; vm_compute; reflexivity. Qed.

(** ** The commit message *)

Section CommitMessage.

Lemma all_chars_sanitized (filename : string) :
  all_chars (fun c => negb (Utils.is_unsafe_char c))
    (Utils.sanitizeFilename filename) = true.
Proof.
  unfold Utils.sanitizeFilename.
  induction filename as [|c filename IH]; [reflexivity|].
  cbn [Utils.map_chars all_chars]. rewrite IH, andb_true_r.
  destruct (Utils.is_unsafe_char c) eqn:E; [reflexivity|].
  now rewrite E.
Qed.

Lemma no_dollar_sanitized (filename : string) :
  no_dollar filename = true ->
  no_dollar (Utils.sanitizeFilename filename) = true.
Proof.
  unfold no_dollar, Utils.sanitizeFilename.
  induction filename as [|c filename IH]; [reflexivity|].
  cbn [Utils.map_chars all_chars]. intros H.
  apply andb_prop in H. destruct H as [Hc H].
  rewrite (IH H), andb_true_r.
  now destruct (Utils.is_unsafe_char c).
Qed.

Lemma GetSubstitution_no_dollar (matched before after replacement : string) :
  no_dollar replacement = true ->
  Utils.GetSubstitution matched before after replacement = replacement.
Proof.
  unfold no_dollar.
  induction replacement as [|c replacement IH]; [reflexivity|].
  cbn [Utils.GetSubstitution all_chars]. intros H.
  apply andb_prop in H. destruct H as [Hc H].
  apply negb_true_iff in Hc. rewrite Hc. now rewrite IH.
Qed.

Lemma replace_no_dollar (s placeholder text : string) :
  no_dollar text = true ->
  Utils.replace s placeholder text = fill s placeholder text.
Proof.
  intros H. unfold Utils.replace, fill.
  destruct (Utils.find placeholder s); [|reflexivity].
  now rewrite GetSubstitution_no_dollar.
Qed.

Lemma capitalizeFirst_display (a : FileChangeAction) :
  GitService.capitalizeFirst (getActionDisplayName a) = getActionDisplayName a.
Proof. now destruct a. Qed.

(** For a file name without dollar signs the message is the template with
    the two placeholders filled in. *)
Lemma generateCommitMessage_no_dollar (m : t) (operation : SyncOperation) :
  no_dollar (name (file operation)) = true ->
  generateCommitMessage m operation
  = expected_message
      (commitMessageTemplate (GitService.settings (gitService m))) operation.
Proof.
  intros H. unfold generateCommitMessage, GitService.generateCommitMessage,
    expected_message.
  rewrite capitalizeFirst_display.
  rewrite (replace_no_dollar _ "{action}") by (now destruct (action operation)).
  now rewrite replace_no_dollar by (now apply no_dollar_sanitized).
Qed.

End CommitMessage.

(** C10. The code does not do what the claim says for a file name with a
    dollar sign: [sanitizeFilename] lets the dollar through, and
    [String.prototype.replace] reads it in its second argument.  For the
    name [a$$b.md] the message has one dollar where the name has two; for a
    name that begins with a dollar and a backtick, what stands for the file
    name in the message begins with the text before the placeholder, colon
    included. *)
Theorem C10_dollar_in_a_file_name :
  let m := Sample.manager DEFAULT_SETTINGS in
  let template := commitMessageTemplate (GitService.settings (gitService m)) in
  let dollars := mkOp Sample.dollars_file create 0%N 0 in
  let backtick := mkOp Sample.backtick_file create 0%N 0 in
  template = "{action}: {filename}"
  /\ expected_message template dollars = "Created: a$$b.md"
  /\ generateCommitMessage m dollars = "Created: a$b.md"
  /\ generateCommitMessage m backtick = "Created: Created: x.md"
  /\ generateCommitMessage m dollars <> expected_message template dollars
  /\ generateCommitMessage m backtick <> expected_message template backtick.
Proof.
  cbv zeta. repeat split; try (vm_compute; reflexivity);
    vm_compute; discriminate.
Qed.

(* ================================================================== *)
(** * Further properties of the code *)
(* ================================================================== *)

(** ** Passes of the queue that succeed *)

Section SuccessfulPass.

Variable w : Gateway.t.
Hypothesis Haccepts : accepts w.

Lemma attempt_accepted (operation : SyncOperation) (m : t) :
  attempt w operation m
  = (Normal tt,
     emit (CallCommit (generateCommitMessage m operation) (staged operation)
             None) m).
Proof.
  unfold attempt, staged, gitCommit.
  destruct (action operation); now rewrite Haccepts.
Qed.

Lemma processSyncOperation_accepted (operation : SyncOperation) (m : t) :
  processSyncOperation w operation m
  = (Normal tt,
     emit (CallCommit (generateCommitMessage m operation) (staged operation)
             None) m).
Proof.
  unfold processSyncOperation, Utils.retry. cbn [Utils.retry_from].
  now rewrite attempt_accepted.
Qed.

Lemma drain_accepted (queue : list SyncOperation) :
  forall fuel gs se st ls pq cbs nw tr,
    List.length queue <= fuel ->
    drain w fuel (mk gs se st ls queue pq cbs nw tr)
    = (Normal tt,
       mk gs se st ls [] pq cbs nw
         (tr ++ commit_events (mk gs se st ls queue pq cbs nw tr) queue)).
Proof.
  induction queue as [|operation rest IH];
    intros fuel gs se st ls pq cbs nw tr Hfuel.
  - destruct fuel; cbn; now rewrite app_nil_r.
  - destruct fuel as [|fuel]; [cbn in Hfuel; lia|].
    cbn [drain syncQueue]. rewrite processSyncOperation_accepted.
    unfold emit, set_trace, set_syncQueue.
    cbn [gitService settings status lastSyncTime syncQueue isProcessingQueue
         statusCallbacks now trace].
    rewrite IH by (cbn in Hfuel; lia).
    cbn [commit_events map]. now rewrite <- app_assoc.
Qed.

(** A pass over a non-empty queue, when every commit is accepted. *)
Lemma successful_pass (m : t) :
  isProcessingQueue m = false ->
  syncQueue m <> [] ->
  processQueue w m
  = (Normal tt,
     mk (gitService m) (settings m) idle (Some (now m)) [] false
       (statusCallbacks m) (now m)
       (trace m
        ++ announce syncing "Processing file changes" (statusCallbacks m)
        ++ commit_events m (syncQueue m)
        ++ trailing_push w (settings m)
             (trace m
              ++ announce syncing "Processing file changes"
                   (statusCallbacks m)
              ++ commit_events m (syncQueue m))
        ++ announce idle "Sync completed" (statusCallbacks m))).
Proof.
  intros Hproc Hq.
  destruct m as [gs se st ls q pq cbs nw tr].
  cbn [isProcessingQueue syncQueue] in Hproc, Hq. subst pq.
  destruct q as [|operation rest]; [now elim Hq|].
  unfold processQueue.
  cbn [isProcessingQueue syncQueue List.length Nat.eqb orb
       set_isProcessingQueue gitService settings status lastSyncTime
       statusCallbacks now trace].
  rewrite updateStatus_eq.
  unfold set_trace, set_status, set_isProcessingQueue.
  cbn [isProcessingQueue syncQueue gitService settings status lastSyncTime
       statusCallbacks now trace].
  rewrite drain_accepted by reflexivity.
  cbn [isProcessingQueue syncQueue gitService settings status lastSyncTime
       statusCallbacks now trace].
  unfold trailing_push, gitPush.
  cbn [isProcessingQueue syncQueue gitService settings status lastSyncTime
       statusCallbacks now trace].
  change (commit_events (mk gs se syncing ls (operation :: rest) true cbs nw
                           (tr ++ announce syncing "Processing file changes"
                                    cbs)))
    with (commit_events (mk gs se st ls (operation :: rest) false cbs nw tr)).
  rewrite <- !app_assoc.
  destruct (autoPush se && truthy (remoteUrl se)).
  - unfold emit, set_trace.
    cbn [isProcessingQueue syncQueue gitService settings status lastSyncTime
         statusCallbacks now trace].
    rewrite <- !app_assoc.
    destruct (Gateway.push w _) as [e|];
      rewrite updateStatus_eq;
      cbn [isProcessingQueue syncQueue set_status set_trace set_lastSyncTime
           set_isProcessingQueue gitService settings status lastSyncTime
           statusCallbacks now trace];
      rewrite <- ?app_assoc; reflexivity.
  - rewrite updateStatus_eq.
    cbn [isProcessingQueue syncQueue set_status set_trace set_lastSyncTime
         set_isProcessingQueue gitService settings status lastSyncTime
         statusCallbacks now trace].
    rewrite <- ?app_assoc. reflexivity.
Qed.

End SuccessfulPass.

Section SuccessfulPassSummary.

Lemma commit_messages_app (tr1 tr2 : list Event) :
  commit_messages (tr1 ++ tr2) = commit_messages tr1 ++ commit_messages tr2.
Proof.
  induction tr1 as [|e tr1 IH]; [reflexivity|].
  destruct e; cbn; now rewrite ?IH.
Qed.

Lemma commit_messages_announce (s : SyncStatus) (message : string)
  (callbacks : list nat) : commit_messages (announce s message callbacks) = [].
Proof. induction callbacks; [reflexivity | exact IHcallbacks]. Qed.

Lemma commit_messages_commit_events (m : t) (queue : list SyncOperation) :
  commit_messages (commit_events m queue)
  = map (generateCommitMessage m) queue.
Proof.
  unfold commit_events. induction queue as [|o queue IH]; [reflexivity|].
  cbn [map commit_messages]. now rewrite IH.
Qed.

Lemma commit_messages_trailing_push (w : Gateway.t) (s : LoomSettings)
  (before : list Event) : commit_messages (trailing_push w s before) = [].
Proof.
  unfold trailing_push. destruct (autoPush s && truthy (remoteUrl s));
    [|reflexivity].
  now destruct (Gateway.push w before).
Qed.

Lemma push_calls_app (tr1 tr2 : list Event) :
  push_calls (tr1 ++ tr2) = push_calls tr1 + push_calls tr2.
Proof.
  induction tr1 as [|e tr1 IH]; [reflexivity|].
  destruct e; cbn; now rewrite ?IH.
Qed.

Lemma push_calls_announce (s : SyncStatus) (message : string)
  (callbacks : list nat) : push_calls (announce s message callbacks) = 0.
Proof. induction callbacks; [reflexivity | exact IHcallbacks]. Qed.

Lemma push_calls_commit_events (m : t) (queue : list SyncOperation) :
  push_calls (commit_events m queue) = 0.
Proof. induction queue as [|o queue IH]; [reflexivity | exact IH]. Qed.

Lemma push_calls_trailing_push (w : Gateway.t) (s : LoomSettings)
  (before : list Event) :
  push_calls (trailing_push w s before)
  = if autoPush s && truthy (remoteUrl s) then 1 else 0.
Proof.
  unfold trailing_push. destruct (autoPush s && truthy (remoteUrl s));
    [|reflexivity].
  now destruct (Gateway.push w before).
Qed.

(** What [handleFileChange] hands to [processQueue] when it does not drop
    the event. *)
Lemma handleFileChange_enqueues (w : Gateway.t) (file : TFile)
  (action : FileChangeAction) (m : t) :
  status m = idle \/ status m = syncing ->
  handleFileChange w file action m
  = processQueue w
      (set_syncQueue (syncQueue m ++ [mkOp file action (now m) 0]) m).
Proof. intros [H | H]; unfold handleFileChange; now rewrite H. Qed.

End SuccessfulPassSummary.

(** X1. When the Gateway accepts every commit and no pass is under way,
    a file change that is not dropped empties the queue in one pass: the
    Gateway is asked one commit for each queued operation, the oldest
    first and the new one last, each with the message generated for it; the
    manager ends idle, with the guard cleared and the time of the last
    sync set. *)
Theorem queue_is_drained_in_order (w : Gateway.t) (m : t) (file : TFile)
  (action : FileChangeAction) :
  accepts w ->
  isProcessingQueue m = false ->
  status m = idle \/ status m = syncing ->
  let operation := mkOp file action (now m) 0 in
  let m' := snd (handleFileChange w file action m) in
  commit_messages (trace m')
  = commit_messages (trace m)
    ++ map (generateCommitMessage m) (syncQueue m ++ [operation])
  /\ syncQueue m' = []
  /\ status m' = idle
  /\ isProcessingQueue m' = false
  /\ lastSyncTime m' = Some (now m).
Proof.
  intros Haccepts Hproc Hstatus operation m'. subst m'.
  rewrite handleFileChange_enqueues by exact Hstatus.
  rewrite (successful_pass w Haccepts) by
    (try exact Hproc; cbn; now destruct (syncQueue m)).
  cbn [snd syncQueue status isProcessingQueue lastSyncTime trace now
       set_syncQueue statusCallbacks settings].
  repeat split.
  rewrite !commit_messages_app, !commit_messages_announce,
    commit_messages_commit_events, commit_messages_trailing_push.
  cbn [app]. now rewrite app_nil_r.
Qed.

Lemma queue_is_drained_in_order_witness :
  let m := set_syncQueue [mkOp Sample.note_a create 0%N 1]
             (Sample.manager DEFAULT_SETTINGS) in
  accepts Sample.healthy
  /\ commit_messages
       (trace (snd (handleFileChange Sample.healthy Sample.note_b modify m)))
     = ["Created: a.md"; "Updated: b.md"].
Proof.
  cbv zeta.
  assert (H : accepts Sample.healthy) by (intros tr message paths; reflexivity).
  split; [exact H|].
  exact (proj1 (queue_is_drained_in_order Sample.healthy
                  (set_syncQueue [mkOp Sample.note_a create 0%N 1]
                     (Sample.manager DEFAULT_SETTINGS))
                  Sample.note_b modify H eq_refl (or_introl eq_refl))).
Defined.

(** X2. The push at the end of a pass is best effort.  When every commit of
    the pass is accepted, the Gateway is asked to push exactly once if
    auto-push is on and a remote is configured, and not at all otherwise;
    the push is asked after the last commit; and whether it fails or not the
    manager ends idle. *)
Theorem trailing_push_is_best_effort (w : Gateway.t) (m : t) (file : TFile)
  (action : FileChangeAction) :
  accepts w ->
  isProcessingQueue m = false ->
  status m = idle \/ status m = syncing ->
  let queue := syncQueue m ++ [mkOp file action (now m) 0] in
  let m' := snd (handleFileChange w file action m) in
  let before :=
    trace m ++ announce syncing "Processing file changes" (statusCallbacks m)
    ++ commit_events m queue in
  trace m'
  = before ++ trailing_push w (settings m) before
    ++ announce idle "Sync completed" (statusCallbacks m)
  /\ push_calls (trace m')
     = push_calls (trace m)
       + (if autoPush (settings m) && truthy (remoteUrl (settings m))
          then 1 else 0)
  /\ status m' = idle.
Proof.
  intros Haccepts Hproc Hstatus queue m' before. subst m' before queue.
  rewrite handleFileChange_enqueues by exact Hstatus.
  rewrite (successful_pass w Haccepts) by
    (try exact Hproc; cbn; now destruct (syncQueue m)).
  cbn [snd syncQueue status isProcessingQueue lastSyncTime trace now
       set_syncQueue statusCallbacks settings].
  change (commit_events (set_syncQueue ?q m)) with (commit_events m).
  repeat split.
  - now rewrite <- !app_assoc.
  - rewrite !push_calls_app, !push_calls_announce, push_calls_commit_events,
      push_calls_trailing_push. lia.
Qed.

Lemma trailing_push_is_best_effort_witness :
  let s := mkSettings "https://example.org/vault.git" "main" https true
             "{action}: {filename}" 500%N [] "" "" true true 0%N false in
  let m' := snd (handleFileChange Sample.unreachable Sample.note_a modify
                   (Sample.manager s)) in
  accepts Sample.unreachable
  /\ push_calls (trace m') = 1
  /\ status m' = idle.
Proof.
  cbv zeta.
  assert (H : accepts Sample.unreachable)
    by (intros tr message paths; reflexivity).
  split; [exact H|].
  exact (proj2 (trailing_push_is_best_effort Sample.unreachable
                  (Sample.manager
                     (mkSettings "https://example.org/vault.git" "main" https
                        true "{action}: {filename}" 500%N [] "" "" true true
                        0%N false))
                  Sample.note_a modify H eq_refl (or_introl eq_refl))).
Defined.

(** ** Commits that fail a few times *)

Section Flaky.

Variable k : nat.

Lemma attempt_flaky (operation : SyncOperation) gs se st ls q pq cbs nw tr :
  attempt (flaky k) operation (mk gs se st ls q pq cbs nw tr)
  = if Nat.ltb (commit_calls tr) k then
      (Throw "Failed to commit: try again",
       mk gs se st ls q pq cbs nw
         (tr ++ [CallCommit
                   (generateCommitMessage (mk gs se st ls q pq cbs nw tr)
                      operation)
                   (staged operation) (Some "Failed to commit: try again")]))
    else
      (Normal tt,
       mk gs se st ls q pq cbs nw
         (tr ++ [CallCommit
                   (generateCommitMessage (mk gs se st ls q pq cbs nw tr)
                      operation)
                   (staged operation) None])).
Proof.
  unfold attempt, staged, gitCommit, emit, set_trace.
  cbn [gitService settings status lastSyncTime syncQueue isProcessingQueue
       statusCallbacks now trace flaky Gateway.commit].
  destruct (action operation), (Nat.ltb (commit_calls tr) k); reflexivity.
Qed.

(** With [remaining] retries left, [failures] refusals no more than that
    are ridden out. *)
Lemma retry_from_flaky (operation : SyncOperation) (failures : nat) :
  forall remaining n gs se st ls q pq cbs nw tr,
    failures <= remaining ->
    k = commit_calls tr + failures ->
    Utils.retry_from sleep (attempt (flaky k) operation) remaining n 1000%N
      (mk gs se st ls q pq cbs nw tr)
    = (Normal tt,
       mk gs se st ls q pq cbs (nw + backoff_time n failures)%N
         (tr ++ backoff_trace
                  (generateCommitMessage (mk gs se st ls q pq cbs nw tr)
                     operation)
                  (staged operation) n failures)).
Proof.
  induction failures as [|failures IH];
    intros remaining n gs se st ls q pq cbs nw tr Hle Hk.
  - assert (Hltb : Nat.ltb (commit_calls tr) k = false)
      by (apply Nat.ltb_ge; lia).
    destruct remaining; cbn [Utils.retry_from]; rewrite attempt_flaky, Hltb;
      cbn [backoff_time backoff_trace]; now rewrite N.add_0_r.
  - assert (Hltb : Nat.ltb (commit_calls tr) k = true)
      by (apply Nat.ltb_lt; lia).
    destruct remaining as [|remaining]; [lia|].
    cbn [Utils.retry_from]. rewrite attempt_flaky, Hltb.
    unfold sleep, emit, set_trace.
    cbn [gitService settings status lastSyncTime syncQueue isProcessingQueue
         statusCallbacks now trace].
    rewrite IH.
    + cbn [backoff_time backoff_trace].
      unfold generateCommitMessage.
      cbn [gitService]. rewrite <- !app_assoc, N.add_assoc. reflexivity.
    + lia.
    + rewrite !commit_calls_app. cbn [commit_calls]. lia.
Qed.

End Flaky.

(** X3. Refusals that the retries can ride out never show.  When the
    Gateway refuses the next [failures] commits, [failures] being at most 2,
    and accepts the one after, a file change on an idle manager with an
    empty queue ends with the manager idle and the queue empty: the commit
    was asked [failures + 1] times, with sleeps of 1000 and 2000
    milliseconds in between, the operation was not put back, and the only
    statuses announced are [syncing] and [idle]. *)
Theorem transient_failures_are_absorbed (k failures : nat) (m : t)
  (file : TFile) (action : FileChangeAction) :
  failures <= 2 ->
  k = commit_calls (trace m) + failures ->
  isProcessingQueue m = false ->
  syncQueue m = [] ->
  status m = idle \/ status m = syncing ->
  let operation := mkOp file action (now m) 0 in
  let m' := snd (handleFileChange (flaky k) file action m) in
  let before :=
    trace m ++ announce syncing "Processing file changes" (statusCallbacks m)
    ++ backoff_trace (generateCommitMessage m operation) (staged operation)
         0 failures in
  trace m'
  = before ++ trailing_push (flaky k) (settings m) before
    ++ announce idle "Sync completed" (statusCallbacks m)
  /\ status m' = idle
  /\ syncQueue m' = []
  /\ isProcessingQueue m' = false
  /\ now m' = (now m + backoff_time 0 failures)%N.
Proof.
  intros Hle Hk Hproc Hq Hstatus operation m' before.
  subst m' before operation.
  rewrite handleFileChange_enqueues by exact Hstatus.
  destruct m as [gs se st ls q pq cbs nw tr].
  cbn [isProcessingQueue syncQueue trace] in Hproc, Hq, Hk. subst pq q.
  set (operation := mkOp file action nw 0).
  set (message := generateCommitMessage
                    (mk gs se st ls [] false cbs nw tr) operation).
  set (before := tr ++ announce syncing "Processing file changes" cbs
                 ++ backoff_trace message (staged operation) 0 failures).
  assert (Hrun :
    processQueue (flaky k) (mk gs se st ls [operation] false cbs nw tr)
    = (Normal tt,
       mk gs se idle (Some (nw + backoff_time 0 failures)%N) [] false cbs
         (nw + backoff_time 0 failures)%N
         (before ++ trailing_push (flaky k) se before
          ++ announce idle "Sync completed" cbs))).
  { unfold processQueue.
    cbn [isProcessingQueue syncQueue List.length Nat.eqb orb].
    rewrite updateStatus_eq.
    unfold set_trace, set_status, set_isProcessingQueue.
    cbn [isProcessingQueue syncQueue List.length gitService settings status
         lastSyncTime statusCallbacks now trace drain].
    unfold processSyncOperation, Utils.retry, set_syncQueue.
    cbn [isProcessingQueue syncQueue gitService settings status
         lastSyncTime statusCallbacks now trace].
    rewrite (retry_from_flaky k operation failures) by
      (try exact Hle; rewrite commit_calls_app, commit_calls_announce; lia).
    cbn [drain syncQueue].
    change (generateCommitMessage
              (mk gs se syncing ls [] true cbs nw
                 (tr ++ announce syncing "Processing file changes" cbs))
              operation) with message.
    unfold trailing_push, gitPush.
    cbn [isProcessingQueue syncQueue gitService settings status lastSyncTime
         statusCallbacks now trace flaky Gateway.push].
    destruct (autoPush se && truthy (remoteUrl se));
      unfold emit, set_trace, set_lastSyncTime;
      cbn [isProcessingQueue syncQueue gitService settings status
           lastSyncTime statusCallbacks now trace];
      rewrite updateStatus_eq;
      unfold set_trace, set_status, set_isProcessingQueue;
      cbn [isProcessingQueue syncQueue gitService settings status
           lastSyncTime statusCallbacks now trace];
      subst before; rewrite <- ?app_assoc; reflexivity. }
  unfold set_syncQueue.
  cbn [isProcessingQueue syncQueue gitService settings status lastSyncTime
       statusCallbacks now trace app].
  fold operation. rewrite Hrun.
  cbn [snd isProcessingQueue syncQueue gitService settings status
       lastSyncTime statusCallbacks now trace].
  repeat split.
Qed.

Lemma transient_failures_are_absorbed_witness :
  let m' := snd (handleFileChange (flaky 2) Sample.note_a create
                   (Sample.manager DEFAULT_SETTINGS)) in
  status m' = idle
  /\ syncQueue m' = []
  /\ now m' = 3000%N.
Proof.
  cbv zeta.
  destruct (transient_failures_are_absorbed 2 2
              (Sample.manager DEFAULT_SETTINGS) Sample.note_a create
              (le_n 2) eq_refl eq_refl eq_refl (or_introl eq_refl))
    as [_ [Hs [Hq [_ Hn]]]].
  repeat split; assumption.
Defined.

(** ** The guard of the queue *)

Section Guard.

Variable w : Gateway.t.

Lemma status_notice (text : string) (m : t) :
  status (notice text m) = status m
  /\ isProcessingQueue (notice text m) = isProcessingQueue m
  /\ syncQueue (notice text m) = syncQueue m.
Proof. unfold notice. now destruct (showNotifications (settings m)). Qed.

(** A pass that runs ends with the guard cleared, idle or in error. *)
Lemma processQueue_ends (m : t) :
  isProcessingQueue m = false ->
  syncQueue m <> [] ->
  isProcessingQueue (snd (processQueue w m)) = false
  /\ (status (snd (processQueue w m)) = idle
      \/ status (snd (processQueue w m)) = error).
Proof.
  intros Hproc Hq. unfold processQueue. rewrite Hproc.
  destruct (syncQueue m) as [|o q] eqn:Eq; [now elim Hq|].
  cbn [List.length Nat.eqb orb].
  set (m0 := updateStatus syncing _ _).
  pose proof (drain_has_fuel w (List.length (syncQueue m0)) m0 (le_n _)) as Hd.
  destruct (drain w _ m0) as [[u|e|] m1]; cbn [fst snd] in *.
  - rewrite updateStatus_eq. split; [reflexivity | now left].
  - destruct (status_notice ("Sync failed: " ++ e)%string
                (updateStatus error ("Sync failed: " ++ e)%string m1))
      as [Hs _].
    split; [reflexivity|]. right.
    cbn [status set_isProcessingQueue]. rewrite Hs.
    now rewrite updateStatus_eq.
  - now elim Hd.
Qed.

End Guard.

(** X4. The guard keeps passes from nesting and is always released.  A file
    change that arrives while a pass is under way is only put at the back of
    the queue: no call of the Gateway, no announcement, same status.  A file
    change that arrives when no pass is under way returns with the guard
    cleared and never leaves the manager in status [syncing]. *)
Theorem the_guard_serializes_passes (w : Gateway.t) (m : t) (file : TFile)
  (action : FileChangeAction) :
  (isProcessingQueue m = true ->
   status m = idle \/ status m = syncing ->
   handleFileChange w file action m
   = (Normal tt,
      set_syncQueue (syncQueue m ++ [mkOp file action (now m) 0]) m))
  /\
  (isProcessingQueue m = false ->
   isProcessingQueue (snd (handleFileChange w file action m)) = false
   /\ status (snd (handleFileChange w file action m)) <> syncing).
Proof.
  split.
  - intros Hproc Hstatus.
    rewrite handleFileChange_enqueues by exact Hstatus.
    unfold processQueue. cbn [isProcessingQueue set_syncQueue].
    now rewrite Hproc.
  - intros Hproc.
    destruct (status m) eqn:Hs.
    + rewrite handleFileChange_enqueues by (now left).
      destruct (processQueue_ends w
                  (set_syncQueue (syncQueue m ++ [mkOp file action (now m) 0])
                     m) Hproc) as [Hg [Hi | He]].
      * cbn. now destruct (syncQueue m).
      * split; [exact Hg | now rewrite Hi].
      * split; [exact Hg | now rewrite He].
    + rewrite handleFileChange_enqueues by (now right).
      destruct (processQueue_ends w
                  (set_syncQueue (syncQueue m ++ [mkOp file action (now m) 0])
                     m) Hproc) as [Hg [Hi | He]].
      * cbn. now destruct (syncQueue m).
      * split; [exact Hg | now rewrite Hi].
      * split; [exact Hg | now rewrite He].
    + unfold handleFileChange. rewrite Hs. cbn [snd].
      split; [exact Hproc | now rewrite Hs].
    + unfold handleFileChange. rewrite Hs. cbn [snd].
      split; [exact Hproc | now rewrite Hs].
Qed.

Lemma the_guard_serializes_passes_witness :
  (let m := set_isProcessingQueue true (Sample.manager DEFAULT_SETTINGS) in
   handleFileChange Sample.stubborn Sample.note_a create m
   = (Normal tt, set_syncQueue [mkOp Sample.note_a create 0%N 0] m))
  /\ status (snd (handleFileChange Sample.stubborn Sample.note_a create
                    (Sample.manager DEFAULT_SETTINGS))) <> syncing.
Proof.
  split.
  - exact (proj1 (the_guard_serializes_passes Sample.stubborn
                    (set_isProcessingQueue true
                       (Sample.manager DEFAULT_SETTINGS))
                    Sample.note_a create) eq_refl (or_introl eq_refl)).
  - exact (proj2 (proj2 (the_guard_serializes_passes Sample.stubborn
                           (Sample.manager DEFAULT_SETTINGS)
                           Sample.note_a create) eq_refl)).
Defined.

(** ** [performManualSync] *)

Section ManualSync.

Variable w : Gateway.t.

Lemma manual_sync_clean (m : t) :
  status m <> syncing ->
  Gateway.getStatus w
    (trace m ++ announce syncing "Manual sync started" (statusCallbacks m))
  = inr true ->
  performManualSync w m
  = (Normal tt,
     mk (gitService m) (settings m) idle (lastSyncTime m) (syncQueue m)
       (isProcessingQueue m) (statusCallbacks m) (now m)
       (trace m
        ++ announce syncing "Manual sync started" (statusCallbacks m)
        ++ [CallGetStatus (inr true)]
        ++ noticed (settings m) "No changes to sync"
        ++ announce idle "No changes to sync" (statusCallbacks m))).
Proof.
  intros Hs Hclean.
  destruct m as [gs se st ls q pq cbs nw tr].
  cbn [status trace statusCallbacks] in Hs, Hclean.
  unfold performManualSync, gitGetStatus.
  cbn [status].
  destruct st; try (now elim Hs);
    rewrite updateStatus_eq;
    unfold set_trace, set_status, emit;
    cbn [gitService settings status lastSyncTime syncQueue isProcessingQueue
         statusCallbacks now trace];
    rewrite Hclean; unfold notice, noticed, emit, set_trace;
    cbn [gitService settings status lastSyncTime syncQueue isProcessingQueue
         statusCallbacks now trace];
    destruct (showNotifications se);
    rewrite updateStatus_eq;
    unfold set_trace, set_status;
    cbn [gitService settings status lastSyncTime syncQueue isProcessingQueue
         statusCallbacks now trace];
    rewrite <- ?app_assoc; reflexivity.
Qed.

Lemma same_queue_trans (m1 m2 m3 : t) :
  same_queue m1 m2 -> same_queue m2 m3 -> same_queue m1 m3.
Proof. intros [H1 H2] [H3 H4]. split; congruence. Qed.

Lemma same_queue_updateStatus (s : SyncStatus) (message : string) (m : t) :
  same_queue m (updateStatus s message m).
Proof. rewrite updateStatus_eq. now split. Qed.

Lemma same_queue_notice (text : string) (m : t) :
  same_queue m (notice text m).
Proof. unfold notice. now destruct (showNotifications (settings m)). Qed.

Lemma same_queue_gitGetStatus (m : t) :
  same_queue m (snd (gitGetStatus w m)).
Proof. unfold gitGetStatus. now destruct (Gateway.getStatus w _). Qed.

Lemma same_queue_gitCommit (message : string) (paths : option (list string))
  (m : t) : same_queue m (snd (gitCommit w message paths m)).
Proof. unfold gitCommit. now destruct (Gateway.commit w _ _ _). Qed.

Lemma same_queue_gitPush (m : t) : same_queue m (snd (gitPush w m)).
Proof. unfold gitPush. now destruct (Gateway.push w _). Qed.

(** How a manual sync that found the manager in [m] may leave it. *)
Lemma manual_sync_leaf_idle (m x : t) (message text : string) :
  same_queue m x ->
  same_queue m (updateStatus idle message (notice text x))
  /\ status (updateStatus idle message (notice text x)) = idle.
Proof.
  intros H. split.
  - eapply same_queue_trans; [exact H|].
    eapply same_queue_trans;
      [apply same_queue_notice | apply same_queue_updateStatus].
  - now rewrite updateStatus_eq.
Qed.

Lemma manual_sync_leaf_error (m x : t) (message : string) :
  same_queue m x ->
  same_queue m (notice message (updateStatus error message x))
  /\ status (notice message (updateStatus error message x)) = error.
Proof.
  intros H. split.
  - eapply same_queue_trans; [exact H|].
    eapply same_queue_trans;
      [apply same_queue_updateStatus | apply same_queue_notice].
  - destruct (status_notice message (updateStatus error message x)) as [Hs _].
    rewrite Hs. now rewrite updateStatus_eq.
Qed.

(** Whatever the Gateway does, a manual sync keeps the queue and the guard,
    and ends idle or in error unless it found the manager syncing. *)
Lemma manual_sync_ends (m : t) :
  same_queue m (snd (performManualSync w m))
  /\ (status m <> syncing ->
      status (snd (performManualSync w m)) = idle
      \/ status (snd (performManualSync w m)) = error).
Proof.
  assert (Hgo : status m <> syncing ->
            forall m0, m0 = updateStatus syncing "Manual sync started" m ->
            forall r, r = snd
              match gitGetStatus w m0 with
              | (Normal true, m) =>
                  let m := notice "No changes to sync" m in
                  (Normal tt, updateStatus idle "No changes to sync" m)
              | (Normal false, m) =>
                  match gitCommit w "Manual sync from Loom" None m with
                  | (Normal _, m) =>
                      match
                        (if autoPush (settings m)
                            && truthy (remoteUrl (settings m))
                         then gitPush w m else (Normal tt, m))
                      with
                      | (Normal _, m) =>
                          let m := set_lastSyncTime (Some (now m)) m in
                          let m := notice "Manual sync completed" m in
                          (Normal tt,
                           updateStatus idle "Manual sync completed" m)
                      | (Throw e, m) =>
                          (Normal tt,
                           notice ("Manual sync failed: " ++ e)%string
                             (updateStatus error
                                ("Manual sync failed: " ++ e)%string m))
                      | (OutOfFuel, m) => (OutOfFuel, m)
                      end
                  | (Throw e, m) =>
                      (Normal tt,
                       notice ("Manual sync failed: " ++ e)%string
                         (updateStatus error
                            ("Manual sync failed: " ++ e)%string m))
                  | (OutOfFuel, m) => (OutOfFuel, m)
                  end
              | (Throw e, m) =>
                  (Normal tt,
                   notice ("Manual sync failed: " ++ e)%string
                     (updateStatus error
                        ("Manual sync failed: " ++ e)%string m))
              | (OutOfFuel, m) => (OutOfFuel, m)
              end ->
            same_queue m r /\ (status r = idle \/ status r = error)).
  { intros _ m0 Hm0 r Hr.
    assert (H0 : same_queue m m0)
      by (subst m0; apply same_queue_updateStatus).
    clear Hm0.
    pose proof (same_queue_gitGetStatus m0) as Hs.
    unfold gitGetStatus in Hr, Hs.
    destruct (Gateway.getStatus w (trace m0)) as [e|[|]];
      cbn [fst snd] in Hr, Hs;
      match type of Hs with
      | same_queue m0 ?x =>
          assert (H1 : same_queue m x)
            by (eapply same_queue_trans; eassumption)
      end.
    - subst r.
      destruct (manual_sync_leaf_error m _ ("Manual sync failed: " ++ e)%string
                  H1) as [Ha Hb].
      split; [exact Ha | now right].
    - subst r.
      destruct (manual_sync_leaf_idle m _ "No changes to sync"
                  "No changes to sync" H1) as [Ha Hb].
      split; [exact Ha | now left].
    - match type of H1 with same_queue m ?x => set (m1 := x) in * end.
      pose proof (same_queue_gitCommit "Manual sync from Loom" None m1) as Hc.
      unfold gitCommit in Hr, Hc.
      destruct (Gateway.commit w (trace m1) _ _) as [e|];
        cbn [fst snd] in Hr, Hc;
        match type of Hc with
        | same_queue m1 ?x =>
            assert (H2 : same_queue m x)
              by (eapply same_queue_trans; eassumption)
        end.
      + subst r.
        destruct (manual_sync_leaf_error m _
                    ("Manual sync failed: " ++ e)%string H2) as [Ha Hb].
        split; [exact Ha | now right].
      + match type of H2 with same_queue m ?x => set (m2 := x) in * end.
        destruct (autoPush (settings m2) && truthy (remoteUrl (settings m2))).
        * pose proof (same_queue_gitPush m2) as Hp.
          unfold gitPush in Hr, Hp.
          destruct (Gateway.push w (trace m2)) as [e|];
            cbn [fst snd] in Hr, Hp;
            match type of Hp with
            | same_queue m2 ?x =>
                assert (H3 : same_queue m x)
                  by (eapply same_queue_trans; eassumption)
            end.
          -- subst r.
             destruct (manual_sync_leaf_error m _
                         ("Manual sync failed: " ++ e)%string H3) as [Ha Hb].
             split; [exact Ha | now right].
          -- subst r. cbn [snd].
             match goal with
             | |- same_queue m (updateStatus idle ?msg (notice ?text ?x)) /\ _ =>
                 assert (Hx : same_queue m x) by (split; apply H3);
                 destruct (manual_sync_leaf_idle m x msg text Hx) as [Ha Hb]
             end.
             split; [exact Ha | now left].
        * subst r. cbn [snd].
          match goal with
          | |- same_queue m (updateStatus idle ?msg (notice ?text ?x)) /\ _ =>
              assert (Hx : same_queue m x) by (split; apply H2);
              destruct (manual_sync_leaf_idle m x msg text Hx) as [Ha Hb]
          end.
          split; [exact Ha | now left]. }
  unfold performManualSync.
  destruct (status m) eqn:Hs.
  - destruct (Hgo ltac:(discriminate) _ eq_refl _ eq_refl) as [Ha Hb].
    split; [exact Ha | intros _; exact Hb].
  - cbn [snd]. split; [apply same_queue_notice | intros H; now elim H].
  - destruct (Hgo ltac:(discriminate) _ eq_refl _ eq_refl) as [Ha Hb].
    split; [exact Ha | intros _; exact Hb].
  - destruct (Hgo ltac:(discriminate) _ eq_refl _ eq_refl) as [Ha Hb].
    split; [exact Ha | intros _; exact Hb].
Qed.

End ManualSync.

Section ManualSyncCounts.

Lemma commit_calls_noticed (s : LoomSettings) (text : string) :
  commit_calls (noticed s text) = 0.
Proof. unfold noticed. now destruct (showNotifications s). Qed.

Lemma push_calls_noticed (s : LoomSettings) (text : string) :
  push_calls (noticed s text) = 0.
Proof. unfold noticed. now destruct (showNotifications s). Qed.

Lemma commit_messages_noticed (s : LoomSettings) (text : string) :
  commit_messages (noticed s text) = [].
Proof. unfold noticed. now destruct (showNotifications s). Qed.

End ManualSyncCounts.

(** X5. A manual sync of a clean tree does nothing, as often as it is
    asked.  When the Gateway reports a clean tree, two manual syncs in a row
    both leave the manager idle; each announces [syncing], asks the Gateway
    for the status once, gives its notice and announces [idle], and does
    nothing else: the Gateway was asked no commit and no push, and the
    queue, the guard and the time of the last sync are what they were. *)
Theorem manual_sync_of_a_clean_tree (w : Gateway.t) (m : t) :
  (forall tr, Gateway.getStatus w tr = inr true) ->
  status m <> syncing ->
  let m1 := snd (performManualSync w m) in
  let m2 := snd (performManualSync w m1) in
  status m1 = idle /\ status m2 = idle
  /\ commit_calls (trace m2) = commit_calls (trace m)
  /\ push_calls (trace m2) = push_calls (trace m)
  /\ lastSyncTime m2 = lastSyncTime m
  /\ syncQueue m2 = syncQueue m
  /\ isProcessingQueue m2 = isProcessingQueue m
  /\ trace m1
     = trace m
       ++ announce syncing "Manual sync started" (statusCallbacks m)
       ++ [CallGetStatus (inr true)]
       ++ noticed (settings m) "No changes to sync"
       ++ announce idle "No changes to sync" (statusCallbacks m)
  /\ trace m2
     = trace m1
       ++ announce syncing "Manual sync started" (statusCallbacks m)
       ++ [CallGetStatus (inr true)]
       ++ noticed (settings m) "No changes to sync"
       ++ announce idle "No changes to sync" (statusCallbacks m).
Proof.
  intros Hclean Hs m1 m2. subst m2 m1.
  rewrite (manual_sync_clean w m Hs (Hclean _)). cbn [snd].
  rewrite manual_sync_clean by (try apply Hclean; cbn; discriminate).
  cbn [snd status trace lastSyncTime syncQueue isProcessingQueue
       statusCallbacks settings].
  refine (conj eq_refl (conj eq_refl (conj _ (conj _ (conj eq_refl
            (conj eq_refl (conj eq_refl (conj eq_refl eq_refl)))))))).
  - rewrite !commit_calls_app, !commit_calls_announce, !commit_calls_noticed.
    cbn. lia.
  - rewrite !push_calls_app, !push_calls_announce, !push_calls_noticed.
    cbn. lia.
Qed.

Lemma manual_sync_of_a_clean_tree_witness :
  let w := Gateway.mk (fun _ _ _ => None) (fun _ => None) (fun _ => None)
             (fun _ => inr true) (fun _ _ => true) true in
  let m := Sample.in_status error (Sample.manager DEFAULT_SETTINGS) in
  status (snd (performManualSync w (snd (performManualSync w m)))) = idle
  /\ commit_calls
       (trace (snd (performManualSync w (snd (performManualSync w m))))) = 0.
Proof.
  cbv zeta.
  destruct (manual_sync_of_a_clean_tree
              (Gateway.mk (fun _ _ _ => None) (fun _ => None) (fun _ => None)
                 (fun _ => inr true) (fun _ _ => true) true)
              (Sample.in_status error (Sample.manager DEFAULT_SETTINGS))
              (fun _ => eq_refl) ltac:(discriminate))
    as [_ [H2 [Hc _]]].
  split; [exact H2 | exact Hc].
Defined.

(** X6. A manual sync never throws and never touches the queue.  Whatever
    the Gateway answers, [performManualSync] returns normally, with the
    queue and the guard as they were.  If it found the manager syncing it
    called nothing and changed no status; otherwise it ends idle or in
    error. *)
Theorem manual_sync_reports_by_status (w : Gateway.t) (m : t) :
  fst (performManualSync w m) = Normal tt
  /\ syncQueue (snd (performManualSync w m)) = syncQueue m
  /\ isProcessingQueue (snd (performManualSync w m)) = isProcessingQueue m
  /\ (status m = syncing ->
      status (snd (performManualSync w m)) = syncing
      /\ trace (snd (performManualSync w m))
         = trace m ++ noticed (settings m) "Sync already in progress")
  /\ (status m <> syncing ->
      status (snd (performManualSync w m)) = idle
      \/ status (snd (performManualSync w m)) = error).
Proof.
  destruct (manual_sync_ends w m) as [[Hq Hg] Hs].
  refine (conj (performManualSync_returns w m)
            (conj Hq (conj Hg (conj _ Hs)))).
  intros Hsync. unfold performManualSync. rewrite Hsync. cbn [snd].
  unfold notice, noticed.
  destruct (showNotifications (settings m)); cbn;
    now rewrite ?app_nil_r.
Qed.

Lemma manual_sync_reports_by_status_witness :
  let busy := Sample.in_status syncing (Sample.manager DEFAULT_SETTINGS) in
  let failing := Sample.manager DEFAULT_SETTINGS in
  status (snd (performManualSync Sample.no_repository busy)) = syncing
  /\ (status (snd (performManualSync Sample.no_repository failing)) = idle
      \/ status (snd (performManualSync Sample.no_repository failing)) = error).
Proof.
  cbv zeta. split.
  - exact (proj1 (proj1 (proj2 (proj2 (proj2
             (manual_sync_reports_by_status Sample.no_repository
                (Sample.in_status syncing (Sample.manager DEFAULT_SETTINGS))))))
             eq_refl)).
  - exact (proj2 (proj2 (proj2 (proj2
             (manual_sync_reports_by_status Sample.no_repository
                (Sample.manager DEFAULT_SETTINGS)))))
             ltac:(discriminate)).
Defined.

Section ManualSyncDirty.

Variable w : Gateway.t.

(** A manual sync of a dirty tree whose commit is accepted. *)
Lemma manual_sync_dirty (m : t) :
  status m <> syncing ->
  let started :=
    trace m ++ announce syncing "Manual sync started" (statusCallbacks m) in
  let committed :=
    started ++ [CallGetStatus (inr false);
                CallCommit "Manual sync from Loom" None None] in
  Gateway.getStatus w started = inr false ->
  Gateway.commit w (started ++ [CallGetStatus (inr false)])
    "Manual sync from Loom" None = None ->
  performManualSync w m
  = (Normal tt,
     if autoPush (settings m) && truthy (remoteUrl (settings m)) then
       match Gateway.push w committed with
       | None =>
           mk (gitService m) (settings m) idle (Some (now m)) (syncQueue m)
             (isProcessingQueue m) (statusCallbacks m) (now m)
             (committed ++ [CallPush None]
              ++ noticed (settings m) "Manual sync completed"
              ++ announce idle "Manual sync completed" (statusCallbacks m))
       | Some e =>
           mk (gitService m) (settings m) error (lastSyncTime m) (syncQueue m)
             (isProcessingQueue m) (statusCallbacks m) (now m)
             (committed ++ [CallPush (Some e)]
              ++ announce error ("Manual sync failed: " ++ e)%string
                   (statusCallbacks m)
              ++ noticed (settings m) ("Manual sync failed: " ++ e)%string)
       end
     else
       mk (gitService m) (settings m) idle (Some (now m)) (syncQueue m)
         (isProcessingQueue m) (statusCallbacks m) (now m)
         (committed
          ++ noticed (settings m) "Manual sync completed"
          ++ announce idle "Manual sync completed" (statusCallbacks m))).
Proof.
  intros Hs started committed Hdirty Hcommit. subst committed started.
  destruct m as [gs se st ls q pq cbs nw tr].
  cbn [status trace statusCallbacks settings gitService lastSyncTime
       syncQueue isProcessingQueue now] in *.
  unfold performManualSync, gitGetStatus, gitCommit, gitPush.
  cbn [status].
  destruct st; try (now elim Hs);
    rewrite updateStatus_eq;
    unfold set_trace, set_status, emit;
    cbn [gitService settings status lastSyncTime syncQueue isProcessingQueue
         statusCallbacks now trace];
    rewrite Hdirty;
    unfold set_trace;
    cbn [gitService settings status lastSyncTime syncQueue isProcessingQueue
         statusCallbacks now trace];
    rewrite Hcommit;
    cbn [gitService settings status lastSyncTime syncQueue isProcessingQueue
         statusCallbacks now trace];
    rewrite <- !app_assoc; cbn [app];
    (destruct (autoPush se && truthy (remoteUrl se));
     [ destruct (Gateway.push w _) as [e|] | ]);
    unfold notice, noticed, emit, set_trace, set_lastSyncTime;
    cbn [gitService settings status lastSyncTime syncQueue isProcessingQueue
         statusCallbacks now trace];
    rewrite ?updateStatus_eq;
    unfold set_trace, set_status;
    cbn [gitService settings status lastSyncTime syncQueue isProcessingQueue
         statusCallbacks now trace];
    destruct (showNotifications se);
    rewrite ?updateStatus_eq;
    unfold set_trace, set_status;
    cbn [gitService settings status lastSyncTime syncQueue isProcessingQueue
         statusCallbacks now trace];
    rewrite <- ?app_assoc; cbn [app]; rewrite ?app_nil_r; reflexivity.
Qed.

End ManualSyncDirty.

(** X7. A manual sync of a dirty tree asks one commit, of the whole tree,
    with the fixed message, and then pushes if auto-push is on and a remote
    is configured.  Unlike the push at the end of a pass of the queue, this
    push counts: if it fails, the manager ends in error and the time of the
    last sync stays as it was, although the commit has been made. *)
Theorem manual_sync_of_a_dirty_tree (w : Gateway.t) (m : t) :
  status m <> syncing ->
  let started :=
    trace m ++ announce syncing "Manual sync started" (statusCallbacks m) in
  let committed :=
    started ++ [CallGetStatus (inr false);
                CallCommit "Manual sync from Loom" None None] in
  let pushed :=
    if autoPush (settings m) && truthy (remoteUrl (settings m))
    then Gateway.push w committed else None in
  Gateway.getStatus w started = inr false ->
  Gateway.commit w (started ++ [CallGetStatus (inr false)])
    "Manual sync from Loom" None = None ->
  let m' := snd (performManualSync w m) in
  commit_messages (trace m')
  = commit_messages (trace m) ++ ["Manual sync from Loom"]
  /\ In (CallCommit "Manual sync from Loom" None None) (trace m')
  /\ push_calls (trace m')
     = push_calls (trace m)
       + (if autoPush (settings m) && truthy (remoteUrl (settings m))
          then 1 else 0)
  /\ status m' = match pushed with None => idle | Some _ => error end
  /\ lastSyncTime m'
     = match pushed with None => Some (now m) | Some _ => lastSyncTime m end.
Proof.
  intros Hs started committed pushed Hdirty Hcommit m'.
  subst m' pushed.
  rewrite (manual_sync_dirty w m Hs Hdirty Hcommit). cbn [snd].
  fold started. fold committed.
  assert (Hin : In (CallCommit "Manual sync from Loom" None None) committed).
  { subst committed. apply in_or_app. right. right. now left. }
  assert (Hmsgs : commit_messages committed
                  = commit_messages (trace m) ++ ["Manual sync from Loom"]).
  { subst committed started.
    rewrite !commit_messages_app, commit_messages_announce. cbn.
    now rewrite app_nil_r. }
  assert (Hpush : push_calls committed = push_calls (trace m)).
  { subst committed started.
    rewrite !push_calls_app, push_calls_announce. cbn. lia. }
  destruct (autoPush (settings m) && truthy (remoteUrl (settings m)));
    [destruct (Gateway.push w committed) as [e|]|];
    cbn [status trace lastSyncTime];
    rewrite ?commit_messages_app, ?commit_messages_announce,
      ?commit_messages_noticed, ?push_calls_app, ?push_calls_announce,
      ?push_calls_noticed, Hmsgs, ?Hpush;
    cbn [commit_messages push_calls app]; rewrite ?app_nil_r;
    (repeat split; try lia; try reflexivity);
    apply in_or_app; now left.
Qed.

Lemma manual_sync_of_a_dirty_tree_witness :
  let s := mkSettings "https://example.org/vault.git" "main" https true
             "{action}: {filename}" 500%N [] "" "" true true 0%N false in
  let m' := snd (performManualSync Sample.unreachable (Sample.manager s)) in
  commit_messages (trace m') = ["Manual sync from Loom"]
  /\ status m' = error.
Proof.
  cbv zeta.
  destruct (manual_sync_of_a_dirty_tree Sample.unreachable
              (Sample.manager
                 (mkSettings "https://example.org/vault.git" "main" https
                    true "{action}: {filename}" 500%N [] "" "" true true
                    0%N false))
              ltac:(discriminate) eq_refl eq_refl)
    as [Hm [_ [_ [Hs _]]]].
  split; [exact Hm | exact Hs].
Defined.

(** X8. Only an explicit action brings the manager back.  In status
    [error] or [offline] a file change is dropped, so the operations that
    earlier passes put back stay in the queue.  After a manual sync that
    finds the tree clean, the next file change is taken, and its pass first
    commits the operations that were waiting, in their order, and then the
    new one. *)
Theorem manual_sync_revives_the_queue (w : Gateway.t) (m : t) (file : TFile)
  (action : FileChangeAction) :
  accepts w ->
  (forall tr, Gateway.getStatus w tr = inr true) ->
  status m = error \/ status m = offline ->
  isProcessingQueue m = false ->
  let revived := snd (performManualSync w m) in
  let m' := snd (handleFileChange w file action revived) in
  handleFileChange w file action m = (Normal tt, m)
  /\ status revived = idle
  /\ syncQueue revived = syncQueue m
  /\ commit_messages (trace m')
     = commit_messages (trace m)
       ++ map (generateCommitMessage m)
            (syncQueue m ++ [mkOp file action (now m) 0])
  /\ syncQueue m' = []
  /\ status m' = idle.
Proof.
  intros Haccepts Hclean Hsticky Hproc revived m'. subst m' revived.
  assert (Hs : status m <> syncing)
    by (destruct Hsticky as [H | H]; rewrite H; discriminate).
  split.
  { unfold handleFileChange. now destruct Hsticky as [-> | ->]. }
  rewrite (manual_sync_clean w m Hs (Hclean _)). cbn [snd status syncQueue].
  split; [reflexivity|]. split; [reflexivity|].
  rewrite handleFileChange_enqueues by (now left).
  rewrite (successful_pass w Haccepts);
    [ | exact Hproc
      | cbn [syncQueue set_syncQueue]; intros H; apply app_eq_nil in H;
        destruct H as [_ H]; discriminate H ].
  cbn [snd syncQueue status isProcessingQueue lastSyncTime trace now
       set_syncQueue statusCallbacks settings].
  split; [|now split].
  rewrite !commit_messages_app, !commit_messages_announce,
    commit_messages_commit_events, commit_messages_trailing_push,
    commit_messages_noticed.
  cbn [commit_messages app]. now rewrite !app_nil_r.
Qed.

Lemma manual_sync_revives_the_queue_witness :
  let w := Gateway.mk (fun _ _ _ => None) (fun _ => None) (fun _ => None)
             (fun _ => inr true) (fun _ _ => true) true in
  let m := set_syncQueue [mkOp Sample.note_a create 0%N 1]
             (Sample.in_status error (Sample.manager DEFAULT_SETTINGS)) in
  accepts w
  /\ commit_messages
       (trace (snd (handleFileChange w Sample.note_b modify
                      (snd (performManualSync w m)))))
     = ["Created: a.md"; "Updated: b.md"].
Proof.
  cbv zeta.
  assert (H : accepts
                (Gateway.mk (fun _ _ _ => None) (fun _ => None)
                   (fun _ => None) (fun _ => inr true) (fun _ _ => true)
                   true))
    by (intros tr message paths; reflexivity).
  split; [exact H|].
  exact (proj1 (proj2 (proj2 (proj2
           (manual_sync_revives_the_queue _
              (set_syncQueue [mkOp Sample.note_a create 0%N 1]
                 (Sample.in_status error (Sample.manager DEFAULT_SETTINGS)))
              Sample.note_b modify H (fun _ => eq_refl)
              (or_introl eq_refl) eq_refl))))).
Defined.

(** ** Subscribing and unsubscribing *)

Section Subscribers.

Lemma count_remove_first (callback other : nat) (l : list nat) :
  count_occ Nat.eq_dec (remove_first callback l) other
  = if Nat.eqb other callback
    then pred (count_occ Nat.eq_dec l other)
    else count_occ Nat.eq_dec l other.
Proof.
  induction l as [|c l IH].
  - cbn. now destruct (Nat.eqb other callback).
  - cbn [remove_first]. destruct (Nat.eqb c callback) eqn:Ec.
    + apply Nat.eqb_eq in Ec. subst c. cbn [count_occ].
      destruct (Nat.eq_dec callback other) as [->|Hne].
      * now rewrite Nat.eqb_refl.
      * destruct (Nat.eqb other callback) eqn:Eo; [|reflexivity].
        apply Nat.eqb_eq in Eo. now elim Hne.
    + apply Nat.eqb_neq in Ec. cbn [count_occ]. rewrite IH.
      destruct (Nat.eq_dec c other) as [->|Hne]; [|reflexivity].
      destruct (Nat.eqb other callback) eqn:Eo; [|reflexivity].
      apply Nat.eqb_eq in Eo. now elim Ec.
Qed.

Lemma remove_first_absent (callback : nat) (l : list nat) :
  ~ In callback l -> remove_first callback l = l.
Proof.
  induction l as [|c l IH]; [reflexivity|]. intros Hin. cbn.
  destruct (Nat.eqb c callback) eqn:Ec.
  - apply Nat.eqb_eq in Ec. subst c. elim Hin. now left.
  - f_equal. apply IH. intros H. apply Hin. now right.
Qed.

Lemma remove_first_last (callback : nat) (l : list nat) :
  ~ In callback l -> remove_first callback (l ++ [callback]) = l.
Proof.
  induction l as [|c l IH]; intros Hin.
  - cbn. now rewrite Nat.eqb_refl.
  - cbn. destruct (Nat.eqb c callback) eqn:Ec.
    + apply Nat.eqb_eq in Ec. subst c. elim Hin. now left.
    + f_equal. apply IH. intros H. apply Hin. now right.
Qed.

Lemma remove_first_split (callback : nat) (before after : list nat) :
  ~ In callback before ->
  remove_first callback (before ++ callback :: after) = before ++ after.
Proof.
  induction before as [|c before IH]; intros Hin.
  - cbn. now rewrite Nat.eqb_refl.
  - cbn. destruct (Nat.eqb c callback) eqn:Ec.
    + apply Nat.eqb_eq in Ec. subst c. elim Hin. now left.
    + f_equal. apply IH. intros H. apply Hin. now right.
Qed.

End Subscribers.

(** X9. [removeStatusCallback] takes away one registration of the callback,
    the oldest, and nothing else: when the array is some registrations
    without the callback, the callback, and the rest, what is left is those
    registrations and the rest, in their order, and no other field of the
    manager changes; the subscribers are then called in that order.  A
    callback that is not registered is removed without effect; registering
    a new callback and removing it again gives the manager back; and a
    callback that is registered more than once is still called, one time
    less, at every transition after one removal. *)
Theorem unsubscribing_removes_one_registration (callback : nat) (m : t) :
  (forall other,
     count_occ Nat.eq_dec
       (statusCallbacks (removeStatusCallback callback m)) other
     = if Nat.eqb other callback
       then pred (count_occ Nat.eq_dec (statusCallbacks m) other)
       else count_occ Nat.eq_dec (statusCallbacks m) other)
  /\ (~ In callback (statusCallbacks m) ->
      removeStatusCallback callback m = m
      /\ removeStatusCallback callback (onStatusChange callback m) = m)
  /\ (forall s message,
      told callback
        (announce s message
           (statusCallbacks (removeStatusCallback callback m)))
      = repeat s (pred (count_occ Nat.eq_dec (statusCallbacks m) callback)))
  /\ (forall before after,
      statusCallbacks m = before ++ callback :: after ->
      ~ In callback before ->
      removeStatusCallback callback m
      = mk (gitService m) (settings m) (status m) (lastSyncTime m)
          (syncQueue m) (isProcessingQueue m) (before ++ after) (now m)
          (trace m)
      /\ forall s message,
           trace (updateStatus s message (removeStatusCallback callback m))
           = trace m
             ++ announce s message before ++ announce s message after).
Proof.
  refine (conj _ (conj _ (conj _ _))).
  - intros other. apply count_remove_first.
  - intros Hin. destruct m as [gs se st ls q pq cbs nw tr].
    unfold removeStatusCallback, onStatusChange, set_statusCallbacks.
    cbn [gitService settings status lastSyncTime syncQueue isProcessingQueue
         statusCallbacks now trace] in *.
    now rewrite remove_first_absent, remove_first_last.
  - intros s message. rewrite told_announce_count.
    cbn [removeStatusCallback statusCallbacks set_statusCallbacks].
    rewrite count_remove_first. now rewrite Nat.eqb_refl.
  - intros before after Hsplit Hin.
    assert (Hrm : removeStatusCallback callback m
                  = mk (gitService m) (settings m) (status m)
                      (lastSyncTime m) (syncQueue m) (isProcessingQueue m)
                      (before ++ after) (now m) (trace m)).
    { unfold removeStatusCallback, set_statusCallbacks.
      now rewrite Hsplit, remove_first_split. }
    split; [exact Hrm|].
    intros s message. rewrite Hrm, updateStatus_eq.
    cbn [trace set_trace set_status statusCallbacks].
    unfold announce. now rewrite map_app.
Qed.

Lemma unsubscribing_removes_one_registration_witness :
  let m := constructor (GitService.mk "/vault" DEFAULT_SETTINGS)
             DEFAULT_SETTINGS in
  ~ In 1 (statusCallbacks m)
  /\ removeStatusCallback 1 (onStatusChange 1 m) = m
  /\ statusCallbacks
       (removeStatusCallback 1
          (onStatusChange 1 (onStatusChange 1 (onStatusChange 2 m))))
     = [2; 1].
Proof.
  cbv zeta.
  assert (H : ~ In 1 (statusCallbacks
                        (constructor (GitService.mk "/vault" DEFAULT_SETTINGS)
                           DEFAULT_SETTINGS))) by (intros []).
  split; [exact H|]. split.
  - exact (proj2 (proj1 (proj2 (unsubscribing_removes_one_registration 1
                                  (constructor
                                     (GitService.mk "/vault" DEFAULT_SETTINGS)
                                     DEFAULT_SETTINGS))) H)).
  - rewrite (proj1 (proj2 (proj2 (proj2
               (unsubscribing_removes_one_registration 1
                  (onStatusChange 1
                     (onStatusChange 1
                        (onStatusChange 2
                           (constructor
                              (GitService.mk "/vault" DEFAULT_SETTINGS)
                              DEFAULT_SETTINGS)))))))
               [2] [1] eq_refl
               ltac:(intros [Hx | []]; discriminate Hx))).
    reflexivity.
Defined.

(** ** Starting and stopping the watcher *)

Section WatcherStates.

Import FileWatcher.

Lemma on_timer_frame (time : N) (f : TFile) (a : FileChangeAction)
  (fw : FileWatcher.t) :
  isActive (on_timer time f a fw) = isActive fw
  /\ callback (on_timer time f a fw) = callback fw
  /\ eventRefs (on_timer time f a fw) = eventRefs fw
  /\ settings (on_timer time f a fw) = settings fw
  /\ handleFileChange (on_timer time f a fw) = handleFileChange fw.
Proof.
  unfold on_timer.
  destruct (isActive fw) eqn:Ha, (callback fw) eqn:Hc,
    (shouldIgnoreFile (settings fw) f) as [[|]|];
    cbn [isActive callback eventRefs settings handleFileChange];
    repeat split; congruence.
Qed.

Lemma tick_frame (time : N) (fw : FileWatcher.t) :
  isActive (tick time fw) = isActive fw
  /\ callback (tick time fw) = callback fw
  /\ eventRefs (tick time fw) = eventRefs fw
  /\ settings (tick time fw) = settings fw.
Proof.
  unfold tick.
  destruct (Utils.debounce_tick time (handleFileChange fw))
    as [[[f a]|] timeoutId]; [|now repeat split].
  destruct (on_timer_frame (Utils.due_of timeoutId) f a
              (mk (settings fw) (isActive fw) (callback fw) (eventRefs fw)
                 timeoutId (delivered fw))) as [H1 [H2 [H3 [H4 _]]]].
  now rewrite H1, H2, H3, H4.
Qed.

Lemma vault_listeners_frame (time : N) (kind : FileChangeAction)
  (f : TAbstractFile) (refs : list FileChangeAction) :
  forall fw : FileWatcher.t,
    let fw' :=
      fold_left
        (fun fw ref =>
           if action_eqb ref kind then
             match f with
             | IsFile file =>
                 mk (settings fw) (isActive fw) (callback fw) (eventRefs fw)
                   (Utils.debounce_call fixed_delay time (file, kind)
                      (handleFileChange fw))
                   (delivered fw)
             | IsFolder _ => fw
             end
           else fw)
        refs fw in
    isActive fw' = isActive fw
    /\ callback fw' = callback fw
    /\ eventRefs fw' = eventRefs fw
    /\ settings fw' = settings fw
    /\ delivered fw' = delivered fw.
Proof.
  induction refs as [|ref refs IH]; intros fw; [now repeat split|].
  cbn [fold_left].
  destruct (action_eqb ref kind); [|apply IH].
  destruct f as [file | folder]; [|apply IH].
  match goal with
  | |- context [fold_left _ refs ?x] =>
      destruct (IH x) as [H1 [H2 [H3 [H4 H5]]]]
  end.
  cbv zeta in *. now rewrite H1, H2, H3, H4, H5.
Qed.

Lemma vault_event_frame (time : N) (kind : FileChangeAction)
  (f : TAbstractFile) (fw : FileWatcher.t) :
  isActive (vault_event time kind f fw) = isActive fw
  /\ callback (vault_event time kind f fw) = callback fw
  /\ eventRefs (vault_event time kind f fw) = eventRefs fw
  /\ settings (vault_event time kind f fw) = settings fw
  /\ delivered (vault_event time kind f fw) = delivered fw.
Proof. apply (vault_listeners_frame time kind f (eventRefs fw) fw). Qed.

Lemma consistent_frame (fw fw' : FileWatcher.t) :
  isActive fw' = isActive fw ->
  callback fw' = callback fw ->
  eventRefs fw' = eventRefs fw ->
  consistent fw -> consistent fw'.
Proof. unfold consistent. intros -> -> ->. exact (fun H => H). Qed.

Lemma consistent_start (cb : nat) (fw : FileWatcher.t) :
  consistent fw -> watching cb (start cb fw).
Proof.
  intros [[Ha [_ Hr]] | [Ha [_ Hr]]]; unfold start, stop, setupFileEvents;
    rewrite Ha; cbn; rewrite ?Hr; now repeat split.
Qed.

Lemma consistent_stop (fw : FileWatcher.t) :
  consistent fw ->
  isActive (stop fw) = false /\ callback (stop fw) = None
  /\ eventRefs (stop fw) = [].
Proof.
  intros [[Ha _] | [Ha [Hc Hr]]]; unfold stop; rewrite Ha; cbn;
    now repeat split.
Qed.

Lemma consistent_step (fw : FileWatcher.t) (i : N * Input) :
  consistent fw -> consistent (step fw i).
Proof.
  intros H. unfold step.
  destruct (tick_frame (fst i) fw) as [T1 [T2 [T3 _]]].
  assert (Ht : consistent (tick (fst i) fw))
    by (now apply (consistent_frame fw)).
  destruct (snd i) as [kind f | s | cb |].
  - destruct (vault_event_frame (fst i) kind f (tick (fst i) fw))
      as [V1 [V2 [V3 _]]].
    now apply (consistent_frame (tick (fst i) fw)).
  - now apply (consistent_frame (tick (fst i) fw)).
  - left. destruct (consistent_start cb _ Ht) as [Ha [Hc Hr]].
    split; [exact Ha|]. split; [now exists cb | exact Hr].
  - right. now apply consistent_stop.
Qed.

Lemma consistent_run (inputs : list (N * Input)) (fw : FileWatcher.t) :
  consistent fw -> consistent (run inputs fw).
Proof.
  revert fw. induction inputs as [|i inputs IH]; intros fw H; [exact H|].
  cbn. apply IH. now apply consistent_step.
Qed.

End WatcherStates.

(** X10. The watcher never listens twice.  Whatever is done to a watcher
    from its construction on (vault events, settings updates, starts and
    stops in any order, timers firing in between), it is either active,
    with a callback and exactly its four listeners, or inactive, with no
    callback and no listener.  So a vault event on a file sets the one
    timer once when the watcher is active, however often it was started,
    and does nothing when it is not; an event on a folder never does
    anything. *)
Theorem the_watcher_never_listens_twice (s : LoomSettings)
  (inputs : list (N * FileWatcher.Input)) :
  let fw := FileWatcher.run inputs (FileWatcher.constructor s) in
  consistent fw
  /\ (forall time kind f,
      FileWatcher.isActive fw = true ->
      FileWatcher.vault_event time kind (FileWatcher.IsFile f) fw
      = with_timer
          (Some (Utils.mkTimer (time + FileWatcher.fixed_delay)%N (f, kind)
                   false)) fw)
  /\ (forall time kind f,
      FileWatcher.isActive fw = false ->
      FileWatcher.vault_event time kind f fw = fw)
  /\ (forall time kind folder,
      FileWatcher.vault_event time kind (FileWatcher.IsFolder folder) fw = fw).
Proof.
  intros fw.
  assert (H : consistent fw).
  { subst fw. apply consistent_run. right. now repeat split. }
  refine (conj H (conj _ (conj _ _))).
  - intros time kind f Ha.
    destruct H as [[_ [[cb Hc] Hr]] | [Hi _]]; [|congruence].
    apply (vault_event_sets_timer cb). now repeat split.
  - intros time kind f Ha.
    destruct H as [[Hi _] | [_ [_ Hr]]]; [congruence|].
    unfold FileWatcher.vault_event. now rewrite Hr.
  - intros time kind folder. unfold FileWatcher.vault_event.
    induction (FileWatcher.eventRefs fw) as [|ref refs IH]; [reflexivity|].
    cbn [fold_left]. now destruct (FileWatcher.action_eqb ref kind).
Qed.

Lemma the_watcher_never_listens_twice_witness :
  let fw :=
    FileWatcher.run
      [(0%N, FileWatcher.Start 1); (5%N, FileWatcher.Start 2)]
      (FileWatcher.constructor DEFAULT_SETTINGS) in
  FileWatcher.isActive fw = true
  /\ FileWatcher.vault_event 10 modify (FileWatcher.IsFile Sample.note_a) fw
     = with_timer
         (Some (Utils.mkTimer 510%N (Sample.note_a, modify) false)) fw.
Proof.
  cbv zeta. split; [reflexivity|].
  exact (proj1 (proj2 (the_watcher_never_listens_twice DEFAULT_SETTINGS
                         [(0%N, FileWatcher.Start 1);
                          (5%N, FileWatcher.Start 2)]))
           10%N modify Sample.note_a eq_refl).
Defined.

(** ** Timers that outlive a stop or a change of settings *)

Section PendingTimer.

Import FileWatcher.

Variable cb : nat.

(** The timer fires: the file is filtered with the settings of that moment
    and handed to the callback of that moment. *)
Lemma tick_due (fw : FileWatcher.t) (time due : N) (f : TFile)
  (kind : FileChangeAction) (ignored : bool) :
  watching cb fw ->
  shouldIgnoreFile (settings fw) f = Some ignored ->
  (due <= time)%N ->
  delivered
    (tick time (with_timer (Some (Utils.mkTimer due (f, kind) false)) fw))
  = if ignored then delivered fw
    else delivered fw ++ [mkDelivery due cb f kind].
Proof.
  intros [Hactive [Hcb Hrefs]] Hfilter Hdue.
  unfold tick, with_timer, Utils.debounce_tick.
  cbn [handleFileChange Utils.fired Utils.due Utils.args negb andb].
  assert (Hleb : N.leb due time = true) by (apply N.leb_le; exact Hdue).
  rewrite Hleb. unfold on_timer.
  cbn [isActive callback settings delivered eventRefs handleFileChange
       Utils.due_of Utils.due].
  rewrite Hactive, Hcb, Hfilter.
  now destruct ignored.
Qed.

(** A stopped watcher delivers nothing, timer or not. *)
Lemma tick_stopped (fw : FileWatcher.t) (time : N) :
  isActive fw = false -> delivered (tick time fw) = delivered fw.
Proof.
  intros Hi. unfold tick.
  destruct (Utils.debounce_tick time (handleFileChange fw))
    as [[[f a]|] timeoutId]; [|reflexivity].
  unfold on_timer. cbn [isActive]. now rewrite Hi.
Qed.

Lemma step_other (fw : FileWatcher.t) (time : N) (i : Input) :
  not_due time fw ->
  step fw (time, i)
  = match i with
    | Vault kind f => vault_event time kind f fw
    | Settings s => updateSettings s fw
    | Start cb' => start cb' fw
    | Stop => stop fw
    end.
Proof.
  intros H. unfold step. cbn [fst snd]. now rewrite tick_not_due.
Qed.

End PendingTimer.

(** X11. [stop] does not cancel the timer.  An event that arrived before a
    stop is lost if the watcher stays stopped: nothing is delivered, at any
    time.  But if the watcher is started again before the 500 milliseconds
    are over, the timer set before the stop fires all the same, and the
    event is handed to the callback of the new start. *)
Theorem stop_does_not_cancel_the_timer (cb cb' : nat) (fw : FileWatcher.t)
  (arrived stopped started : N) (kind : FileChangeAction) (f : TFile) :
  watching cb fw ->
  at_rest fw ->
  FileWatcher.shouldIgnoreFile (FileWatcher.settings fw) f = Some false ->
  (arrived <= stopped <= started)%N ->
  (started < arrived + 500)%N ->
  (forall time,
     FileWatcher.delivered
       (FileWatcher.tick time
          (FileWatcher.run
             [(arrived, FileWatcher.Vault kind (FileWatcher.IsFile f));
              (stopped, FileWatcher.Stop)] fw))
     = FileWatcher.delivered fw)
  /\
  (forall time, (arrived + 500 <= time)%N ->
     FileWatcher.delivered
       (FileWatcher.tick time
          (FileWatcher.run
             [(arrived, FileWatcher.Vault kind (FileWatcher.IsFile f));
              (stopped, FileWatcher.Stop);
              (started, FileWatcher.Start cb')] fw))
     = FileWatcher.delivered fw
       ++ [FileWatcher.mkDelivery (arrived + 500) cb' f kind]).
Proof.
  intros Hw Hrest Hok Horder Hsoon.
  pose proof (step_vault cb fw (arrived, (kind, f)) Hw
                (at_rest_not_due fw arrived Hrest)) as Hfirst.
  cbn [arrival_time arrival_kind arrival_file fst snd] in Hfirst.
  destruct Hw as [Hactive [Hcb Hrefs]].
  destruct fw as [se ac c refs h dl].
  cbn [FileWatcher.isActive FileWatcher.callback FileWatcher.eventRefs
       FileWatcher.settings FileWatcher.delivered] in *.
  subst ac c refs.
  unfold with_timer in Hfirst.
  cbn [FileWatcher.isActive FileWatcher.callback FileWatcher.eventRefs
       FileWatcher.settings FileWatcher.delivered] in Hfirst.
  assert (Hsecond :
    FileWatcher.run
      [(arrived, FileWatcher.Vault kind (FileWatcher.IsFile f));
       (stopped, FileWatcher.Stop)]
      (FileWatcher.mk se true (Some cb) [create; modify; delete; rename] h dl)
    = FileWatcher.mk se false None []
        (Some (Utils.mkTimer (arrived + FileWatcher.fixed_delay)%N (f, kind)
                 false)) dl).
  { unfold FileWatcher.run. cbn [fold_left]. rewrite Hfirst.
    rewrite step_other; [reflexivity|].
    unfold not_due. cbn. right. unfold FileWatcher.fixed_delay. lia. }
  split.
  - intros time. rewrite Hsecond. now apply tick_stopped.
  - intros time Hle.
    assert (Hthird :
      FileWatcher.run
        [(arrived, FileWatcher.Vault kind (FileWatcher.IsFile f));
         (stopped, FileWatcher.Stop); (started, FileWatcher.Start cb')]
        (FileWatcher.mk se true (Some cb) [create; modify; delete; rename]
           h dl)
      = with_timer
          (Some (Utils.mkTimer (arrived + 500)%N (f, kind) false))
          (FileWatcher.mk se true (Some cb') [create; modify; delete; rename]
             None dl)).
    { change (FileWatcher.run
                [(arrived, FileWatcher.Vault kind (FileWatcher.IsFile f));
                 (stopped, FileWatcher.Stop); (started, FileWatcher.Start cb')]
                ?x)
        with (FileWatcher.step
                (FileWatcher.run
                   [(arrived, FileWatcher.Vault kind (FileWatcher.IsFile f));
                    (stopped, FileWatcher.Stop)] x)
                (started, FileWatcher.Start cb')).
      rewrite Hsecond.
      rewrite step_other; [reflexivity|].
      unfold not_due. cbn. right. unfold FileWatcher.fixed_delay. lia. }
    rewrite Hthird.
    rewrite (tick_fires cb'); [reflexivity | now repeat split | exact Hok
                               | exact Hle].
Qed.

Lemma stop_does_not_cancel_the_timer_witness :
  FileWatcher.delivered
    (FileWatcher.tick 600
       (FileWatcher.run
          [(100%N, FileWatcher.Vault modify (FileWatcher.IsFile Sample.note_a));
           (200%N, FileWatcher.Stop); (300%N, FileWatcher.Start 9)]
          (Sample.watcher DEFAULT_SETTINGS)))
  = [FileWatcher.mkDelivery 600 9 Sample.note_a modify].
Proof.
  refine (proj2 (stop_does_not_cancel_the_timer 7 9
                   (Sample.watcher DEFAULT_SETTINGS) 100 200 300 modify
                   Sample.note_a _ I eq_refl _ _) 600%N _).
  - now repeat split.
  - lia.
  - lia.
  - lia.
Defined.

(** X12. The filter is applied when the timer fires, with the settings of
    that moment.  If the settings are replaced between the arrival of an
    event and the end of its 500 milliseconds, and the filter can be
    evaluated for the new settings (their exclusion patterns give
    expressions of the modelled fragment), it is the new exclusion patterns
    that decide whether the event is handed to the callback: it is handed
    over exactly when the filter says no.  The settings under which the
    event arrived play no part. *)
Theorem the_filter_runs_when_the_timer_fires (cb : nat) (fw : FileWatcher.t)
  (s : LoomSettings) (arrived changed : N) (kind : FileChangeAction)
  (f : TFile) (ignored : bool) :
  watching cb fw ->
  at_rest fw ->
  (arrived <= changed)%N ->
  (changed < arrived + 500)%N ->
  FileWatcher.shouldIgnoreFile s f = Some ignored ->
  forall time, (arrived + 500 <= time)%N ->
    FileWatcher.delivered
      (FileWatcher.tick time
         (FileWatcher.run
            [(arrived, FileWatcher.Vault kind (FileWatcher.IsFile f));
             (changed, FileWatcher.Settings s)] fw))
    = if ignored then FileWatcher.delivered fw
      else FileWatcher.delivered fw
           ++ [FileWatcher.mkDelivery (arrived + 500) cb f kind].
Proof.
  intros Hw Hrest Hle Hlt Hfilter time Htime.
  pose proof (step_vault cb fw (arrived, (kind, f)) Hw
                (at_rest_not_due fw arrived Hrest)) as Hfirst.
  cbn [arrival_time arrival_kind arrival_file fst snd] in Hfirst.
  unfold FileWatcher.run. cbn [fold_left]. rewrite Hfirst.
  rewrite step_other
    by (unfold not_due; cbn; right; unfold FileWatcher.fixed_delay; lia).
  change (FileWatcher.updateSettings s
            (with_timer
               (Some (Utils.mkTimer (arrived + FileWatcher.fixed_delay)%N
                        (f, kind) false)) fw))
    with (with_timer
            (Some (Utils.mkTimer (arrived + 500)%N (f, kind) false))
            (FileWatcher.updateSettings s fw)).
  now rewrite (tick_due cb _ _ _ _ _ ignored)
    by (try exact Htime; try exact Hw; exact Hfilter).
Qed.

Lemma the_filter_runs_when_the_timer_fires_witness :
  FileWatcher.shouldIgnoreFile DEFAULT_SETTINGS Sample.note_a = Some false
  /\ FileWatcher.delivered
       (FileWatcher.tick 600
          (FileWatcher.run
             [(100%N,
               FileWatcher.Vault modify (FileWatcher.IsFile Sample.note_a));
              (200%N,
               FileWatcher.Settings
                 (with_excludePatterns ["*.md"] DEFAULT_SETTINGS))]
             (Sample.watcher DEFAULT_SETTINGS)))
     = []
  /\ FileWatcher.delivered
       (FileWatcher.tick 600
          (FileWatcher.run
             [(100%N,
               FileWatcher.Vault modify (FileWatcher.IsFile Sample.note_a));
              (200%N, FileWatcher.Settings DEFAULT_SETTINGS)]
             (Sample.watcher
                (with_excludePatterns ["*.md"] DEFAULT_SETTINGS))))
     = [FileWatcher.mkDelivery 600 7 Sample.note_a modify].
Proof.
  split; [reflexivity|]. split.
  - refine (the_filter_runs_when_the_timer_fires 7
              (Sample.watcher DEFAULT_SETTINGS)
              (with_excludePatterns ["*.md"] DEFAULT_SETTINGS)
              100 200 modify Sample.note_a true _ I _ _ eq_refl 600%N _).
    + now repeat split.
    + lia.
    + lia.
    + lia.
  - refine (the_filter_runs_when_the_timer_fires 7
              (Sample.watcher
                 (with_excludePatterns ["*.md"] DEFAULT_SETTINGS))
              DEFAULT_SETTINGS
              100 200 modify Sample.note_a false _ I _ _ eq_refl 600%N _).
    + now repeat split.
    + lia.
    + lia.
    + lia.
Defined.

(** ** From the vault to the repository *)

Section EndToEnd.

Variable w : Gateway.t.














End EndToEnd.



(** ** The list of watched file types *)

(** X14. The list of watched file types plays no part in what is synced.
    [isWatchingFile] answers for a file by its path, through the filter,
    and by its extension taken in lower case.  A file that passes the filter
    but whose type is not in the list, for which [isWatchingFile] says no
    (as for every file of that path whose extension differs by case only),
    is handed to the callback all the same, 500 milliseconds after its
    event. *)
Theorem watched_types_do_not_gate_delivery (cb : nat) (fw : FileWatcher.t)
  (arrived : N) (kind : FileChangeAction) (f : TFile) :
  watching cb fw ->
  at_rest fw ->
  FileWatcher.shouldIgnoreFile (FileWatcher.settings fw) f = Some false ->
  FileWatcher.includes FileWatcher.getWatchedFileTypes
    (FileWatcher.toLowerCase (extension f)) = false ->
  FileWatcher.isWatchingFile (FileWatcher.settings fw) f = Some false
  /\ (forall g,
        path g = path f ->
        FileWatcher.toLowerCase (extension g)
        = FileWatcher.toLowerCase (extension f) ->
        FileWatcher.isWatchingFile (FileWatcher.settings fw) g = Some false)
  /\ forall time, (arrived + 500 <= time)%N ->
       FileWatcher.delivered
         (FileWatcher.tick time
            (FileWatcher.step fw
               (arrived, FileWatcher.Vault kind (FileWatcher.IsFile f))))
       = FileWatcher.delivered fw
         ++ [FileWatcher.mkDelivery (arrived + 500) cb f kind].
Proof.
  intros Hw Hrest Hok Htype.
  refine (conj _ (conj _ _)).
  - unfold FileWatcher.isWatchingFile. now rewrite Hok, Htype.
  - intros g Hpath Hext.
    assert (Hg : FileWatcher.shouldIgnoreFile (FileWatcher.settings fw) g
                 = Some false).
    { unfold FileWatcher.shouldIgnoreFile in *. now rewrite Hpath. }
    unfold FileWatcher.isWatchingFile. now rewrite Hg, Hext, Htype.
  - intros time Hle.
    pose proof (step_vault cb fw (arrived, (kind, f)) Hw
                  (at_rest_not_due fw arrived Hrest)) as Hstep.
    cbn [arrival_time arrival_kind arrival_file fst snd] in Hstep.
    rewrite Hstep. now apply (tick_fires cb).
Qed.

Lemma watched_types_do_not_gate_delivery_witness :
  let f := mkFile "report.DOCX" "report.DOCX" "DOCX" in
  FileWatcher.isWatchingFile DEFAULT_SETTINGS f = Some false
  /\ FileWatcher.delivered
       (FileWatcher.tick 600
          (FileWatcher.step (Sample.watcher DEFAULT_SETTINGS)
             (100%N, FileWatcher.Vault modify (FileWatcher.IsFile f))))
     = [FileWatcher.mkDelivery 600 7 f modify].
Proof.
  cbv zeta.
  pose proof (watched_types_do_not_gate_delivery 7
                (Sample.watcher DEFAULT_SETTINGS) 100 modify
                (mkFile "report.DOCX" "report.DOCX" "DOCX")) as H.
  destruct H as [H1 [_ H3]].
  - now repeat split.
  - exact I.
  - reflexivity.
  - reflexivity.
  - split; [exact H1|]. apply (H3 600%N). lia.
Defined.

(** ** The filter on plain patterns *)

(** X15. On exclusion patterns made of ordinary characters, dots, stars and
    question marks (none of the characters that only a regular expression
    gives a meaning to), and for a path on one line, the filter is glob
    matching on the whole path: a file is ignored exactly when some pattern
    matches the whole of its path, a star standing for any run of characters
    (separators included), a question mark for any one character and a dot
    for itself, or when one of the fixed rules applies. *)
Theorem the_filter_is_glob_matching_on_plain_patterns (s : LoomSettings)
  (f : TFile) :
  forallb plain_glob (excludePatterns s) = true ->
  one_line (path f) = true ->
  FileWatcher.shouldIgnoreFile s f
  = Some (existsb (fun pattern => glob_match pattern (path f))
            (excludePatterns s)
          || String.prefix ".git/" (path f)
          || existsb (fun p => FileWatcher.temp_test p (path f))
               FileWatcher.tempPatterns).
Proof.
  intros Hplain Hline.
  rewrite shouldIgnoreFile_plain_globs by assumption.
  unfold rejected, fixed_rule. now rewrite orb_assoc.
Qed.

Lemma the_filter_is_glob_matching_on_plain_patterns_witness :
  FileWatcher.shouldIgnoreFile
    (with_excludePatterns ["drafts/*.md"] DEFAULT_SETTINGS)
    (mkFile "drafts/old/note.md" "note.md" "md") = Some true.
Proof.
  exact (the_filter_is_glob_matching_on_plain_patterns
           (with_excludePatterns ["drafts/*.md"] DEFAULT_SETTINGS)
           (mkFile "drafts/old/note.md" "note.md" "md") eq_refl eq_refl).
Defined.

Section Literal.

Lemma glob_match_literal (pattern filePath : string) :
  all_chars (fun c => negb (Ascii.eqb c "*" || Ascii.eqb c "?")) pattern
  = true ->
  glob_match pattern filePath = String.eqb pattern filePath.
Proof.
  revert filePath.
  induction pattern as [|c pattern IH]; intros filePath H.
  - now destruct filePath.
  - cbn [all_chars] in H. apply andb_prop in H. destruct H as [Hc H].
    apply negb_true_iff, orb_false_iff in Hc. destruct Hc as [Hstar Hq].
    cbn [glob_match]. rewrite Hstar, Hq.
    destruct filePath as [|d filePath]; [reflexivity|].
    cbn [String.eqb]. rewrite (IH _ H).
    now destruct (Ascii.eqb c d).
Qed.

Lemma existsb_literal (patterns : list string) (filePath : string) :
  forallb literal patterns = true ->
  existsb (fun pattern => glob_match pattern filePath) patterns
  = existsb (fun pattern => String.eqb pattern filePath) patterns.
Proof.
  induction patterns as [|pattern patterns IH]; [reflexivity|].
  cbn [forallb existsb]. intros H.
  apply andb_prop in H. destruct H as [Hp H].
  unfold literal in Hp. apply andb_prop in Hp. destruct Hp as [_ Hp].
  now rewrite glob_match_literal, IH.
Qed.

Lemma literal_plain (patterns : list string) :
  forallb literal patterns = true -> forallb plain_glob patterns = true.
Proof.
  induction patterns as [|pattern patterns IH]; [reflexivity|].
  cbn [forallb]. intros H. apply andb_prop in H. destruct H as [Hp H].
  unfold literal in Hp. apply andb_prop in Hp. destruct Hp as [Hp _].
  now rewrite Hp, IH.
Qed.

End Literal.

(** X16. A pattern without wildcards excludes the one path it spells and
    nothing else.  When every exclusion pattern is such a pattern, a file is
    ignored exactly when its path is one of the patterns or a fixed rule
    applies; so a pattern that names a directory excludes no file below
    that directory. *)
Theorem a_pattern_without_wildcards_excludes_one_path (s : LoomSettings)
  (f : TFile) :
  forallb literal (excludePatterns s) = true ->
  one_line (path f) = true ->
  FileWatcher.shouldIgnoreFile s f
  = Some (existsb (fun pattern => String.eqb pattern (path f))
            (excludePatterns s)
          || fixed_rule (path f))
  /\ forall directory below,
       path f = (directory ++ "/" ++ below)%string ->
       In directory (excludePatterns s) ->
       fixed_rule (path f) = false ->
       ~ In (path f) (excludePatterns s) ->
       FileWatcher.shouldIgnoreFile s f = Some false.
Proof.
  intros Hlit Hline.
  assert (Heq : FileWatcher.shouldIgnoreFile s f
                = Some (existsb (fun pattern => String.eqb pattern (path f))
                          (excludePatterns s)
                        || fixed_rule (path f))).
  { rewrite shouldIgnoreFile_plain_globs
      by (try exact Hline; now apply literal_plain).
    unfold rejected. now rewrite existsb_literal. }
  split; [exact Heq|].
  intros directory below _ _ Hfixed Hnot.
  rewrite Heq, Hfixed, orb_false_r. f_equal.
  destruct (existsb (fun pattern => String.eqb pattern (path f))
              (excludePatterns s)) eqn:E; [|reflexivity].
  apply existsb_exists in E. destruct E as [pattern [Hin Hp]].
  apply String.eqb_eq in Hp. subst pattern. now elim Hnot.
Qed.

Lemma a_pattern_without_wildcards_excludes_one_path_witness :
  let s := with_excludePatterns [".obsidian/cache"] DEFAULT_SETTINGS in
  In ".obsidian/cache" (excludePatterns s)
  /\ FileWatcher.shouldIgnoreFile s
       (mkFile ".obsidian/cache/index.json" "index.json" "json")
     = Some false.
Proof.
  cbv zeta. split; [now left|].
  refine (proj2 (a_pattern_without_wildcards_excludes_one_path
                   (with_excludePatterns [".obsidian/cache"] DEFAULT_SETTINGS)
                   (mkFile ".obsidian/cache/index.json" "index.json" "json")
                   eq_refl eq_refl)
            ".obsidian/cache" "index.json" eq_refl _ eq_refl _).
  - now left.
  - intros [H | []]. discriminate H.
Defined.

(** ** The commit message of a file without dollar signs *)

Section DefaultTemplate.

Lemma append_empty (s : string) : (s ++ "")%string = s.
Proof. induction s as [|c s IH]; [reflexivity|]. cbn. now rewrite IH. Qed.

End DefaultTemplate.

(** X17. For a file whose name holds no dollar sign, the commit message is
    the template of the settings of the [GitService] with the first
    [{action}] replaced by the display name of the action and then the first
    [{filename}] replaced by the sanitized name of the file; with the default
    template it is the display name, a colon, a blank and the sanitized
    name. *)
Theorem the_commit_message_fills_the_template (m : t)
  (operation : SyncOperation) :
  no_dollar (name (file operation)) = true ->
  generateCommitMessage m operation
  = fill
      (fill (commitMessageTemplate (GitService.settings (gitService m)))
         "{action}" (getActionDisplayName (action operation)))
      "{filename}" (Utils.sanitizeFilename (name (file operation)))
  /\ (commitMessageTemplate (GitService.settings (gitService m))
      = "{action}: {filename}" ->
      generateCommitMessage m operation
      = (getActionDisplayName (action operation) ++ ": "
         ++ Utils.sanitizeFilename (name (file operation)))%string).
Proof.
  intros Hno.
  assert (Heq := generateCommitMessage_no_dollar m operation Hno).
  unfold expected_message in Heq. split; [exact Heq|].
  intros Htemplate. rewrite Heq, Htemplate.
  destruct (action operation); cbn; now rewrite append_empty.
Qed.

Lemma the_commit_message_fills_the_template_witness :
  generateCommitMessage (Sample.manager DEFAULT_SETTINGS)
    (mkOp (mkFile "notes/what?.md" "what?.md" "md") rename 0%N 0)
  = "Renamed: what_.md".
Proof.
  exact (proj2 (the_commit_message_fills_the_template
                  (Sample.manager DEFAULT_SETTINGS)
                  (mkOp (mkFile "notes/what?.md" "what?.md" "md") rename 0%N 0)
                  eq_refl) eq_refl).
Defined.

(** ** A remote that does not answer at start-up *)

Section Unreachable.

Variable w : Gateway.t.

Lemma handle_all_dropped (changes : list (TFile * FileChangeAction)) (m : t) :
  status m = error \/ status m = offline ->
  handle_all w changes m = m.
Proof.
  intros Hsticky. unfold handle_all.
  induction changes as [|change changes IH]; [reflexivity|].
  cbn [fold_left].
  assert (Hdrop : handleFileChange w (fst change) (snd change) m
                  = (Normal tt, m)).
  { unfold handleFileChange. destruct Hsticky as [-> | ->]; reflexivity. }
  rewrite Hdrop. exact IH.
Qed.

End Unreachable.

(** X18. When a remote is configured and does not answer while the manager
    is initialized, the manager goes offline, and from then on every file
    change is dropped: whatever changes follow, the Gateway is asked no
    commit, not even a local one, and nothing is queued. *)
Theorem an_unreachable_remote_stops_local_commits (w : Gateway.t) (m : t)
  (changes : list (TFile * FileChangeAction)) :
  truthy (remoteUrl (settings m)) = true ->
  Gateway.listRemote w (trace m)
    (remoteUrl (GitService.settings (gitService m))) = false ->
  let m1 := initialize w m in
  let m2 := handle_all w changes m1 in
  status m1 = offline
  /\ lastSyncTime m1 = lastSyncTime m
  /\ m2 = m1
  /\ commit_calls (trace m2) = commit_calls (trace m)
  /\ syncQueue m2 = syncQueue m.
Proof.
  intros Hremote Hdown m1 m2.
  assert (Hinit : m1
                  = updateStatus offline "Cannot connect to remote repository"
                      (snd (gitTestConnection w m))).
  { subst m1. unfold initialize.
    cbn [GitService.isRepositoryInitialized negb]. rewrite Hremote.
    unfold gitTestConnection, GitService.testConnection.
    destruct (truthy (remoteUrl (GitService.settings (gitService m))));
      cbn [negb]; [rewrite Hdown|]; reflexivity. }
  assert (Hstatus : status m1 = offline)
    by (rewrite Hinit; now rewrite updateStatus_eq).
  assert (Hsame : m2 = m1)
    by (subst m2; apply handle_all_dropped; now right).
  rewrite Hsame. refine (conj Hstatus (conj _ (conj eq_refl (conj _ _))));
    rewrite Hinit, updateStatus_eq;
    unfold gitTestConnection, GitService.testConnection;
    destruct (truthy (remoteUrl (GitService.settings (gitService m))));
    cbn [negb snd set_trace set_status lastSyncTime syncQueue trace
         statusCallbacks]; try reflexivity;
    rewrite ?commit_calls_app, ?commit_calls_announce; cbn; lia.
Qed.

Lemma an_unreachable_remote_stops_local_commits_witness :
  let m := Sample.manager Sample.remote_settings in
  let m2 :=
    handle_all Sample.unreachable
      [(Sample.note_a, create); (Sample.note_b, modify)]
      (initialize Sample.unreachable m) in
  status m2 = offline /\ commit_calls (trace m2) = 0.
Proof.
  cbv zeta.
  pose proof (an_unreachable_remote_stops_local_commits Sample.unreachable
                (Sample.manager Sample.remote_settings)
                [(Sample.note_a, create); (Sample.note_b, modify)]
                eq_refl eq_refl) as H.
  cbv zeta in H. destruct H as [H1 [_ [H3 [H4 _]]]].
  split.
  - rewrite H3. exact H1.
  - exact H4.
Defined.

(** ** The helpers of utils.ts *)

Section Sanitize.

Lemma sanitizeFilename_length (filename : string) :
  String.length (Utils.sanitizeFilename filename) = String.length filename.
Proof.
  unfold Utils.sanitizeFilename.
  induction filename as [|c filename IH]; [reflexivity|].
  cbn [Utils.map_chars String.length]. now rewrite IH.
Qed.

Lemma sanitizeFilename_clean (filename : string) :
  all_chars (fun c => negb (Utils.is_unsafe_char c)) filename = true ->
  Utils.sanitizeFilename filename = filename.
Proof.
  unfold Utils.sanitizeFilename.
  induction filename as [|c filename IH]; [reflexivity|].
  cbn [Utils.map_chars all_chars]. intros H.
  apply andb_prop in H. destruct H as [Hc H].
  apply negb_true_iff in Hc. now rewrite Hc, IH.
Qed.

Lemma sanitizeFilename_get (filename : string) (i : nat) :
  String.get i (Utils.sanitizeFilename filename)
  = option_map (fun c => if Utils.is_unsafe_char c then "_"%char else c)
      (String.get i filename).
Proof.
  unfold Utils.sanitizeFilename. revert i.
  induction filename as [|c filename IH]; intros i; [reflexivity|].
  destruct i as [|i]; [reflexivity|].
  cbn [Utils.map_chars String.get]. apply IH.
Qed.

End Sanitize.

(** X19. [sanitizeFilename] swaps each of the seven characters of its class
    (less-than, greater-than, colon, double quote, bar, question mark, star)
    for an underscore and leaves every other character, slashes, backslashes
    and dollar signs among them, where it is: the result has the length of
    the name, holds none of the seven characters, is the name itself when the
    name holds none of them, and is not changed by sanitizing it again. *)
Theorem sanitizeFilename_swaps_seven_characters (filename : string) :
  String.length (Utils.sanitizeFilename filename) = String.length filename
  /\ (forall i,
        String.get i (Utils.sanitizeFilename filename)
        = option_map
            (fun c => if existsb (Ascii.eqb c) Utils.unsafe_chars
                      then "_"%char else c)
            (String.get i filename))
  /\ all_chars (fun c => negb (existsb (Ascii.eqb c) Utils.unsafe_chars))
       (Utils.sanitizeFilename filename) = true
  /\ (all_chars (fun c => negb (existsb (Ascii.eqb c) Utils.unsafe_chars))
        filename = true ->
      Utils.sanitizeFilename filename = filename)
  /\ Utils.sanitizeFilename (Utils.sanitizeFilename filename)
     = Utils.sanitizeFilename filename.
Proof.
  refine (conj (sanitizeFilename_length filename)
            (conj (sanitizeFilename_get filename)
               (conj (all_chars_sanitized filename)
                  (conj (sanitizeFilename_clean filename) _)))).
  apply sanitizeFilename_clean, all_chars_sanitized.
Qed.

Lemma sanitizeFilename_swaps_seven_characters_witness :
  Utils.sanitizeFilename "src/a$b.md" = "src/a$b.md".
Proof.
  exact (proj1 (proj2 (proj2 (proj2
           (sanitizeFilename_swaps_seven_characters "src/a$b.md")))) eq_refl).
Defined.

Section Throttle.

Lemma throttle_run_spaced (delay : Z) (calls : list Z) :
  forall lastExecution,
    spaced delay lastExecution (throttle_run delay calls lastExecution).
Proof.
  induction calls as [|now calls IH]; intros lastExecution; [exact I|].
  cbn [throttle_run]. unfold Utils.throttle_call.
  destruct (now - lastExecution >=? delay)%Z eqn:E.
  - cbn [spaced]. split; [|apply IH].
    apply Z.geb_le in E. lia.
  - apply IH.
Qed.

Lemma throttle_run_quiet (delay : Z) (calls : list Z) (lastExecution : Z) :
  Forall (fun now => (now - lastExecution < delay)%Z) calls ->
  throttle_run delay calls lastExecution = [].
Proof.
  induction 1 as [|now calls Hnow _ IH]; [reflexivity|].
  cbn [throttle_run]. unfold Utils.throttle_call.
  assert (E : (now - lastExecution >=? delay)%Z = false).
  { destruct (now - lastExecution >=? delay)%Z eqn:E; [|reflexivity].
    apply Z.geb_le in E. lia. }
  now rewrite E.
Qed.

End Throttle.

(** X20. A throttled function runs on the leading edge and keeps its
    distance: whatever the times of the calls, each run is at least [delay]
    after the run before it (and the first at least [delay] after time 0);
    a call that comes [delay] or more after the last run runs at once; and
    the calls that follow a run within less than [delay] are dropped, none
    of them is run later. *)
Theorem throttled_runs_keep_their_distance (delay : Z) (calls : list Z) :
  spaced delay 0 (throttle_run delay calls 0)
  /\ (forall lastExecution now later,
        (now - lastExecution >= delay)%Z ->
        throttle_run delay (now :: later) lastExecution
        = now :: throttle_run delay later now)
  /\ (forall lastExecution burst later,
        Forall (fun now => (now - lastExecution < delay)%Z) burst ->
        throttle_run delay (burst ++ later) lastExecution
        = throttle_run delay later lastExecution).
Proof.
  refine (conj (throttle_run_spaced delay calls 0) (conj _ _)).
  - intros lastExecution now later Hge.
    cbn [throttle_run]. unfold Utils.throttle_call.
    assert (E : (now - lastExecution >=? delay)%Z = true)
      by (apply Z.geb_le; lia).
    now rewrite E.
  - intros lastExecution burst later Hburst.
    induction Hburst as [|now burst Hnow _ IH]; [reflexivity|].
    cbn [app throttle_run]. unfold Utils.throttle_call.
    assert (E : (now - lastExecution >=? delay)%Z = false).
    { destruct (now - lastExecution >=? delay)%Z eqn:E; [|reflexivity].
      apply Z.geb_le in E. lia. }
    rewrite E. exact IH.
Qed.

Lemma throttled_runs_keep_their_distance_witness :
  throttle_run 1000 [5000; 5200; 5999; 6000; 6100]%Z 0 = [5000; 6000]%Z.
Proof.
  destruct (throttled_runs_keep_their_distance 1000 []) as [_ [Hrun Hdrop]].
  rewrite (Hrun 0%Z 5000%Z) by lia.
  change (throttle_run 1000 [5200; 5999; 6000; 6100]%Z 5000)
    with (throttle_run 1000 ([5200; 5999] ++ [6000; 6100])%Z 5000).
  rewrite (Hdrop 5000%Z [5200; 5999]%Z) by (repeat constructor; lia).
  rewrite (Hrun 5000%Z 6000%Z) by lia.
  change (throttle_run 1000 [6100]%Z 6000)
    with (throttle_run 1000 ([6100] ++ [])%Z 6000).
  rewrite (Hdrop 6000%Z [6100]%Z []) by (repeat constructor; lia).
  reflexivity.
Defined.

Section TimeAgo.

Variable toLocaleDateString : option Z -> string.

(** The four thresholds, in milliseconds. *)
Lemma formatTimeAgo_thresholds (now time : Z) :
  Utils.formatTimeAgo toLocaleDateString now (Some time)
  = let d := (now - time)%Z in
    if (d <? 60000)%Z then "just now"
    else if (d <? 3600000)%Z then
      (Utils.decimal (d / 60000) ++ " minutes ago")%string
    else if (d <? 86400000)%Z then
      (Utils.decimal (d / 3600000) ++ " hours ago")%string
    else if (d <? 2592000000)%Z then
      (Utils.decimal (d / 86400000) ++ " days ago")%string
    else toLocaleDateString (Some time).
Proof.
  cbv zeta. unfold Utils.formatTimeAgo. set (d := (now - time)%Z).
  assert (D2 : (d / 1000 / 60 = d / 60000)%Z)
    by (rewrite Z.div_div by lia; reflexivity).
  assert (D3 : (d / 60000 / 60 = d / 3600000)%Z)
    by (rewrite Z.div_div by lia; reflexivity).
  assert (D4 : (d / 3600000 / 24 = d / 86400000)%Z)
    by (rewrite Z.div_div by lia; reflexivity).
  rewrite D2, D3, D4.
  assert (E1 : ((d / 1000 <? 60) = (d <? 60000))%Z)
    by (apply Bool.eq_true_iff_eq; rewrite !Z.ltb_lt;
        Z.to_euclidean_division_equations; lia).
  assert (E2 : ((d / 60000 <? 60) = (d <? 3600000))%Z)
    by (apply Bool.eq_true_iff_eq; rewrite !Z.ltb_lt;
        Z.to_euclidean_division_equations; lia).
  assert (E3 : ((d / 3600000 <? 24) = (d <? 86400000))%Z)
    by (apply Bool.eq_true_iff_eq; rewrite !Z.ltb_lt;
        Z.to_euclidean_division_equations; lia).
  assert (E4 : ((d / 86400000 <? 30) = (d <? 2592000000))%Z)
    by (apply Bool.eq_true_iff_eq; rewrite !Z.ltb_lt;
        Z.to_euclidean_division_equations; lia).
  now rewrite E1, E2, E3, E4.
Qed.

End TimeAgo.

(** X21. [formatTimeAgo] in terms of the age of a valid date in
    milliseconds.  Below one minute, and for every date in the future, it is
    [just now]; below one hour the whole minutes, from 1 to 59; below one day
    the whole hours, from 1 to 23; below thirty days the whole days, from 1
    to 29; from thirty days on the date as the locale prints it.  The unit is
    in the plural for the number 1 as well.  An invalid date is handed to
    the locale. *)
Theorem formatTimeAgo_by_age (toLocaleDateString : option Z -> string)
  (now time : Z) :
  let d := (now - time)%Z in
  Utils.formatTimeAgo toLocaleDateString now None = toLocaleDateString None
  /\ ((d < 60000)%Z ->
      Utils.formatTimeAgo toLocaleDateString now (Some time) = "just now")
  /\ ((60000 <= d < 3600000)%Z ->
      Utils.formatTimeAgo toLocaleDateString now (Some time)
      = (Utils.decimal (d / 60000) ++ " minutes ago")%string
      /\ (1 <= d / 60000 <= 59)%Z)
  /\ ((3600000 <= d < 86400000)%Z ->
      Utils.formatTimeAgo toLocaleDateString now (Some time)
      = (Utils.decimal (d / 3600000) ++ " hours ago")%string
      /\ (1 <= d / 3600000 <= 23)%Z)
  /\ ((86400000 <= d < 2592000000)%Z ->
      Utils.formatTimeAgo toLocaleDateString now (Some time)
      = (Utils.decimal (d / 86400000) ++ " days ago")%string
      /\ (1 <= d / 86400000 <= 29)%Z)
  /\ ((2592000000 <= d)%Z ->
      Utils.formatTimeAgo toLocaleDateString now (Some time)
      = toLocaleDateString (Some time)).
Proof.
  intros d. split; [reflexivity|].
  rewrite formatTimeAgo_thresholds. cbv zeta. fold d.
  refine (conj _ (conj _ (conj _ (conj _ _)))); intros H.
  - assert (E : (d <? 60000)%Z = true) by (apply Z.ltb_lt; lia).
    now rewrite E.
  - assert (E1 : (d <? 60000)%Z = false) by (apply Z.ltb_ge; lia).
    assert (E2 : (d <? 3600000)%Z = true) by (apply Z.ltb_lt; lia).
    rewrite E1, E2. split; [reflexivity|].
    Z.to_euclidean_division_equations; lia.
  - assert (E1 : (d <? 60000)%Z = false) by (apply Z.ltb_ge; lia).
    assert (E2 : (d <? 3600000)%Z = false) by (apply Z.ltb_ge; lia).
    assert (E3 : (d <? 86400000)%Z = true) by (apply Z.ltb_lt; lia).
    rewrite E1, E2, E3. split; [reflexivity|].
    Z.to_euclidean_division_equations; lia.
  - assert (E1 : (d <? 60000)%Z = false) by (apply Z.ltb_ge; lia).
    assert (E2 : (d <? 3600000)%Z = false) by (apply Z.ltb_ge; lia).
    assert (E3 : (d <? 86400000)%Z = false) by (apply Z.ltb_ge; lia).
    assert (E4 : (d <? 2592000000)%Z = true) by (apply Z.ltb_lt; lia).
    rewrite E1, E2, E3, E4. split; [reflexivity|].
    Z.to_euclidean_division_equations; lia.
  - assert (E1 : (d <? 60000)%Z = false) by (apply Z.ltb_ge; lia).
    assert (E2 : (d <? 3600000)%Z = false) by (apply Z.ltb_ge; lia).
    assert (E3 : (d <? 86400000)%Z = false) by (apply Z.ltb_ge; lia).
    assert (E4 : (d <? 2592000000)%Z = false) by (apply Z.ltb_ge; lia).
    now rewrite E1, E2, E3, E4.
Qed.

Lemma formatTimeAgo_by_age_witness :
  Utils.formatTimeAgo (fun _ => "1/1/2026") 1700000119999%Z
      (Some 1700000000000%Z)
  = "1 minutes ago"
  /\ Utils.formatTimeAgo (fun _ => "1/1/2026") 0%Z
         (Some 1700000000000%Z)
     = "just now".
Proof.
  split.
  - exact (proj1 (proj1 (proj2 (proj2
             (formatTimeAgo_by_age (fun _ => "1/1/2026")
                1700000119999%Z 1700000000000%Z)))
             ltac:(cbv zeta; lia))).
  - exact (proj1 (proj2
             (formatTimeAgo_by_age (fun _ => "1/1/2026") 0%Z
                1700000000000%Z))
             ltac:(cbv zeta; lia)).
Defined.

(** ** Repository addresses *)

Section Addresses.

Lemma strip_spec (text s s' : string) :
  Utils.strip text s = Some s' <-> s = (text ++ s')%string.
Proof.
  revert s. induction text as [|c text IH]; intros s.
  - cbn. split; congruence.
  - destruct s as [|d s]; cbn [Utils.strip append].
    + split; discriminate.
    + destruct (Ascii.eqb c d) eqn:E.
      * apply Ascii.eqb_eq in E. subst d. rewrite IH.
        split; [now intros -> | now intros [= ->]].
      * split; [discriminate|].
        intros [= -> _]. now rewrite Ascii.eqb_refl in E.
Qed.

(** The runs that an expression can take from the front of a text, the
    empty one included. *)
Lemma more_spec (rest : string -> bool) (P : string -> Prop) :
  (forall s, rest s = true <-> P s) ->
  forall s,
    (fix more (s : string) : bool :=
       rest s ||
       match s with
       | String c s' => Utils.in_class c && more s'
       | EmptyString => false
       end) s = true
    <-> exists w s',
          all_chars Utils.in_class w = true /\ s = (w ++ s')%string /\ P s'.
Proof.
  intros Hrest.
  set (more := fix more (s : string) : bool :=
                 rest s ||
                 match s with
                 | String c s' => Utils.in_class c && more s'
                 | EmptyString => false
                 end).
  assert (Hmore : forall s,
             more s
             = rest s ||
               match s with
               | String c s' => Utils.in_class c && more s'
               | EmptyString => false
               end) by (now intros [|c s]).
  intros s. split.
  - induction s as [|c s IH]; rewrite Hmore; intros H;
      apply orb_true_iff in H; destruct H as [H | H].
    + exists "", "". now rewrite <- Hrest.
    + discriminate H.
    + exists "", (String c s). now rewrite <- Hrest.
    + apply andb_prop in H. destruct H as [Hc H].
      destruct (IH H) as [w [s' [Hw [-> HP]]]].
      exists (String c w), s'. cbn [all_chars append].
      now rewrite Hc, Hw.
  - intros [w [s' [Hw [-> HP]]]].
    induction w as [|c w IH]; rewrite Hmore.
    + cbn [append]. apply Hrest in HP. now rewrite HP.
    + cbn [all_chars] in Hw. apply andb_prop in Hw.
      destruct Hw as [Hc Hw]. cbn [append].
      rewrite Hc, (IH Hw). apply orb_true_r.
Qed.

Lemma test_matches (pattern : list Utils.Piece) :
  forall s, Utils.test pattern s = true <-> matches pattern s.
Proof.
  induction pattern as [|[text|] pattern IH]; intros s.
  - destruct s; cbn; split; congruence.
  - cbn [Utils.test matches].
    destruct (Utils.strip text s) as [s'|] eqn:E.
    + apply strip_spec in E. subst s. rewrite IH. split.
      * intros H. now exists s'.
      * intros [s'' [Heq H]].
        assert (s'' = s') as ->; [|exact H].
        clear -Heq. induction text as [|c text IHt]; cbn in Heq;
          [now subst | injection Heq as Heq; now apply IHt].
    + split; [discriminate|].
      intros [s' [Heq _]]. apply strip_spec in Heq. congruence.
  - cbn [Utils.test matches].
    destruct s as [|c s].
    + split; [discriminate|].
      intros [w [s' [Hw [Heq _]]]].
      destruct w; [discriminate Hw | discriminate Heq].
    + rewrite andb_true_iff, (more_spec _ _ IH). split.
      * intros [Hc [w [s' [Hw [-> HP]]]]].
        exists (String c w), s'. cbn [is_run all_chars append].
        now rewrite Hc, Hw.
      * intros [w [s' [Hw [Heq HP]]]].
        destruct w as [|d w]; [discriminate Hw|].
        cbn [is_run all_chars append] in Hw, Heq.
        injection Heq as -> ->.
        apply andb_prop in Hw. destruct Hw as [Hd Hw].
        split; [exact Hd|]. now exists w, s'.
Qed.

End Addresses.

(** An expression for one host: its host is a run, and what it matches is
    of the generic shape. *)
Ltac one_host H host side :=
  destruct H as (s1 & -> & owner & s2 & Ho & -> & s3 & -> & repo & s4 & Hr
                 & -> & s5 & -> & ->);
  exists host, owner, repo;
  refine (conj eq_refl (conj Ho (conj Hr _))); side; reflexivity.

Ltac any_host H side :=
  destruct H as (s0 & -> & host & s1 & Hh & -> & s2 & -> & owner & s3 & Ho
                 & -> & s4 & -> & repo & s5 & Hr & -> & s6 & -> & ->);
  exists host, owner, repo;
  refine (conj Hh (conj Ho (conj Hr _))); side; reflexivity.

Section AddressShapes.

Lemma https_matches (host owner repo : string) :
  is_run host = true -> is_run owner = true -> is_run repo = true ->
  matches [Utils.Text "https://"; Utils.Run; Utils.Text "/"; Utils.Run;
           Utils.Text "/"; Utils.Run; Utils.Text ".git"]
    (https_address host owner repo).
Proof.
  intros Hh Ho Hr. cbn [matches]. unfold https_address.
  eexists. split; [reflexivity|].
  exists host. eexists. split; [exact Hh|]. split; [reflexivity|].
  eexists. split; [reflexivity|].
  exists owner. eexists. split; [exact Ho|]. split; [reflexivity|].
  eexists. split; [reflexivity|].
  exists repo. eexists. split; [exact Hr|]. split; [reflexivity|].
  exists "". split; reflexivity.
Qed.

Lemma ssh_matches (host owner repo : string) :
  is_run host = true -> is_run owner = true -> is_run repo = true ->
  matches [Utils.Text "git@"; Utils.Run; Utils.Text ":"; Utils.Run;
           Utils.Text "/"; Utils.Run; Utils.Text ".git"]
    (ssh_address host owner repo).
Proof.
  intros Hh Ho Hr. cbn [matches]. unfold ssh_address.
  eexists. split; [reflexivity|].
  exists host. eexists. split; [exact Hh|]. split; [reflexivity|].
  eexists. split; [reflexivity|].
  exists owner. eexists. split; [exact Ho|]. split; [reflexivity|].
  eexists. split; [reflexivity|].
  exists repo. eexists. split; [exact Hr|]. split; [reflexivity|].
  exists "". split; reflexivity.
Qed.

(** What [isValidGitUrl] accepts. *)
Lemma isValidGitUrl_shape (url : string) :
  Utils.isValidGitUrl url = true
  <-> exists host owner repo,
        is_run host = true /\ is_run owner = true /\ is_run repo = true
        /\ (url = https_address host owner repo
            \/ url = ssh_address host owner repo).
Proof.
  unfold Utils.isValidGitUrl, Utils.gitUrlPatterns. cbn [existsb].
  rewrite !orb_true_iff, !test_matches. cbn [matches]. split.
  - intros [H | [H | [H | [H | [H | [H | [H | [H | H]]]]]]]].
    + one_host H "github.com" ltac:(left).
    + one_host H "github.com" ltac:(right).
    + one_host H "gitlab.com" ltac:(left).
    + one_host H "gitlab.com" ltac:(right).
    + one_host H "bitbucket.org" ltac:(left).
    + one_host H "bitbucket.org" ltac:(right).
    + any_host H ltac:(left).
    + any_host H ltac:(right).
    + discriminate H.
  - intros [host [owner [repo [Hh [Ho [Hr [-> | ->]]]]]]].
    + do 6 right. left. now apply https_matches.
    + do 7 right. left. now apply ssh_matches.
Qed.

End AddressShapes.

(** X22. [isValidGitUrl] accepts exactly the addresses of two shapes, where
    host, owner and repository are runs of one or more letters, digits,
    underscores, dots and hyphens: [https://host/owner/repository.git] and
    [git@host:owner/repository.git].  The six expressions for GitHub,
    GitLab and Bitbucket accept nothing that the two generic ones do not
    accept.  So an address without the [.git] at its end, with a port or a
    user name, or with more or fewer than two segments after the host, is
    refused. *)
Theorem isValidGitUrl_accepts_two_shapes (url : string) :
  (Utils.isValidGitUrl url = true
   <-> exists host owner repo,
         is_run host = true /\ is_run owner = true /\ is_run repo = true
         /\ (url = https_address host owner repo
             \/ url = ssh_address host owner repo))
  /\ Utils.isValidGitUrl url
     = Utils.test
         [Utils.Text "https://"; Utils.Run; Utils.Text "/"; Utils.Run;
          Utils.Text "/"; Utils.Run; Utils.Text ".git"] url
       || Utils.test
            [Utils.Text "git@"; Utils.Run; Utils.Text ":"; Utils.Run;
             Utils.Text "/"; Utils.Run; Utils.Text ".git"] url.
Proof.
  split; [apply isValidGitUrl_shape|].
  apply Bool.eq_true_iff_eq.
  rewrite isValidGitUrl_shape, orb_true_iff, !test_matches. split.
  - intros [host [owner [repo [Hh [Ho [Hr [-> | ->]]]]]]].
    + left. now apply https_matches.
    + right. now apply ssh_matches.
  - cbn [matches]. intros [H | H].
    + any_host H ltac:(left).
    + any_host H ltac:(right).
Qed.

Lemma isValidGitUrl_accepts_two_shapes_witness :
  Utils.isValidGitUrl "https://example.org/som-28/loom-sync.git" = true.
Proof.
  apply (proj2 (proj1 (isValidGitUrl_accepts_two_shapes
                         "https://example.org/som-28/loom-sync.git"))).
  exists "example.org", "som-28", "loom-sync".
  refine (conj eq_refl (conj eq_refl (conj eq_refl (or_introl eq_refl)))).
Defined.

Section RepoName.

Lemma length_append (s1 s2 : string) :
  String.length (s1 ++ s2) = String.length s1 + String.length s2.
Proof. induction s1 as [|c s1 IH]; [reflexivity|]. cbn. now rewrite IH. Qed.

Lemma append_assoc (s1 s2 s3 : string) :
  ((s1 ++ s2) ++ s3 = s1 ++ s2 ++ s3)%string.
Proof. induction s1 as [|c s1 IH]; [reflexivity|]. cbn. now rewrite IH. Qed.

Lemma no_slash_app (s1 s2 : string) :
  no_slash (s1 ++ s2) = no_slash s1 && no_slash s2.
Proof.
  unfold no_slash. induction s1 as [|c s1 IH]; [reflexivity|].
  cbn [append all_chars]. now rewrite IH, andb_assoc.
Qed.

Lemma in_class_not_slash (c : ascii) :
  Utils.in_class c = true -> Ascii.eqb c "/" = false.
Proof.
  destruct (Ascii.eqb c "/") eqn:E; [|reflexivity].
  apply Ascii.eqb_eq in E. subst c. intros H. discriminate H.
Qed.

Lemma is_run_no_slash (w : string) :
  is_run w = true -> no_slash w = true /\ w <> "".
Proof.
  destruct w as [|c w]; [discriminate|]. cbn [is_run]. intros H.
  split; [|discriminate].
  unfold no_slash. revert H. generalize (String c w). clear.
  intros s. induction s as [|c s IH]; [reflexivity|].
  cbn [all_chars]. intros H. apply andb_prop in H. destruct H as [Hc H].
  now rewrite (in_class_not_slash c Hc), IH.
Qed.

(** No group begins before a slash that is not the last. *)
Lemma group_slash (s : string) : no_slash s = false -> Utils.group s = None.
Proof.
  induction s as [|c s IH]; [discriminate|].
  unfold no_slash. cbn [all_chars Utils.group].
  destruct (Ascii.eqb c "/"); [reflexivity|]. cbn [negb andb].
  intros H. fold (no_slash s) in H.
  destruct (String.eqb s ".git") eqn:E1.
  { apply String.eqb_eq in E1. subst s. discriminate H. }
  destruct (String.eqb s "") eqn:E2.
  { apply String.eqb_eq in E2. subst s. discriminate H. }
  cbn [orb]. now rewrite IH.
Qed.

(** The group leaves one [.git] out. *)
Lemma group_name (name : string) :
  no_slash name = true -> name <> "" ->
  Utils.group (name ++ ".git") = Some name.
Proof.
  induction name as [|c name IH]; [easy|].
  unfold no_slash. cbn [all_chars append Utils.group]. intros H _.
  apply andb_prop in H. destruct H as [Hc H].
  apply negb_true_iff in Hc. rewrite Hc.
  destruct name as [|d name]; [reflexivity|].
  assert (E1 : String.eqb (String d name ++ ".git") ".git" = false).
  { destruct (String.eqb (String d name ++ ".git") ".git") eqn:E;
      [|reflexivity].
    apply String.eqb_eq in E. apply (f_equal String.length) in E.
    rewrite length_append in E. cbn in E. lia. }
  rewrite E1. cbn [orb]. 
  assert (E2 : String.eqb (String d name ++ ".git") "" = false)
    by reflexivity.
  rewrite E2. now rewrite IH.
Qed.

Lemma match_last (before segment g : string) :
  Utils.group segment = Some g ->
  Utils.match_ (before ++ "/" ++ segment) = Some g.
Proof.
  intros Hg. induction before as [|c before IH].
  - cbn. now rewrite Hg.
  - cbn [append Utils.match_].
    destruct (Ascii.eqb c "/"); [|exact IH].
    rewrite group_slash; [exact IH|].
    rewrite no_slash_app. cbn. apply andb_false_r.
Qed.

Lemma match_no_slash (url : string) :
  no_slash url = true -> Utils.match_ url = None.
Proof.
  unfold no_slash. induction url as [|c url IH]; [reflexivity|].
  cbn [all_chars Utils.match_]. intros H.
  apply andb_prop in H. destruct H as [Hc H].
  apply negb_true_iff in Hc. rewrite Hc. now apply IH.
Qed.

Lemma match_trailing_slash (before : string) :
  Utils.match_ (before ++ "/") = None.
Proof.
  induction before as [|c before IH]; [reflexivity|].
  cbn [append Utils.match_].
  destruct (Ascii.eqb c "/"); [|exact IH].
  rewrite group_slash; [exact IH|].
  rewrite no_slash_app. cbn. apply andb_false_r.
Qed.

Lemma extractRepoName_name (before name : string) :
  no_slash name = true -> name <> "" ->
  Utils.extractRepoName (before ++ "/" ++ name ++ ".git") = name.
Proof.
  intros Hno Hne. unfold Utils.extractRepoName.
  now rewrite (match_last before (name ++ ".git") name)
    by now apply group_name.
Qed.

End RepoName.

(** X23. [extractRepoName] gives the last segment of the address without
    one [.git] at its end: for an address that ends with a slash, a name
    without a slash and [.git], the result is the name (the same when the
    name itself ends with [.git]: only one is left out).  For a text without
    a slash, and for a text that ends with a slash, it is [repository].
    Every address that [isValidGitUrl] accepts ends with a slash, the name
    that [extractRepoName] gives for it, and [.git], and that name is a
    run of letters, digits, underscores, dots and hyphens. *)
Theorem extractRepoName_gives_the_last_segment :
  (forall before name,
     no_slash name = true -> name <> "" ->
     Utils.extractRepoName (before ++ "/" ++ name ++ ".git") = name)
  /\ (forall url,
        no_slash url = true -> Utils.extractRepoName url = "repository")
  /\ (forall before, Utils.extractRepoName (before ++ "/") = "repository")
  /\ (forall url,
        Utils.isValidGitUrl url = true ->
        is_run (Utils.extractRepoName url) = true
        /\ exists before,
             url = (before ++ "/" ++ Utils.extractRepoName url ++ ".git")%string).
Proof.
  refine (conj extractRepoName_name (conj _ (conj _ _))).
  - intros url H. unfold Utils.extractRepoName.
    now rewrite match_no_slash.
  - intros before. unfold Utils.extractRepoName.
    now rewrite match_trailing_slash.
  - intros url H. apply isValidGitUrl_shape in H.
    destruct H as [host [owner [repo [Hh [Ho [Hr H]]]]]].
    destruct (is_run_no_slash repo Hr) as [Hno Hne].
    destruct H as [-> | ->].
    + assert (E : https_address host owner repo
                  = (("https://" ++ host ++ "/" ++ owner) ++ "/" ++ repo
                     ++ ".git")%string).
      { unfold https_address. now rewrite !append_assoc. }
      rewrite E, extractRepoName_name by assumption.
      split; [exact Hr|]. now eexists.
    + assert (E : ssh_address host owner repo
                  = (("git@" ++ host ++ ":" ++ owner) ++ "/" ++ repo
                     ++ ".git")%string).
      { unfold ssh_address. now rewrite !append_assoc. }
      rewrite E, extractRepoName_name by assumption.
      split; [exact Hr|]. now eexists.
Qed.

Lemma extractRepoName_gives_the_last_segment_witness :
  Utils.extractRepoName "https://github.com/som-28/loom.git.git" = "loom.git"
  /\ Utils.extractRepoName "git@host:vault.git" = "repository".
Proof.
  destruct extractRepoName_gives_the_last_segment as [H1 [H2 _]].
  split.
  - apply (H1 "https://github.com/som-28" "loom.git"); [reflexivity|].
    discriminate.
  - apply (H2 "git@host:vault.git"). reflexivity.
Defined.

(** ** The status bar *)

Section StatusBar.

Import StatusBarManager.

Lemma last_cons {A : Type} (a : A) (l : list A) (d : A) :
  last (a :: l) d = last l a.
Proof.
  destruct l as [|b l]; [reflexivity|].
  change (last (b :: l) d = last (b :: l) a). apply last_cons_default.
Qed.

Lemma shows_updateStatus (s s' : SyncStatus) (message : option string)
  (sb : StatusBarManager.t) :
  shows s sb -> shows s' (updateStatus s' message sb).
Proof.
  intros [_ [item [Hitem _]]]. unfold updateStatus. rewrite Hitem.
  destruct s'; cbn; (split; [reflexivity|]); eexists; split; reflexivity.
Qed.

(** The status bar shows the last status that its subscriber was told. *)
Lemma shows_follow (events : list Event) :
  forall s sb,
    shows s sb ->
    shows (last (told subscriber events) s) (follow events sb).
Proof.
  induction events as [|e events IH]; intros s sb H; [exact H|].
  unfold follow. cbn [fold_left]. fold (follow events (on_status e sb)).
  destruct e; try (now apply IH).
  cbn [on_status told].
  destruct (Nat.eqb callback subscriber); [|now apply IH].
  rewrite last_cons. apply IH. now apply (shows_updateStatus s).
Qed.

Lemma in_step_with_manager (p : Plugin.t) (m' : SyncManager.t) :
  in_step p ->
  announced (Plugin.syncManager p) m' ->
  in_step (Plugin.with_manager m' p).
Proof.
  intros [Hin Hshows] [Hcbs [new [Htrace [_ Hlast]]]].
  unfold in_step, Plugin.with_manager.
  cbn [Plugin.syncManager Plugin.statusBarManager].
  rewrite Hcbs. split; [exact Hin|].
  rewrite Htrace, skipn_app, skipn_all, Nat.sub_diag. cbn [skipn app].
  rewrite <- (Hlast subscriber Hin). now apply shows_follow.
Qed.

Lemma announced_at_clock (time : N) (m : SyncManager.t) :
  announced m (Plugin.at_clock time m).
Proof.
  apply (announced_quiet m _ []); try reflexivity.
  cbn. now rewrite app_nil_r.
Qed.

Variable w : Gateway.t.

Lemma in_step_call_back (d : FileWatcher.Delivery) (p : Plugin.t) :
  in_step p -> in_step (Plugin.call_back w d p).
Proof.
  intros H. unfold Plugin.call_back.
  destruct (Nat.eqb (FileWatcher.to d) Plugin.on_change); [|exact H].
  apply in_step_with_manager; [exact H|].
  eapply announced_trans;
    [apply announced_at_clock | apply announced_handleFileChange].
Qed.

Lemma in_step_deliveries (deliveries : list FileWatcher.Delivery) :
  forall p,
    in_step p ->
    in_step (fold_left (fun p d => Plugin.call_back w d p) deliveries p).
Proof.
  induction deliveries as [|d deliveries IH]; intros p H; [exact H|].
  cbn [fold_left]. apply IH. now apply in_step_call_back.
Qed.

Lemma in_step_happen (h : Happening) (p : Plugin.t) :
  in_step p -> in_step (happen w p h).
Proof.
  intros H. destruct h as [|time|i]; cbn [happen].
  - apply in_step_with_manager; [exact H|].
    apply announced_performManualSync.
  - unfold Plugin.tick, Plugin.deliver. now apply in_step_deliveries.
  - unfold Plugin.step, Plugin.deliver. now apply in_step_deliveries.
Qed.

End StatusBar.

(** X24. The status bar follows the manager.  Once the status bar holds
    its item, is subscribed to the manager and shows the status of the
    manager, it shows the status of the manager after whatever follows of
    manual syncs, timers and events of the watcher, whatever the Gateway
    answers: the icon and the text are those of the status in which the
    manager is. *)
Theorem the_status_bar_follows_the_manager (w : Gateway.t) (p : Plugin.t)
  (happenings : list Happening) :
  in_step p ->
  let p' := fold_left (happen w) happenings p in
  StatusBarManager.currentStatus (Plugin.statusBarManager p')
  = status (Plugin.syncManager p')
  /\ exists item,
       StatusBarManager.statusBarItem (Plugin.statusBarManager p') = Some item
       /\ StatusBarManager.innerHTML item
          = shown (status (Plugin.syncManager p')).
Proof.
  intros H p'. subst p'.
  assert (Hend : in_step (fold_left (happen w) happenings p)).
  { revert p H. induction happenings as [|h happenings IH]; intros p H;
      [exact H|].
    cbn [fold_left]. apply IH. now apply in_step_happen. }
  exact (proj2 Hend).
Qed.

Lemma the_status_bar_follows_the_manager_witness :
  let p :=
    Plugin.startFileWatching
      (Plugin.setupStatusBar
         (StatusBarManager.mkElement None "" "loom-status-bar")
         (Plugin.mk DEFAULT_SETTINGS
            (FileWatcher.constructor DEFAULT_SETTINGS)
            (Sample.manager DEFAULT_SETTINGS)
            StatusBarManager.constructor)) in
  let p' :=
    fold_left (happen Sample.stubborn)
      [Watcher (0%N,
                FileWatcher.Vault modify (FileWatcher.IsFile Sample.note_a));
       Timers 500] p in
  status (Plugin.syncManager p') = error
  /\ StatusBarManager.currentStatus (Plugin.statusBarManager p') = error.
Proof.
  intros p p'.
  assert (Hstep : in_step p).
  { split.
    - right. right. now left.
    - split; [reflexivity|]. eexists. split; reflexivity. }
  pose proof (the_status_bar_follows_the_manager Sample.stubborn p
                [Watcher (0%N,
                          FileWatcher.Vault modify
                            (FileWatcher.IsFile Sample.note_a));
                 Timers 500] Hstep) as H.
  cbv zeta in H. destruct H as [H _]. fold p' in H.
  assert (Hs : status (Plugin.syncManager p') = error)
    by (vm_compute; reflexivity).
  split; [exact Hs|]. rewrite H. exact Hs.
Defined.

(** ** The status bar at start-up *)

Section StartUp.

Variable w : Gateway.t.
Variable s : SyncStatus.
Hypothesis Hsticky : s = error \/ s = offline.

Lemma out_of_step_call_back (tr : list Event) (sb : StatusBarManager.t)
  (d : FileWatcher.Delivery) (p : Plugin.t) :
  out_of_step s tr sb p -> out_of_step s tr sb (Plugin.call_back w d p).
Proof.
  intros [Hs [Ht Hsb]]. unfold Plugin.call_back.
  destruct (Nat.eqb (FileWatcher.to d) Plugin.on_change);
    [|now repeat split].
  assert (Hdrop :
    handleFileChange w (FileWatcher.file d) (FileWatcher.action d)
      (Plugin.at_clock (FileWatcher.at_time d) (Plugin.syncManager p))
    = (Normal tt,
       Plugin.at_clock (FileWatcher.at_time d) (Plugin.syncManager p))).
  { unfold handleFileChange. cbn [status Plugin.at_clock]. rewrite Hs.
    now destruct Hsticky as [-> | ->]. }
  rewrite Hdrop. unfold out_of_step, Plugin.with_manager.
  cbn [snd Plugin.syncManager Plugin.statusBarManager Plugin.at_clock status
       trace].
  rewrite skipn_all. now repeat split.
Qed.

Lemma out_of_step_deliveries (tr : list Event) (sb : StatusBarManager.t)
  (deliveries : list FileWatcher.Delivery) :
  forall p,
    out_of_step s tr sb p ->
    out_of_step s tr sb
      (fold_left (fun p d => Plugin.call_back w d p) deliveries p).
Proof.
  induction deliveries as [|d deliveries IH]; intros p H; [exact H|].
  cbn [fold_left]. apply IH. now apply out_of_step_call_back.
Qed.

Lemma out_of_step_happen (tr : list Event) (sb : StatusBarManager.t)
  (h : Happening) (p : Plugin.t) :
  unattended h = true ->
  out_of_step s tr sb p -> out_of_step s tr sb (happen w p h).
Proof.
  intros Hh H. destruct h as [|time|i]; [discriminate Hh| |]; cbn [happen].
  - unfold Plugin.tick, Plugin.deliver. now apply out_of_step_deliveries.
  - unfold Plugin.step, Plugin.deliver. now apply out_of_step_deliveries.
Qed.

Lemma out_of_step_run (tr : list Event) (sb : StatusBarManager.t)
  (happenings : list Happening) :
  forall p,
    forallb unattended happenings = true ->
    out_of_step s tr sb p ->
    out_of_step s tr sb (fold_left (happen w) happenings p).
Proof.
  induction happenings as [|h happenings IH]; intros p Hh H; [exact H|].
  cbn [forallb] in Hh. apply andb_prop in Hh. destruct Hh as [Hh Hhs].
  cbn [fold_left]. apply IH; [exact Hhs|].
  now apply out_of_step_happen.
Qed.

End StartUp.

Section StartUpOffline.

Variable w : Gateway.t.

(** The plugin after [onload] when the remote does not answer. *)
Lemma onload_offline (loaded : LoomSettings) (vaultPath : string)
  (item : StatusBarManager.HTMLElement) :
  truthy (remoteUrl loaded) = true ->
  Gateway.listRemote w [] (remoteUrl loaded) = false ->
  out_of_step offline [CallListRemote (remoteUrl loaded) false]
    (StatusBarManager.mk
       (Some (StatusBarManager.mkElement
                (Some (StatusBarManager.check_mark, "Synced"))
                "Loom Git Sync: Ready"
                (StatusBarManager.remove_matches 0
                   (StatusBarManager.className item) ++ " status-idle")))
       idle "Ready")
    (Plugin.onload w loaded vaultPath item).
Proof.
  intros Hremote Hdown. unfold Plugin.onload.
  assert (Hinit :
    initialize w
      (SyncManager.constructor (GitService.mk vaultPath loaded) loaded)
    = SyncManager.mk (GitService.mk vaultPath loaded) loaded offline None []
        false [] 0%N [CallListRemote (remoteUrl loaded) false]).
  { unfold initialize, SyncManager.constructor.
    cbn [GitService.isRepositoryInitialized negb settings].
    rewrite Hremote.
    unfold gitTestConnection, GitService.testConnection.
    cbn [gitService GitService.settings trace]. rewrite Hremote, Hdown.
    cbn [negb]. rewrite updateStatus_eq. reflexivity. }
  cbn [Plugin.settings Plugin.fileWatcher Plugin.syncManager
       Plugin.statusBarManager].
  rewrite Hinit.
  unfold out_of_step. cbn.
  destruct (autoSync loaded); cbn; now repeat split.
Qed.

End StartUpOffline.

(** X25. The status bar starts out of step when the remote does not answer.
    [onload] (of the entry file kept with settings.ts) initializes the
    manager before the status bar subscribes to it:
    when a remote is configured and the connection test fails, the manager
    is offline after [onload] while the status bar shows the icon and the
    text of [idle], with the title [Ready].  Whatever timers and events of
    the watcher follow, the manager stays offline, no commit is asked, and
    the status bar is not told: it goes on showing [idle]. *)
Theorem the_status_bar_starts_out_of_step (w : Gateway.t)
  (loaded : LoomSettings) (vaultPath : string)
  (item : StatusBarManager.HTMLElement) (happenings : list Happening) :
  truthy (remoteUrl loaded) = true ->
  Gateway.listRemote w [] (remoteUrl loaded) = false ->
  forallb unattended happenings = true ->
  let p := Plugin.onload w loaded vaultPath item in
  let p' := fold_left (happen w) happenings p in
  status (Plugin.syncManager p) = offline
  /\ status (Plugin.syncManager p') = offline
  /\ commit_calls (trace (Plugin.syncManager p')) = 0
  /\ Plugin.statusBarManager p' = Plugin.statusBarManager p
  /\ StatusBarManager.currentStatus (Plugin.statusBarManager p') = idle
  /\ exists item',
       StatusBarManager.statusBarItem (Plugin.statusBarManager p')
       = Some item'
       /\ StatusBarManager.innerHTML item' = shown idle
       /\ StatusBarManager.title item' = "Loom Git Sync: Ready".
Proof.
  intros Hremote Hdown Hh p p'.
  pose proof (onload_offline w loaded vaultPath item Hremote Hdown) as H0.
  fold p in H0.
  pose proof (out_of_step_run w offline (or_intror eq_refl) _ _ happenings p
                Hh H0) as H1.
  fold p' in H1.
  destruct H0 as [Hs0 [_ Hsb0]]. destruct H1 as [Hs1 [Ht1 Hsb1]].
  refine (conj Hs0 (conj Hs1 (conj _ (conj _ (conj _ _))))).
  - now rewrite Ht1.
  - now rewrite Hsb0, Hsb1.
  - now rewrite Hsb1.
  - rewrite Hsb1. eexists. repeat split.
Qed.

Lemma the_status_bar_starts_out_of_step_witness :
  let p' :=
    fold_left (happen Sample.unreachable)
      [Watcher (0%N,
                FileWatcher.Vault modify (FileWatcher.IsFile Sample.note_a));
       Timers 500]
      (Plugin.onload Sample.unreachable Sample.remote_settings "/vault"
         (StatusBarManager.mkElement None "" "loom-status-bar")) in
  status (Plugin.syncManager p') = offline
  /\ StatusBarManager.currentStatus (Plugin.statusBarManager p') = idle.
Proof.
  intros p'.
  pose proof (the_status_bar_starts_out_of_step Sample.unreachable
                Sample.remote_settings "/vault"
                (StatusBarManager.mkElement None "" "loom-status-bar")
                [Watcher (0%N,
                          FileWatcher.Vault modify
                            (FileWatcher.IsFile Sample.note_a));
                 Timers 500] eq_refl eq_refl eq_refl) as H.
  cbv zeta in H. fold p' in H.
  destruct H as [_ [H1 [_ [_ [H2 _]]]]].
  split; [exact H1 | exact H2].
Defined.

(** ** Commands that write to the status bar themselves *)

Section Commands.

Variable w : Gateway.t.

Lemma push_to_remote_accepted (se : LoomSettings) (fw : FileWatcher.t)
  (m : SyncManager.t) (item : StatusBarManager.HTMLElement)
  (cs : SyncStatus) (cm : string) :
  Gateway.push w (trace m) = None ->
  Plugin.push_to_remote w
    (Plugin.mk se fw m (StatusBarManager.mk (Some item) cs cm))
  = Plugin.mk se fw
      (emit (Noticed "Successfully pushed to remote")
         (emit (CallPush None) m))
      (StatusBarManager.updateStatus idle (Some "Pushed to remote")
         (StatusBarManager.updateStatus syncing (Some "Pushing to remote...")
            (StatusBarManager.mk (Some item) cs cm))).
Proof.
  intros Hpush. unfold Plugin.push_to_remote, Plugin.directly, gitPush.
  cbn [Plugin.syncManager Plugin.with_statusBarManager Plugin.settings
       Plugin.fileWatcher Plugin.statusBarManager].
  rewrite Hpush. reflexivity.
Qed.

End Commands.

(** X26. The command that pushes writes to the status bar past the manager.
    It calls the [GitService] itself and sets the status bar itself; the
    manager is not told.  When the manager is in [error] or [offline] and
    the push succeeds, the status bar shows [idle] with the title
    [Pushed to remote], while the manager keeps its status and the time of
    its last sync; and whatever timers and events of the watcher follow,
    the manager goes on dropping the file changes (no commit is asked) under
    a status bar that goes on showing [idle]. *)
Theorem a_command_writes_past_the_manager (w : Gateway.t) (p : Plugin.t)
  (item : StatusBarManager.HTMLElement) (happenings : list Happening) :
  StatusBarManager.statusBarItem (Plugin.statusBarManager p) = Some item ->
  status (Plugin.syncManager p) = error
  \/ status (Plugin.syncManager p) = offline ->
  Gateway.push w (trace (Plugin.syncManager p)) = None ->
  forallb unattended happenings = true ->
  let p1 := Plugin.push_to_remote w p in
  let p2 := fold_left (happen w) happenings p1 in
  status (Plugin.syncManager p1) = status (Plugin.syncManager p)
  /\ lastSyncTime (Plugin.syncManager p1) = lastSyncTime (Plugin.syncManager p)
  /\ shows idle (Plugin.statusBarManager p1)
  /\ (exists item1,
        StatusBarManager.statusBarItem (Plugin.statusBarManager p1)
        = Some item1
        /\ StatusBarManager.title item1 = "Loom Git Sync: Pushed to remote")
  /\ status (Plugin.syncManager p2) = status (Plugin.syncManager p)
  /\ commit_calls (trace (Plugin.syncManager p2))
     = commit_calls (trace (Plugin.syncManager p))
  /\ Plugin.statusBarManager p2 = Plugin.statusBarManager p1.
Proof.
  intros Hitem Hsticky Hpush Hh p1 p2.
  destruct p as [se fw m [it cs cm]].
  cbn [Plugin.statusBarManager Plugin.syncManager
       StatusBarManager.statusBarItem] in *.
  subst it.
  assert (H1 : p1
               = Plugin.mk se fw
                   (emit (Noticed "Successfully pushed to remote")
                      (emit (CallPush None) m))
                   (StatusBarManager.updateStatus idle
                      (Some "Pushed to remote")
                      (StatusBarManager.updateStatus syncing
                         (Some "Pushing to remote...")
                         (StatusBarManager.mk (Some item) cs cm))))
    by (subst p1; now apply push_to_remote_accepted).
  assert (Hout : out_of_step (status m) (trace (Plugin.syncManager p1))
                   (Plugin.statusBarManager p1) p1)
    by (rewrite H1; now repeat split).
  pose proof (out_of_step_run w (status m) Hsticky _ _ happenings p1 Hh Hout)
    as H2.
  fold p2 in H2. destruct H2 as [Hs2 [Ht2 Hsb2]].
  rewrite Hs2, Ht2, Hsb2, H1.
  cbn [Plugin.syncManager Plugin.statusBarManager].
  refine (conj eq_refl (conj eq_refl (conj _ (conj _ (conj eq_refl
            (conj _ eq_refl)))))).
  - split; [reflexivity|]. eexists. split; reflexivity.
  - eexists. split; reflexivity.
  - unfold emit, set_trace. cbn [trace].
    rewrite !commit_calls_app. cbn. lia.
Qed.

Lemma a_command_writes_past_the_manager_witness :
  let p :=
    Plugin.onload Sample.unreachable Sample.remote_settings "/vault"
      (StatusBarManager.mkElement None "" "loom-status-bar") in
  let p2 :=
    fold_left (happen Sample.healthy)
      [Watcher (0%N,
                FileWatcher.Vault modify (FileWatcher.IsFile Sample.note_a));
       Timers 500]
      (Plugin.push_to_remote Sample.healthy p) in
  status (Plugin.syncManager p) = offline
  /\ status (Plugin.syncManager p2) = offline
  /\ commit_calls (trace (Plugin.syncManager p2)) = 0.
Proof.
  intros p p2.
  assert (Hs : status (Plugin.syncManager p) = offline) by reflexivity.
  pose proof (a_command_writes_past_the_manager Sample.healthy p
                (StatusBarManager.mkElement
                   (Some (StatusBarManager.check_mark, "Synced"))
                   "Loom Git Sync: Ready" "loom-status-bar status-idle")
                [Watcher (0%N,
                          FileWatcher.Vault modify
                            (FileWatcher.IsFile Sample.note_a));
                 Timers 500]
                eq_refl (or_intror Hs) eq_refl eq_refl) as H.
  cbv zeta in H. fold p2 in H.
  destruct H as [_ [_ [_ [_ [H1 [H2 _]]]]]].
  split; [exact Hs|]. split.
  - rewrite H1. exact Hs.
  - rewrite H2. reflexivity.
Defined.

(** ** The command that toggles auto-sync *)

(** X27. Auto-sync toggled off and on again.  Toggling off stops the
    watcher and sets the status bar to [offline]; toggling on starts the
    watcher again, with the callback of the plugin, but leaves the status
    bar alone unless it shows [idle]: after off and on the status bar
    still shows [offline], with the message [Auto-sync disabled].  The
    manager is not told of either: its status, its queue and its trace but
    for the two notices are what they were.  After each toggle the three
    services hold the settings of the plugin. *)
Theorem auto_sync_off_and_on (p : Plugin.t)
  (item : StatusBarManager.HTMLElement) :
  autoSync (Plugin.settings p) = true ->
  consistent (Plugin.fileWatcher p) ->
  StatusBarManager.statusBarItem (Plugin.statusBarManager p) = Some item ->
  let p1 := Plugin.toggle_auto_sync p in
  let p2 := Plugin.toggle_auto_sync p1 in
  (autoSync (Plugin.settings p1) = false
   /\ FileWatcher.isActive (Plugin.fileWatcher p1) = false
   /\ shows offline (Plugin.statusBarManager p1))
  /\ (autoSync (Plugin.settings p2) = true
      /\ watching Plugin.on_change (Plugin.fileWatcher p2)
      /\ shows offline (Plugin.statusBarManager p2)
      /\ StatusBarManager.currentMessage (Plugin.statusBarManager p2)
         = "Auto-sync disabled")
  /\ (status (Plugin.syncManager p2) = status (Plugin.syncManager p)
      /\ syncQueue (Plugin.syncManager p2) = syncQueue (Plugin.syncManager p)
      /\ trace (Plugin.syncManager p2)
         = trace (Plugin.syncManager p)
           ++ [Noticed "Auto-sync disabled"; Noticed "Auto-sync enabled"])
  /\ (FileWatcher.settings (Plugin.fileWatcher p2) = Plugin.settings p2
      /\ settings (Plugin.syncManager p2) = Plugin.settings p2
      /\ GitService.settings (gitService (Plugin.syncManager p2))
         = Plugin.settings p2).
Proof.
  intros Hauto Hcons Hitem p1 p2.
  destruct p as [se fw m [it cs cm]].
  cbn [Plugin.settings Plugin.fileWatcher Plugin.statusBarManager
       Plugin.syncManager StatusBarManager.statusBarItem] in *.
  subst it.
  destruct se as [ru br am au cmt dd ep gun gue ap sn ls ri].
  cbn [autoSync] in Hauto. subst au.
  destruct fw as [fse ac c refs h dl].
  destruct m as [gs mse st lst q pq cbs nw tr].
  assert (Hrefs : (ac = true /\ refs = [create; modify; delete; rename])
                  \/ (ac = false /\ refs = [])).
  { destruct Hcons as [[Ha [_ Hr]] | [Ha [_ Hr]]]; cbn in Ha, Hr; auto. }
  subst p2 p1.
  destruct Hrefs as [[-> ->] | [-> ->]];
    (refine (conj _ (conj _ (conj _ _)));
     [ refine (conj eq_refl (conj eq_refl _));
       (split; [reflexivity|]); eexists; split; reflexivity
     | refine (conj eq_refl (conj _ (conj _ eq_refl)));
       [ now repeat split
       | (split; [reflexivity|]); eexists; split; reflexivity ]
     | refine (conj eq_refl (conj eq_refl _));
       cbn; now rewrite <- app_assoc
     | now repeat split ]).
Qed.

Lemma auto_sync_off_and_on_witness :
  let p :=
    Plugin.onload Sample.healthy DEFAULT_SETTINGS "/vault"
      (StatusBarManager.mkElement None "" "loom-status-bar") in
  let p2 := Plugin.toggle_auto_sync (Plugin.toggle_auto_sync p) in
  status (Plugin.syncManager p2) = idle
  /\ StatusBarManager.currentStatus (Plugin.statusBarManager p2) = offline.
Proof.
  intros p p2.
  pose proof (auto_sync_off_and_on p
                (StatusBarManager.mkElement
                   (Some (StatusBarManager.check_mark, "Synced"))
                   "Loom Git Sync: Ready" "loom-status-bar status-idle")
                eq_refl) as H.
  cbv zeta in H. fold p2 in H.
  destruct H as [_ [[_ [_ [[H2 _] _]]] [[H3 _] _]]].
  - left. now repeat split; try (now exists Plugin.on_change).
  - reflexivity.
  - split; [rewrite H3; reflexivity | exact H2].
Defined.

(** ** The class of the status bar item *)

Section ClassName.

Import StatusBarManager.

Lemma prefix_before_blank (candidate u t : string) :
  all_chars (fun c => negb (Ascii.eqb c " ")) candidate = true ->
  String.prefix candidate (u ++ String " " t) = String.prefix candidate u.
Proof.
  revert u. induction candidate as [|a candidate IH]; intros u H.
  - now destruct u.
  - cbn [all_chars] in H. apply andb_prop in H. destruct H as [Ha H].
    apply negb_true_iff in Ha.
    destruct u as [|b u]; cbn [append String.prefix].
    + destruct (ascii_dec a " ") as [-> | _]; [discriminate Ha | reflexivity].
    + destruct (ascii_dec a b); [now apply IH | reflexivity].
Qed.

Lemma match_length_before_blank (u t : string) :
  match_length alternatives (u ++ String " " t) = match_length alternatives u.
Proof.
  unfold alternatives. cbn [match_length].
  now rewrite !prefix_before_blank by reflexivity.
Qed.

Lemma match_length_blank (t : string) :
  match_length alternatives (String " " t) = None.
Proof. reflexivity. Qed.

(** No match begins in a text that holds no status class, when a blank
    follows it. *)
Lemma remove_matches_clean (base t : string) :
  no_class_in base = true ->
  remove_matches 0 (base ++ String " " t)
  = (base ++ remove_matches 0 (String " " t))%string.
Proof.
  induction base as [|c base IH]; intros H; [reflexivity|].
  cbn [no_class_in] in H.
  change ((String c base ++ String " " t)%string)
    with (String c (base ++ String " " t)).
  cbn [remove_matches].
  change (String c (base ++ String " " t))
    with ((String c base ++ String " " t)%string).
  rewrite match_length_before_blank.
  destruct (match_length alternatives (String c base)); [discriminate H|].
  cbn [append]. now rewrite IH.
Qed.

Lemma remove_matches_clean_end (base : string) :
  no_class_in base = true -> remove_matches 0 base = base.
Proof.
  induction base as [|c base IH]; intros H; [reflexivity|].
  cbn [no_class_in] in H. cbn [remove_matches].
  destruct (match_length alternatives (String c base)); [discriminate H|].
  now rewrite IH.
Qed.

Lemma remove_matches_blanks (n : nat) (s : SyncStatus) :
  remove_matches 0 (blanks n ++ "status-" ++ status_name s) = blanks n.
Proof.
  induction n as [|n IH].
  - now destruct s.
  - change (blanks (S n) ++ "status-" ++ status_name s)%string
      with (String " " (blanks n ++ "status-" ++ status_name s)).
    cbn [remove_matches]. rewrite match_length_blank, IH. reflexivity.
Qed.

Lemma remove_matches_suffix (base : string) (n : nat) (s : SyncStatus) :
  no_class_in base = true ->
  remove_matches 0 (base ++ class_suffix n s) = (base ++ blanks n)%string.
Proof.
  intros H. destruct n as [|n].
  - cbn [class_suffix blanks].
    replace (base ++ "")%string with base
      by (clear; induction base as [|c base IH]; cbn; congruence).
    now apply remove_matches_clean_end.
  - unfold class_suffix.
    change (blanks (S n) ++ "status-" ++ status_name s)%string
      with (String " " (blanks n ++ "status-" ++ status_name s)).
    rewrite remove_matches_clean by exact H.
    change (String " " (blanks n ++ "status-" ++ status_name s))
      with (blanks (S n) ++ "status-" ++ status_name s)%string.
    now rewrite remove_matches_blanks.
Qed.

Lemma blanks_snoc (n : nat) (t : string) :
  (blanks n ++ String " " t = blanks (S n) ++ t)%string.
Proof.
  induction n as [|n IH]; [reflexivity|].
  cbn [blanks append] in *. now rewrite IH.
Qed.

Lemma class_after_update (base : string) (n : nat) (s s' : SyncStatus)
  (message : option string) (sb : StatusBarManager.t)
  (item : HTMLElement) :
  no_class_in base = true ->
  statusBarItem sb = Some item ->
  className item = (base ++ class_suffix n s)%string ->
  exists item',
    statusBarItem (updateStatus s' message sb) = Some item'
    /\ className item' = (base ++ class_suffix (S n) s')%string.
Proof.
  intros Hbase Hitem Hclass. unfold updateStatus. rewrite Hitem.
  destruct (getStatusDisplay s' message) as [[icon text] title].
  eexists. split; [reflexivity|]. cbn [className].
  rewrite Hclass, remove_matches_suffix by exact Hbase.
  unfold class_suffix. rewrite append_assoc.
  change (" status-" ++ status_name s')%string
    with (String " " ("status-" ++ status_name s')).
  now rewrite blanks_snoc.
Qed.

Lemma class_after_updates (base : string)
  (updates : list (SyncStatus * option string)) :
  forall (n : nat) (s : SyncStatus) (sb : StatusBarManager.t)
         (item : HTMLElement),
    no_class_in base = true ->
    statusBarItem sb = Some item ->
    className item = (base ++ class_suffix n s)%string ->
    exists item',
      statusBarItem (update_all updates sb) = Some item'
      /\ className item'
         = (base ++ class_suffix (n + List.length updates)
                      (last (map fst updates) s))%string.
Proof.
  induction updates as [|[s' message] updates IH];
    intros n s sb item Hbase Hitem Hclass.
  - exists item. cbn. now rewrite Nat.add_0_r.
  - destruct (class_after_update base n s s' message sb item Hbase Hitem
                Hclass) as [item1 [Hitem1 Hclass1]].
    destruct (IH (S n) s' _ item1 Hbase Hitem1 Hclass1)
      as [item2 [Hitem2 Hclass2]].
    exists item2. split; [exact Hitem2|].
    rewrite Hclass2. cbn [List.length map fst].
    rewrite last_cons, Nat.add_succ_r. reflexivity.
Qed.

End ClassName.

(** X28. The status bar item carries one status class at a time, and one
    blank more with each update.  When the class of the item holds none of
    the four status classes to begin with, then after any run of updates
    the class is what it was to begin with, as many blanks as there were
    updates, and the one class of the status of the last update: the class
    of the update before is taken out, the blank in front of it is not. *)
Theorem one_status_class_at_a_time (sb : StatusBarManager.t)
  (item : StatusBarManager.HTMLElement)
  (updates : list (SyncStatus * option string)) (s : SyncStatus)
  (message : option string) :
  StatusBarManager.statusBarItem sb = Some item ->
  no_class_in (StatusBarManager.className item) = true ->
  exists item',
    StatusBarManager.statusBarItem
      (update_all (updates ++ [(s, message)]) sb) = Some item'
    /\ StatusBarManager.className item'
       = (StatusBarManager.className item
          ++ blanks (S (List.length updates))
          ++ "status-" ++ StatusBarManager.status_name s)%string.
Proof.
  intros Hitem Hbase.
  destruct (class_after_updates (StatusBarManager.className item)
              (updates ++ [(s, message)]) 0 idle sb item Hbase Hitem)
    as [item' [Hitem' Hclass]].
  - cbn [class_suffix].
    clear. induction (StatusBarManager.className item) as [|c base IH];
      cbn; congruence.
  - exists item'. split; [exact Hitem'|].
    rewrite Hclass, length_app, map_app, last_app_default.
    cbn [List.length map fst last Nat.add].
    rewrite Nat.add_1_r. reflexivity.
Qed.

Lemma one_status_class_at_a_time_witness :
  exists item',
    StatusBarManager.statusBarItem
      (update_all [(idle, Some "Ready"); (syncing, None); (error, Some "no")]
         (StatusBarManager.mk
            (Some (StatusBarManager.mkElement None ""
                     "status-bar-item loom-status-bar"))
            idle ""))
    = Some item'
    /\ StatusBarManager.className item'
       = "status-bar-item loom-status-bar   status-error".
Proof.
  exact (one_status_class_at_a_time
           (StatusBarManager.mk
              (Some (StatusBarManager.mkElement None ""
                       "status-bar-item loom-status-bar"))
              idle "")
           (StatusBarManager.mkElement None ""
              "status-bar-item loom-status-bar")
           [(idle, Some "Ready"); (syncing, None)] error (Some "no")
           eq_refl eq_refl).
Defined.

(** ** [RetryHelper.retry] on any operation *)

Section RetryHelper.

Context {A : Type}.
Variable script : nat -> Completion A.
Variable baseDelay : N.


Lemma waited_app (log1 log2 : list Attempted) :
  waited (log1 ++ log2) = (waited log1 + waited log2)%N.
Proof.
  induction log1 as [|[|ms] log1 IH]; cbn [app waited]; rewrite ?IH; lia.
Qed.




End RetryHelper.



(** ** What the [GitService] asks of the library, and what it throws *)

Section GitServiceCalls.

Variable git : SimpleGit.t.
Variable g : GitService.t.
Variable calls : list SimpleGit.Call.

Lemma prefix_append (s1 s2 : string) : String.prefix s1 (s1 ++ s2) = true.
Proof.
  induction s1 as [|c s1 IH]; [now destruct s2|].
  cbn [append String.prefix]. now destruct (ascii_dec c c).
Qed.

Lemma commit_calls_and_throws (message : string)
  (filePaths : option (list string)) :
  exists new,
    snd (GitService.commit git g message filePaths calls) = calls ++ new
    /\ (forall e,
          fst (GitService.commit git g message filePaths calls) = Throw e ->
          String.prefix "Failed to commit: " e = true)
    /\ fst (GitService.commit git g message filePaths calls) <> OutOfFuel
    /\ (forall m thrown,
          In (SimpleGit.Commit m thrown) new ->
          m = message
          /\ exists p staged, In (SimpleGit.Status (inr (p :: staged))) new).
Proof.
  unfold GitService.commit.
  set (files := match filePaths with
                | Some (p :: ps) => inr (p :: ps)
                | _ => inl "."
                end).
  destruct (SimpleGit.add git calls files) as [e|] eqn:Eadd.
  - eexists. cbn [fst snd]. refine (conj eq_refl (conj _ (conj _ _))).
    + intros e' [= <-]. exact (prefix_append "Failed to commit: " _).
    + discriminate.
    + intros m thrown [H | []]. discriminate H.
  - destruct (SimpleGit.status git (calls ++ [SimpleGit.Add files None]))
      as [e | [|p staged]] eqn:Estatus; cbn [List.length Nat.eqb].
    + eexists. cbn [fst snd]. rewrite <- app_assoc.
      refine (conj eq_refl (conj _ (conj _ _))).
      * intros e' [= <-]. exact (prefix_append "Failed to commit: " _).
      * discriminate.
      * intros m thrown [H | [H | []]]; discriminate H.
    + eexists. cbn [fst snd]. rewrite <- app_assoc.
      refine (conj eq_refl (conj _ (conj _ _))).
      * discriminate.
      * discriminate.
      * intros m thrown [H | [H | []]]; discriminate H.
    + destruct (SimpleGit.commit git _ message) as [e|];
        eexists; cbn [fst snd]; rewrite <- !app_assoc;
        (refine (conj eq_refl (conj _ (conj _ _)));
         [ try discriminate; intros e' [= <-]; exact (prefix_append "Failed to commit: " _)
         | discriminate
         | intros m thrown [H | [H | [H | []]]]; try discriminate H;
           injection H as <- _; split; [reflexivity|];
           exists p, staged; right; now left ]).
Qed.

Lemma push_calls_and_throws (remote onBranch : option string) :
  let r := GitService.remoteName remote in
  let b := GitService.targetBranch g onBranch in
  exists new,
    snd (GitService.push git g remote onBranch calls) = calls ++ new
    /\ List.length new <= 2
    /\ hd_error new = Some (SimpleGit.Push r b (SimpleGit.push git calls r b))
    /\ (List.length new = 2
        <-> exists first,
              SimpleGit.push git calls r b = Some first
              /\ GitService.includes first "upstream" = true)
    /\ (forall e,
          fst (GitService.push git g remote onBranch calls) = Throw e ->
          String.prefix "Failed to push: " e = true
          \/ exists first,
               GitService.includes first "upstream" = true
               /\ new = [SimpleGit.Push r b (Some first);
                         SimpleGit.PushWith ["-u"; r; b] (Some e)]).
Proof.
  intros r b. unfold GitService.push. fold r b.
  destruct (SimpleGit.push git calls r b) as [first|] eqn:Epush.
  - destruct (GitService.includes first "upstream") eqn:Einc.
    + destruct (SimpleGit.pushWith git _ ["-u"; r; b]) as [e'|];
        eexists; cbn [fst snd]; rewrite <- !app_assoc;
        (refine (conj eq_refl (conj (le_n 2) (conj eq_refl (conj _ _))));
         [ split; [intros _; now exists first | reflexivity]
         | try discriminate ]).
      intros e [= <-]. right. now exists first.
    + eexists. cbn [fst snd].
      refine (conj eq_refl (conj _ (conj eq_refl (conj _ _)))).
      * cbn. lia.
      * split; [discriminate|].
        intros [first' [[= <-] H]]. congruence.
      * intros e [= <-]. left. exact (prefix_append "Failed to push: " _).
  - eexists. cbn [fst snd].
    refine (conj eq_refl (conj _ (conj eq_refl (conj _ _)))).
    + cbn. lia.
    + split; [discriminate|]. now intros [first [H _]].
    + discriminate.
Qed.

Lemma commit_stages_asks_and_commits (message : string)
  (filePaths : option (list string)) :
  let files :=
    match filePaths with
    | Some (p :: ps) => inr (p :: ps)
    | _ => inl "."
    end in
  let added := SimpleGit.add git calls files in
  let staging := SimpleGit.Add files added in
  let status := SimpleGit.status git (calls ++ [staging]) in
  let asking := SimpleGit.Status status in
  let committed := SimpleGit.commit git (calls ++ [staging; asking]) message in
  (forall e,
     added = Some e ->
     GitService.commit git g message filePaths calls
     = (Throw ("Failed to commit: " ++ e)%string, calls ++ [staging]))
  /\ (forall e,
        added = None -> status = inl e ->
        GitService.commit git g message filePaths calls
        = (Throw ("Failed to commit: " ++ e)%string,
           calls ++ [staging; asking]))
  /\ (added = None -> status = inr [] ->
      GitService.commit git g message filePaths calls
      = (Normal tt, calls ++ [staging; asking]))
  /\ (forall p staged,
        added = None -> status = inr (p :: staged) ->
        GitService.commit git g message filePaths calls
        = (match committed with
           | None => Normal tt
           | Some e => Throw ("Failed to commit: " ++ e)%string
           end,
           calls ++ [staging; asking; SimpleGit.Commit message committed])).
Proof.
  intros files added staging status asking committed.
  unfold GitService.commit. fold files. fold added. fold staging.
  fold status. fold asking.
  refine (conj _ (conj _ (conj _ _))).
  - intros e Hadded. now rewrite Hadded.
  - intros e Hadded Hstatus. rewrite Hadded, Hstatus.
    now rewrite <- app_assoc.
  - intros Hadded Hstatus. rewrite Hadded, Hstatus.
    now rewrite <- app_assoc.
  - intros p staged Hadded Hstatus. rewrite Hadded, Hstatus.
    cbn [List.length Nat.eqb].
    replace ((calls ++ [staging]) ++ [asking])
      with (calls ++ [staging; asking]) by now rewrite <- app_assoc.
    fold committed.
    replace ((calls ++ [staging; asking])
             ++ [SimpleGit.Commit message committed])
      with (calls ++ [staging; asking; SimpleGit.Commit message committed])
      by now rewrite <- app_assoc.
    now destruct committed.
Qed.

Lemma push_result (remote onBranch : option string) :
  let r := GitService.remoteName remote in
  let b := GitService.targetBranch g onBranch in
  let pushed := SimpleGit.push git calls r b in
  let first := SimpleGit.Push r b pushed in
  let again := SimpleGit.pushWith git (calls ++ [first]) ["-u"; r; b] in
  GitService.push git g remote onBranch calls
  = match pushed with
    | None => (Normal tt, calls ++ [first])
    | Some e =>
        if GitService.includes e "upstream" then
          (match again with
           | None => Normal tt
           | Some e' => Throw e'
           end,
           calls ++ [first; SimpleGit.PushWith ["-u"; r; b] again])
        else (Throw ("Failed to push: " ++ e)%string, calls ++ [first])
    end.
Proof.
  intros r b pushed first again.
  unfold GitService.push. fold r. fold b. fold pushed. fold first.
  destruct pushed as [e|]; [|reflexivity].
  destruct (GitService.includes e "upstream"); [|reflexivity].
  fold again. rewrite <- app_assoc. now destruct again.
Qed.

Lemma pull_result (remote onBranch : option string) :
  let r := GitService.remoteName remote in
  let b := GitService.targetBranch g onBranch in
  let pulled := SimpleGit.pull git calls r b in
  GitService.pull git g remote onBranch calls
  = (match pulled with
     | None => Normal tt
     | Some e => Throw ("Failed to pull: " ++ e)%string
     end,
     calls ++ [SimpleGit.Pull r b pulled]).
Proof.
  intros r b pulled. unfold GitService.pull. fold r. fold b. fold pulled.
  now destruct pulled.
Qed.

End GitServiceCalls.

(** X30. What the [GitService] asks of the library and what it throws.
    [commit] stages first (everything, when it is handed no path or an empty
    array of paths, the paths it is handed otherwise).  When staging fails
    that is its only call; otherwise it asks for the status next, with the
    staging call behind it.  When the status fails, or nothing is staged,
    these two calls are all it makes, and with nothing staged it returns
    normally; when something is staged it asks the library to commit with
    the message it was given, as its third and last call, and returns
    normally exactly when that commit does.  Whichever of the three calls
    fails, [commit] throws [Failed to commit: ] followed by the error of
    that call.
    [push] asks the library to push to the remote (origin unless one is
    given) and the branch (that of the settings unless a non-empty one is
    given); it asks a second time, with [-u], exactly when the first error
    mentions [upstream], and never a third time; it returns normally when
    the first push does, or when the second one is made and does; the
    message it throws is [Failed to push: ] followed by the first error,
    unless it is the error of the second push, which it throws as it is.
    [pull] makes one call, a pull from the same remote and branch; it
    returns normally when that call does, and otherwise throws
    [Failed to pull: ] followed by the error of the call. *)
Theorem what_the_GitService_asks_and_throws (git : SimpleGit.t)
  (g : GitService.t) (calls : list SimpleGit.Call) :
  (forall message filePaths,
     exists new,
       snd (GitService.commit git g message filePaths calls) = calls ++ new
       /\ (forall e,
             fst (GitService.commit git g message filePaths calls) = Throw e ->
             String.prefix "Failed to commit: " e = true)
       /\ fst (GitService.commit git g message filePaths calls) <> OutOfFuel
       /\ (forall m thrown,
             In (SimpleGit.Commit m thrown) new ->
             m = message
             /\ exists p staged,
                  In (SimpleGit.Status (inr (p :: staged))) new))
  /\ (forall message,
        GitService.commit git g message (Some []) calls
        = GitService.commit git g message None calls)
  /\ (forall remote onBranch,
        let r := GitService.remoteName remote in
        let b := GitService.targetBranch g onBranch in
        exists new,
          snd (GitService.push git g remote onBranch calls) = calls ++ new
          /\ List.length new <= 2
          /\ hd_error new
             = Some (SimpleGit.Push r b (SimpleGit.push git calls r b))
          /\ (List.length new = 2
              <-> exists first,
                    SimpleGit.push git calls r b = Some first
                    /\ GitService.includes first "upstream" = true)
          /\ (forall e,
                fst (GitService.push git g remote onBranch calls) = Throw e ->
                String.prefix "Failed to push: " e = true
                \/ exists first,
                     GitService.includes first "upstream" = true
                     /\ new = [SimpleGit.Push r b (Some first);
                               SimpleGit.PushWith ["-u"; r; b] (Some e)]))
  /\ (forall remote onBranch e,
        fst (GitService.pull git g remote onBranch calls) = Throw e ->
        String.prefix "Failed to pull: " e = true)
  /\ (forall message filePaths,
        let files :=
          match filePaths with
          | Some (p :: ps) => inr (p :: ps)
          | _ => inl "."
          end in
        let added := SimpleGit.add git calls files in
        let staging := SimpleGit.Add files added in
        let status := SimpleGit.status git (calls ++ [staging]) in
        let asking := SimpleGit.Status status in
        let committed :=
          SimpleGit.commit git (calls ++ [staging; asking]) message in
        (forall e,
           added = Some e ->
           GitService.commit git g message filePaths calls
           = (Throw ("Failed to commit: " ++ e)%string, calls ++ [staging]))
        /\ (forall e,
              added = None -> status = inl e ->
              GitService.commit git g message filePaths calls
              = (Throw ("Failed to commit: " ++ e)%string,
                 calls ++ [staging; asking]))
        /\ (added = None -> status = inr [] ->
            GitService.commit git g message filePaths calls
            = (Normal tt, calls ++ [staging; asking]))
        /\ (forall p staged,
              added = None -> status = inr (p :: staged) ->
              GitService.commit git g message filePaths calls
              = (match committed with
                 | None => Normal tt
                 | Some e => Throw ("Failed to commit: " ++ e)%string
                 end,
                 calls
                 ++ [staging; asking; SimpleGit.Commit message committed])))
  /\ (forall remote onBranch,
        let r := GitService.remoteName remote in
        let b := GitService.targetBranch g onBranch in
        let pushed := SimpleGit.push git calls r b in
        let first := SimpleGit.Push r b pushed in
        let again := SimpleGit.pushWith git (calls ++ [first]) ["-u"; r; b] in
        GitService.push git g remote onBranch calls
        = match pushed with
          | None => (Normal tt, calls ++ [first])
          | Some e =>
              if GitService.includes e "upstream" then
                (match again with
                 | None => Normal tt
                 | Some e' => Throw e'
                 end,
                 calls ++ [first; SimpleGit.PushWith ["-u"; r; b] again])
              else
                (Throw ("Failed to push: " ++ e)%string, calls ++ [first])
          end)
  /\ (forall remote onBranch,
        let r := GitService.remoteName remote in
        let b := GitService.targetBranch g onBranch in
        let pulled := SimpleGit.pull git calls r b in
        GitService.pull git g remote onBranch calls
        = (match pulled with
           | None => Normal tt
           | Some e => Throw ("Failed to pull: " ++ e)%string
           end,
           calls ++ [SimpleGit.Pull r b pulled])).
Proof.
  refine (conj (commit_calls_and_throws git g calls)
            (conj (fun _ => eq_refl)
               (conj (push_calls_and_throws git g calls)
                  (conj _
                     (conj (commit_stages_asks_and_commits git g calls)
                        (conj (push_result git g calls)
                           (pull_result git g calls))))))).
  intros remote onBranch e. unfold GitService.pull.
  destruct (SimpleGit.pull git calls _ _) as [e'|]; cbn [fst];
    [intros [= <-]; exact (prefix_append "Failed to pull: " _) | discriminate].
Qed.

Lemma what_the_GitService_asks_and_throws_witness :
  let git :=
    SimpleGit.mk (fun _ _ => None) (fun _ => inr [])
      (fun _ _ => None)
      (fun _ _ _ => Some "no upstream branch")
      (fun _ _ => Some "denied") (fun _ _ _ => None) in
  let g := GitService.mk "/vault" DEFAULT_SETTINGS in
  exists new,
    snd (GitService.push git g None (Some "") []) = [] ++ new
    /\ List.length new = 2
    /\ hd_error new
       = Some (SimpleGit.Push "origin" "main" (Some "no upstream branch")).
Proof.
  intros git g.
  destruct (proj1 (proj2 (proj2
              (what_the_GitService_asks_and_throws git g [])))
              None (Some "")) as [new [Hnew [_ [Hhead [Htwo _]]]]].
  exists new. split; [exact Hnew|]. split; [|exact Hhead].
  apply Htwo. exists "no upstream branch". split; reflexivity.
Defined.
